(** * you-pushed: the push detector, the debounced trigger and the presenter

    A shallow embedding of [src/extension.ts].  The extension keeps two
    module-level variables ([currentPanel], [debounceTimer]) and talks to
    three host facilities: the timer queue of the event loop
    ([setTimeout]/[clearTimeout]), the webview panels of the window and the
    command / watcher / listener registries.  All of them are fields of one
    explicit [State]; every source function is a state transformer. *)

From stdpp Require Import base decidable option numbers list strings.
From Stdlib Require Import Lia.

Local Open Scope string_scope.
Local Open Scope list_scope.
Local Open Scope nat_scope.

(** ** Values of the host language *)

Definition Value := string.
Definition Error := string.

(** How a promise settles, or how a call ends: with a value, or with the
    error that was thrown. *)
Inductive Outcome (A : Type) : Type :=
| Resolved (a : A)
| Rejected (e : Error).
Arguments Resolved {A} a.
Arguments Rejected {A} e.

(** ** The event loop's timer queue *)

(** The two closures the source hands to [setTimeout]: the debounced call of
    [showYouPushedMessage] (line 175) and the auto-close of line 199. *)
Inductive Callback : Type :=
| CbShow
| CbAutoClose.

#[global] Instance Callback_eq_dec : EqDecision Callback.
Proof. solve_decision. Defined.

Record Timer : Type := mkTimer {
  timer_id : nat;
  due : nat;
  callback : Callback
}.

(** ** Webview panels *)

(** The only listener the source ever attaches to [onDidDispose] (line 207):
    [currentPanel = undefined]. *)
Inductive Listener : Type :=
| ClearCurrentPanel.

(** A panel of the window.  [createdAt], [disposedAt] and [disposeCalls] are
    the host's record of what happened to it.  The markup that
    [getWebviewContent] returns is one constant string and decides nothing
    here; the record does not carry it. *)
Record Panel : Type := mkPanel {
  viewType : string;
  title : string;
  createdAt : nat;
  disposedAt : option nat;
  disposeCalls : nat;                      (* calls of dispose() so far *)
  onDidDispose : list Listener
}.

Definition live (p : Panel) : Prop := disposedAt p = None.

#[global] Instance live_dec (p : Panel) : Decision (live p).
Proof. unfold live. apply _. Defined.

(** ** Registries *)

Inductive Handler : Type :=
| HTest
| HWrap (commandId : string).

Inductive RepoListener : Type :=
| LStateChange
| LOperation
| LGitCommand.

#[global] Instance RepoListener_eq_dec : EqDecision RepoListener.
Proof. solve_decision. Defined.

(** ** The state *)

Record State : Type := mkState {
  now : nat;                               (* milliseconds *)
  nextTimer : nat;                         (* next timer handle *)
  timers : list Timer;                     (* pending timers, oldest first *)
  currentPanel : option nat;               (* let currentPanel *)
  debounceTimer : option nat;              (* let debounceTimer *)
  panels : list Panel;                     (* every panel ever created, by id *)
  console : list string;                   (* console.log, newest first *)
  detections : nat;                        (* calls of triggerYouPushed so far *)
  commands : list (string * Handler);      (* vscode.commands.registerCommand *)
  watchers : list string;                  (* file system watchers, by folder *)
  repoListeners : list (nat * RepoListener);
  openRepositoryListeners : nat;           (* api.onDidOpenRepository *)
  rejections : list Error                  (* unhandled promise rejections *)
}.

Definition init : State :=
  mkState 0 0 [] None None [] [] 0 [] [] [] 0 [].

Definition set_now (n : nat) (s : State) : State :=
  mkState n (nextTimer s) (timers s) (currentPanel s) (debounceTimer s)
    (panels s) (console s) (detections s) (commands s) (watchers s)
    (repoListeners s) (openRepositoryListeners s) (rejections s).

Definition set_nextTimer (n : nat) (s : State) : State :=
  mkState (now s) n (timers s) (currentPanel s) (debounceTimer s)
    (panels s) (console s) (detections s) (commands s) (watchers s)
    (repoListeners s) (openRepositoryListeners s) (rejections s).

Definition set_timers (ts : list Timer) (s : State) : State :=
  mkState (now s) (nextTimer s) ts (currentPanel s) (debounceTimer s)
    (panels s) (console s) (detections s) (commands s) (watchers s)
    (repoListeners s) (openRepositoryListeners s) (rejections s).

Definition set_currentPanel (c : option nat) (s : State) : State :=
  mkState (now s) (nextTimer s) (timers s) c (debounceTimer s)
    (panels s) (console s) (detections s) (commands s) (watchers s)
    (repoListeners s) (openRepositoryListeners s) (rejections s).

Definition set_debounceTimer (d : option nat) (s : State) : State :=
  mkState (now s) (nextTimer s) (timers s) (currentPanel s) d
    (panels s) (console s) (detections s) (commands s) (watchers s)
    (repoListeners s) (openRepositoryListeners s) (rejections s).

Definition set_panels (ps : list Panel) (s : State) : State :=
  mkState (now s) (nextTimer s) (timers s) (currentPanel s) (debounceTimer s)
    ps (console s) (detections s) (commands s) (watchers s)
    (repoListeners s) (openRepositoryListeners s) (rejections s).

Definition log (msg : string) (s : State) : State :=
  mkState (now s) (nextTimer s) (timers s) (currentPanel s) (debounceTimer s)
    (panels s) (msg :: console s) (detections s) (commands s) (watchers s)
    (repoListeners s) (openRepositoryListeners s) (rejections s).

Definition count_detection (s : State) : State :=
  mkState (now s) (nextTimer s) (timers s) (currentPanel s) (debounceTimer s)
    (panels s) (console s) (S (detections s)) (commands s) (watchers s)
    (repoListeners s) (openRepositoryListeners s) (rejections s).

Definition registerCommand (id : string) (h : Handler) (s : State) : State :=
  mkState (now s) (nextTimer s) (timers s) (currentPanel s) (debounceTimer s)
    (panels s) (console s) (detections s) (commands s ++ [(id, h)]) (watchers s)
    (repoListeners s) (openRepositoryListeners s) (rejections s).

Definition createFileSystemWatcher (folder : string) (s : State) : State :=
  mkState (now s) (nextTimer s) (timers s) (currentPanel s) (debounceTimer s)
    (panels s) (console s) (detections s) (commands s) (watchers s ++ [folder])
    (repoListeners s) (openRepositoryListeners s) (rejections s).

Definition addRepoListener (r : nat) (l : RepoListener) (s : State) : State :=
  mkState (now s) (nextTimer s) (timers s) (currentPanel s) (debounceTimer s)
    (panels s) (console s) (detections s) (commands s) (watchers s)
    (repoListeners s ++ [(r, l)]) (openRepositoryListeners s) (rejections s).

Definition addOpenRepositoryListener (s : State) : State :=
  mkState (now s) (nextTimer s) (timers s) (currentPanel s) (debounceTimer s)
    (panels s) (console s) (detections s) (commands s) (watchers s)
    (repoListeners s) (S (openRepositoryListeners s)) (rejections s).

Definition unhandledRejection (e : Error) (s : State) : State :=
  mkState (now s) (nextTimer s) (timers s) (currentPanel s) (debounceTimer s)
    (panels s) (console s) (detections s) (commands s) (watchers s)
    (repoListeners s) (openRepositoryListeners s) (e :: rejections s).

(** ** Timers: [setTimeout] and [clearTimeout] *)

(** The two delays of the source, in milliseconds (lines 177 and 204). *)
Definition debounceDelay : nat := 500.
Definition autoCloseDelay : nat := 5000.
Arguments debounceDelay : simpl never.
Arguments autoCloseDelay : simpl never.

Definition setTimeout (cb : Callback) (delay : nat) (s : State) : nat * State :=
  (nextTimer s,
   set_nextTimer (S (nextTimer s))
     (set_timers (timers s ++ [mkTimer (nextTimer s) (now s + delay) cb]) s)).

(** Clearing a handle that already fired, or was cleared, changes nothing. *)
Definition clearTimeout (id : nat) (s : State) : State :=
  set_timers (filter (λ t, timer_id t ≠ id) (timers s)) s.

(** ** Panels: [dispose] *)

Definition run_listener (l : Listener) (s : State) : State :=
  match l with
  | ClearCurrentPanel => set_currentPanel None s
  end.

Definition called (pn : Panel) : Panel :=
  mkPanel (viewType pn) (title pn) (createdAt pn) (disposedAt pn)
    (S (disposeCalls pn)) (onDidDispose pn).

Definition closed_at (t : nat) (pn : Panel) : Panel :=
  mkPanel (viewType pn) (title pn) (createdAt pn) (Some t)
    (disposeCalls pn) (onDidDispose pn).

Definition listening (l : Listener) (pn : Panel) : Panel :=
  mkPanel (viewType pn) (title pn) (createdAt pn) (disposedAt pn)
    (disposeCalls pn) (onDidDispose pn ++ [l]).

(** [panel.dispose()]: every call is counted; only the first one closes the
    panel and fires its [onDidDispose] listeners, synchronously. *)
Definition dispose (p : nat) (s : State) : State :=
  match panels s !! p with
  | None => s
  | Some pn =>
      match disposedAt pn with
      | Some _ => set_panels (<[p := called pn]> (panels s)) s
      | None =>
          foldl (λ acc l, run_listener l acc)
            (set_panels (<[p := closed_at (now s) (called pn)]> (panels s)) s)
            (onDidDispose pn)
      end
  end.

(** ** The presenter: [showYouPushedMessage] (lines 180-210) *)

Definition createWebviewPanel (vt ttl : string) (s : State) : nat * State :=
  (length (panels s),
   set_panels (panels s ++ [mkPanel vt ttl (now s) None 0 []]) s).

Definition showYouPushedMessage (s : State) : State :=
  (* if (currentPanel) currentPanel.dispose(); *)
  let s1 := match currentPanel s with
            | Some p => dispose p s
            | None => s
            end in
  (* currentPanel = vscode.window.createWebviewPanel(...) *)
  let '(p, s2) := createWebviewPanel "youPushed" "YOU PUSHED" s1 in
  let s3 := set_currentPanel (Some p) s2 in
  (* setTimeout(() => {...}, 5000): the handle is dropped *)
  let s4 := snd (setTimeout CbAutoClose autoCloseDelay s3) in
  (* currentPanel.onDidDispose(() => { currentPanel = undefined; }) *)
  match currentPanel s4 with
  | Some q =>
      match panels s4 !! q with
      | Some pn => set_panels (<[q := listening ClearCurrentPanel pn]> (panels s4)) s4
      | None => s4
      end
  | None => s4
  end.

(** The closure of line 199: it reads the module variable when it runs, not
    the panel that was current when the timer was set. *)
Definition autoClose (s : State) : State :=
  match currentPanel s with
  | Some p => set_currentPanel None (dispose p s)
  | None => s
  end.

(** ** The trigger: [triggerYouPushed] (lines 169-178) *)

(** [debounceTimer] is a [Timeout] object once set, so the test of line 171
    is "has the trigger run before"; the variable is never reset.  The
    first line only counts the call. *)
Definition triggerYouPushed (s : State) : State :=
  let s0 := count_detection s in
  let s1 := match debounceTimer s0 with
            | Some d => clearTimeout d s0
            | None => s0
            end in
  let '(id, s2) := setTimeout CbShow debounceDelay s1 in
  set_debounceTimer (Some id) s2.

(** ** [deactivate] (lines 352-359) *)

(** The host disposes [context.subscriptions] (the commands and the
    watchers) around this call; the registries below keep them, so the
    states reached here include all those of the extension. *)
Definition deactivate (s : State) : State :=
  let s1 := match currentPanel s with
            | Some p => dispose p s
            | None => s
            end in
  match debounceTimer s1 with
  | Some d => clearTimeout d s1
  | None => s1
  end.

(** ** Time *)

Definition run_callback (cb : Callback) (s : State) : State :=
  match cb with
  | CbShow => showYouPushedMessage s
  | CbAutoClose => autoClose s
  end.

(** One millisecond passes: the timers that are due leave the queue and their
    callbacks run, oldest first.  Neither callback calls [clearTimeout], so
    taking the due timers out before running them loses nothing; the timers
    they set are due 5000ms later.  An event at some millisecond comes after
    the timers of that millisecond. *)
Definition tick (s : State) : State :=
  let n := S (now s) in
  foldl (λ acc t, run_callback (callback t) acc)
    (set_timers (filter (λ t, n <? due t) (timers s)) (set_now n s))
    (filter (λ t, due t <=? n) (timers s)).

Definition advance (n : nat) (s : State) : State := Nat.iter n tick s.

(** ** The environment of [activate] *)

Record Repo : Type := mkRepo {
  repo_id : nat;
  hasOnDidRunOperation : bool;             (* repo.onDidRunOperation is defined *)
  hasOnDidRunGitCommand : bool             (* repo.onDidRunGitCommand is defined *)
}.

Record GitAPI : Type := mkGitAPI {
  repositories : list Repo
}.

Record GitExports : Type := mkGitExports {
  getAPI : nat → Outcome (option GitAPI)
    (* a falsy result is [Resolved None]; a call that throws is [Rejected] *)
}.

Record GitExtension : Type := mkGitExtension {
  isActive : bool;
  exports : GitExports;
  ext_activate : Outcome GitExports        (* how gitExtension.activate() settles *)
}.

Record Env : Type := mkEnv {
  workspaceFolders : option (list string); (* fsPath of each folder, or undefined *)
  path_join : list string → string;        (* path.join, as the platform does it *)
  existsSync : string → bool;
  getExtension : string → option GitExtension
}.

(** ** Registration: lines 8-167 *)

Definition pushCommands : list string :=
  [ "git.push"; "git.pushForce"; "git.pushTo"; "git.pushWithTags";
    "git.sync"; "git.syncRebase"; "git.publish" ].

Definition wrapper_id (commandId : string) : string :=
  "you-pushed.wrap." +:+ commandId.

Definition watchRepository (repo : Repo) (s : State) : State :=
  let s1 := addRepoListener (repo_id repo) LStateChange s in
  let s2 := if hasOnDidRunOperation repo
            then addRepoListener (repo_id repo) LOperation s1 else s1 in
  if hasOnDidRunGitCommand repo
  then addRepoListener (repo_id repo) LGitCommand s2 else s2.

(** An [async] function: the result is the state and how its promise
    settles; there is no [try] in it, so an error thrown by [getAPI] or a
    rejection of [activate()] rejects the promise.  What follows the [await] runs after [activate] has returned;
    nothing of the activation comes after it, so the order is the same. *)
Definition setupGitExtensionListener (env : Env) (s : State) : State * Outcome unit :=
  match getExtension env "vscode.git" with
  | None => (log "Git extension not found" s, Resolved tt)
  | Some gitExtension =>
      match (if isActive gitExtension
             then Resolved (exports gitExtension)
             else ext_activate gitExtension) with
      | Rejected e => (s, Rejected e)
      | Resolved git =>
          match getAPI git 1 with
          | Rejected e => (s, Rejected e)
          | Resolved None => (log "Git API not available" s, Resolved tt)
          | Resolved (Some api) =>
              (addOpenRepositoryListener
                 (foldl (λ acc repo, watchRepository repo acc) s (repositories api)),
               Resolved tt)
          end
      end
  end.

(** The promise of [setupGitExtensionListener] is dropped by the caller: a
    rejection never reaches [activate], it is an unhandled rejection. *)
Definition setupGitCommandHooks (env : Env) (s : State) : State :=
  let s1 := foldl (λ acc commandId,
                     registerCommand (wrapper_id commandId) (HWrap commandId) acc)
                  s pushCommands in
  match setupGitExtensionListener env s1 with
  | (s2, Resolved _) => s2
  | (s2, Rejected e) => unhandledRejection e s2
  end.

(** Line 138.  What [path.join] makes of the segments (separator,
    normalisation) is the platform's business: it comes with [env]. *)
Definition gitRemotesPath (env : Env) (fsPath : string) : string :=
  path_join env [fsPath; ".git"; "logs"; "refs"; "remotes"].

Definition setupGitPushWatcher (env : Env) (s : State) : State :=
  match workspaceFolders env with
  | None => s
  | Some folders =>
      foldl (λ acc folder,
               if existsSync env (gitRemotesPath env folder)
               then log ("Watching for git pushes in: " +:+ gitRemotesPath env folder)
                      (createFileSystemWatcher folder acc)
               else log ("No git remotes directory found at: " +:+ gitRemotesPath env folder)
                      acc)
            s folders
  end.

Definition activate (env : Env) (s : State) : State :=
  let s1 := log "You Pushed extension is now active!" s in
  let s2 := registerCommand "you-pushed.test" HTest s1 in
  let s3 := setupGitPushWatcher env s2 in
  setupGitCommandHooks env s3.

(** ** Handlers *)

Definition undefined : Value := "undefined".

(** [exec] is the host's [vscode.commands.executeCommand] for commands that
    are not ours: how the command with that id settles on those arguments. *)
Definition run_handler (exec : string → list Value → Outcome Value)
    (h : Handler) (args : list Value) (s : State) : State * Outcome Value :=
  match h with
  | HTest => (showYouPushedMessage s, Resolved undefined)
  | HWrap commandId =>
      match exec commandId args with
      | Resolved _ => (triggerYouPushed s, Resolved undefined)
      | Rejected error =>
          (log ("Git command " +:+ commandId +:+ " failed: " +:+ error) s,
           Rejected error)
      end
  end.

Definition lookup_command (id : string) (s : State) : option Handler :=
  snd <$> head (filter (λ c, fst c = id) (commands s)).

Definition on_operation (op : string) (s : State) : State :=
  if decide (op = "Push" ∨ op = "Sync")
  then triggerYouPushed (log ("Git operation detected: " +:+ op) s)
  else s.

(** [event.command?.[0] || ''] *)
Definition first_token (command : option (list string)) : string :=
  match command with
  | Some (c :: _) => c
  | _ => ""
  end.

Definition on_git_command (command : option (list string)) (s : State) : State :=
  if decide (first_token command = "push")
  then triggerYouPushed (log "Git push command detected" s)
  else s.

(** The user closes a panel that is on screen; the host disposes it. *)
Definition userClose (p : nat) (s : State) : State :=
  match panels s !! p with
  | Some pn => if decide (live pn) then dispose p s else s
  | None => s
  end.

(** ** What can happen *)

(** One millisecond, or one call from the host: a registered command is
    executed, a watcher or a listener of the git extension fires, the user
    closes a panel, the extension is shut down. *)
Inductive Event : Type :=
| Tick
| ExecuteCommand (id : string) (args : list Value)
    (exec : string → list Value → Outcome Value)
| FileChanged (folder : string)
| FileCreated (folder : string)
| FileDeleted (folder : string)
| RepoStateChanged (r : nat)
| RepoOperation (r : nat) (op : string)
| RepoGitCommand (r : nat) (command : option (list string))
| RepositoryOpened (repo : Repo)
| UserClose (p : nat)
| Deactivate.

Definition listeners_of (r : nat) (l : RepoListener) (s : State)
    : list (nat * RepoListener) :=
  filter (λ x, fst x = r ∧ snd x = l) (repoListeners s).

Definition step (e : Event) (s : State) : State :=
  match e with
  | Tick => tick s
  | ExecuteCommand id args exec =>
      match lookup_command id s with
      | Some h => fst (run_handler exec h args s)
      | None => s
      end
  | FileChanged folder | FileCreated folder =>
      foldl (λ acc _, triggerYouPushed acc) s
        (filter (λ w, w = folder) (watchers s))
  | FileDeleted _ => s
  | RepoStateChanged _ => s
  | RepoOperation r op =>
      foldl (λ acc _, on_operation op acc) s (listeners_of r LOperation s)
  | RepoGitCommand r command =>
      foldl (λ acc _, on_git_command command acc) s (listeners_of r LGitCommand s)
  | RepositoryOpened repo =>
      Nat.iter (openRepositoryListeners s) (watchRepository repo) s
  | UserClose p => userClose p s
  | Deactivate => deactivate s
  end.

Definition run (evs : list Event) (s : State) : State :=
  foldl (λ acc e, step e acc) s evs.

(** The states the extension can be in: activated once, then any events. *)
Definition reachable (s : State) : Prop :=
  ∃ env evs, s = run evs (activate env init).

(** ** Observations *)

Definition shows (s : State) : list nat := createdAt <$> panels s.

Definition live_panels (s : State) : list Panel := filter live (panels s).

Definition pending (cb : Callback) (s : State) : list Timer :=
  filter (λ t, callback t = cb) (timers s).

(** A burst of detection events: one call of the trigger, then for each gap
    that much time and another call. *)
Definition burst (gaps : list nat) (s : State) : State :=
  foldl (λ acc g, triggerYouPushed (advance g acc)) (triggerYouPushed s) gaps.

Definition last_event (gaps : list nat) (s : State) : nat :=
  now s + sum_list gaps.

(** ** Views of the state *)

(** The part of the state the timer queue lives in. *)
Definition clock (s : State) : nat * nat * list Timer * option nat :=
  (now s, nextTimer s, timers s, debounceTimer s).

(** The part the registries and the logs live in. *)
Definition registry (s : State) :=
  (commands s, watchers s, repoListeners s, openRepositoryListeners s, rejections s).

(** The fields the invariant reads. *)
Definition core (s : State) := (clock s, currentPanel s, panels s).

(** What the git bridge registered, and what went wrong in it. *)
Definition bridge (s : State) :=
  (repoListeners s, openRepositoryListeners s, rejections s).

(** The two places where the source closes "the existing panel, if any". *)
Definition close_existing (s : State) : State :=
  match currentPanel s with
  | Some p => dispose p s
  | None => s
  end.

(** The panel [showYouPushedMessage] puts on screen, its listener attached. *)
Definition fresh_panel (t : nat) : Panel :=
  mkPanel "youPushed" "YOU PUSHED" t None 0 [ClearCurrentPanel].

(** The callbacks of the timers that fell due, run in order. *)
Definition fire_all (fired : list Timer) (s : State) : State :=
  foldl (λ acc t, run_callback (callback t) acc) s fired.

(** The times of the events of a burst that starts at [t0]. *)
Fixpoint event_times (t0 : nat) (gaps : list nat) : list nat :=
  t0 :: match gaps with
        | [] => []
        | g :: gaps' => event_times (t0 + g) gaps'
        end.

(** The identifiers of the registered wrapper commands. *)
Definition wrappers (s : State) : list string :=
  omap (λ c, match snd c with
             | HWrap _ => Some (fst c)
             | HTest => None
             end) (commands s).

(** ** Invariants *)

Record timers_ok (s : State) : Prop := {
  ids_fresh : ∀ t, t ∈ timers s → timer_id t < nextTimer s;
  debounce_fresh : ∀ d, debounceTimer s = Some d → d < nextTimer s;
  show_is_debounce :
    ∀ t, t ∈ timers s → callback t = CbShow ↔ debounceTimer s = Some (timer_id t);
  due_future : ∀ t, t ∈ timers s → now s < due t
}.

Record panels_ok (s : State) : Prop := {
  current_live : ∀ p, currentPanel s = Some p → ∃ pn, panels s !! p = Some pn ∧ live pn;
  live_current : ∀ p pn, panels s !! p = Some pn → live pn → currentPanel s = Some p;
  calls_once :
    ∀ p pn, panels s !! p = Some pn →
            disposeCalls pn = if decide (live pn) then 0 else 1;
  listeners_ok : ∀ p pn, panels s !! p = Some pn → onDidDispose pn = [ClearCurrentPanel]
}.

Definition no_live (s : State) : Prop :=
  ∀ p pn, panels s !! p = Some pn → ¬ live pn.

Definition wf (s : State) : Prop := timers_ok s ∧ panels_ok s.

(** ** Environments and scenarios *)

(** [path.join] on a POSIX host, for segments that need no normalising (as
    those of the scenarios below): the segments, a separator between them. *)
Definition join_segments (parts : list string) : string := String.concat "/" parts.

Definition env0 : Env :=
  mkEnv (Some ["/repo"]) join_segments
    (λ p, bool_decide (p = "/repo/.git/logs/refs/remotes")) (λ _, None).

Definition env_no_folder : Env := mkEnv None join_segments (λ _, false) (λ _, None).

Definition test_command : Event :=
  ExecuteCommand "you-pushed.test" [] (λ _ _, Resolved undefined).

(** The test command was run once, right after activation. *)
Definition shown0 : State := run [test_command] (activate env0 init).


(** The test command at 0ms, the panel closed by hand at 1000ms, the test
    command again at 2000ms, then time up to 5000ms. *)
Definition close_then_show : list Event :=
  [test_command] ++ replicate 1000 Tick ++ [UserClose 0] ++ replicate 1000 Tick
  ++ [test_command] ++ replicate 3000 Tick.




(** ** Properties in the words of the specification *)




(** The six the specification lists: force-push, push-to, push-with-tags,
    sync, sync-with-rebase and publish. *)
Definition listed_push_commands : list string :=
  [ "git.pushForce"; "git.pushTo"; "git.pushWithTags";
    "git.sync"; "git.syncRebase"; "git.publish" ].

(** ** What activation leaves behind, and the events that detect a push *)

(** The registrations made once, by [activate]: no later call adds to them
    or takes from them. *)
Definition registered (s : State) :=
  (commands s, watchers s, openRepositoryListeners s).

(** The events that come from the two detectors: a file under a watched
    folder, or the git extension. *)
Definition detection_source (e : Event) : bool :=
  match e with
  | FileChanged _ | FileCreated _ | FileDeleted _
  | RepoStateChanged _ | RepoOperation _ _ | RepoGitCommand _ _
  | RepositoryOpened _ => true
  | Tick | ExecuteCommand _ _ _ | UserClose _ | Deactivate => false
  end.

(** What detection events, all at the same instant, may have made of [s]:
    the panels and the auto-close timers are those of [s]; if a detection
    was counted exactly one notification is scheduled, 500ms from now. *)
Record detected_since (s s' : State) : Prop := {
  ds_now : now s' = now s;
  ds_panels : panels s' = panels s;
  ds_current : currentPanel s' = currentPanel s;
  ds_autoClose : pending CbAutoClose s' = pending CbAutoClose s;
  ds_ok : timers_ok s';
  ds_count : detections s ≤ detections s';
  ds_none : detections s' = detections s → clock s' = clock s;
  ds_some : detections s < detections s' →
            ∃ T, pending CbShow s' = [T] ∧ due T = now s + debounceDelay
}.

(** The listeners [watchRepository] attaches to one repository, in the order
    of lines 96, 109 and 121. *)
Definition attached (repo : Repo) : list (nat * RepoListener) :=
  [(repo_id repo, LStateChange)]
  ++ (if hasOnDidRunOperation repo then [(repo_id repo, LOperation)] else [])
  ++ (if hasOnDidRunGitCommand repo then [(repo_id repo, LGitCommand)] else []).

(** What [activate] leaves in the bridge, by what it finds of the git
    extension. *)
Definition bridge_of (env : Env) : list (nat * RepoListener) * nat * list Error :=
  match getExtension env "vscode.git" with
  | None => ([], 0, [])
  | Some ext =>
      match (if isActive ext then Resolved (exports ext) else ext_activate ext) with
      | Rejected e => ([], 0, [e])
      | Resolved git =>
          match getAPI git 1 with
          | Rejected e => ([], 0, [e])
          | Resolved None => ([], 0, [])
          | Resolved (Some api) => (repositories api ≫= attached, 1, [])
          end
      end
  end.

(** A workspace with the git extension active and two repositories: the
    first with both optional events, the second with none. *)
Definition env_git : Env :=
  mkEnv (Some ["/repo"]) join_segments
    (λ p, bool_decide (p = "/repo/.git/logs/refs/remotes"))
    (λ id, if bool_decide (id = "vscode.git")
           then Some (mkGitExtension true
                        (mkGitExports
                           (λ _, Resolved (Some (mkGitAPI [mkRepo 7 true true;
                                                           mkRepo 8 false false]))))
                        (Rejected "unused"))
           else None).

(** The git extension is installed, not active yet, and its activation
    fails. *)
Definition env_rejecting : Env :=
  mkEnv (Some ["/repo"]) join_segments
    (λ p, bool_decide (p = "/repo/.git/logs/refs/remotes"))
    (λ _, Some (mkGitExtension false (mkGitExports (λ _, Resolved None))
                  (Rejected "no git"))).

(** The console line [setupGitPushWatcher] writes for one folder (lines 142
    and 165). *)
Definition watcher_log (env : Env) (folder : string) : string :=
  if existsSync env (gitRemotesPath env folder)
  then "Watching for git pushes in: " +:+ gitRemotesPath env folder
  else "No git remotes directory found at: " +:+ gitRemotesPath env folder.

(** Two folders, the second without a remotes log. *)
Definition env_two_folders : Env :=
  mkEnv (Some ["/repo"; "/notes"]) join_segments
    (λ p, bool_decide (p = "/repo/.git/logs/refs/remotes")) (λ _, None).

(** The events that show the notification without a detection: the test
    command. *)
Definition is_test (e : Event) : bool :=
  match e with
  | ExecuteCommand id _ _ => bool_decide (id = "you-pushed.test")
  | _ => false
  end.

Definition manual_shows (evs : list Event) : nat := length (filter is_test evs).

(** The notification that is scheduled, if any: there is at most one, and it
    is due within the debounce delay. *)
Definition scheduled_ok (s : State) : Prop :=
  length (pending CbShow s) ≤ 1
  ∧ ∀ T, T ∈ pending CbShow s → due T ≤ now s + debounceDelay.

(** ** How long a panel lives *)

(** Every panel on screen has its auto-close timer in the queue, due 5000ms
    after the panel was created. *)
Definition closing (s : State) : Prop :=
  ∀ p pn, panels s !! p = Some pn → live pn →
          ∃ T, T ∈ timers s ∧ callback T = CbAutoClose
               ∧ due T = createdAt pn + autoCloseDelay.

(** No panel was created in the future, and none was closed before it was
    created, after its 5000ms, or in the future. *)
Definition lifetimes_ok (s : State) : Prop :=
  ∀ p pn, panels s !! p = Some pn →
          createdAt pn ≤ now s
          ∧ ∀ t, disposedAt pn = Some t →
                 createdAt pn ≤ t ∧ t ≤ createdAt pn + autoCloseDelay ∧ t ≤ now s.

(** While the timers of one millisecond run: a panel on screen may be at
    its 5000ms, not beyond. *)
Definition not_overdue (s : State) : Prop :=
  ∀ p pn, panels s !! p = Some pn → live pn → now s ≤ createdAt pn + autoCloseDelay.

Definition timed (s : State) : Prop := lifetimes_ok s ∧ closing s.

(** * Frames: what each primitive leaves alone *)

Lemma clock_inv (s : State) (a b : nat) (c : list Timer) (d : option nat) :
  clock s = (a, b, c, d) →
  now s = a ∧ nextTimer s = b ∧ timers s = c ∧ debounceTimer s = d.
Proof. unfold clock. by intros [= -> -> -> ->]. Qed.

Ltac clock_of H :=
  apply clock_inv in H; destruct H as (?Hnow & ?Hnext & ?Htimers & ?Hdebounce).

Lemma debounceDelay_pos : 0 < debounceDelay.
Proof. unfold debounceDelay. lia. Qed.

Lemma autoCloseDelay_pos : 0 < autoCloseDelay.
Proof. unfold autoCloseDelay. lia. Qed.

Ltac delays := pose proof debounceDelay_pos; pose proof autoCloseDelay_pos.
Ltac dlia := delays; lia.

Lemma run_listeners_eq (ls : list Listener) (s : State) :
  foldl (λ acc l, run_listener l acc) s ls =
  match ls with [] => s | _ :: _ => set_currentPanel None s end.
Proof.
  revert s. induction ls as [|[] ls IH]; intros s; [done|].
  simpl. rewrite IH. by destruct ls.
Qed.

Lemma dispose_clock (p : nat) (s : State) : clock (dispose p s) = clock s.
Proof.
  unfold dispose. destruct (panels s !! p) as [pn|]; [|done].
  destruct (disposedAt pn); [done|].
  rewrite run_listeners_eq. by destruct (onDidDispose pn).
Qed.

Lemma dispose_registry (p : nat) (s : State) :
  registry (dispose p s) = registry s ∧ detections (dispose p s) = detections s
  ∧ console (dispose p s) = console s.
Proof.
  unfold dispose. destruct (panels s !! p) as [pn|]; [|done].
  destruct (disposedAt pn); [done|].
  rewrite run_listeners_eq. by destruct (onDidDispose pn).
Qed.

Lemma fmap_insert_same {A B : Type} (f : A → B) (l : list A) (i : nat) (x y : A) :
  l !! i = Some x → f y = f x → f <$> <[i := y]> l = f <$> l.
Proof.
  intros Hi Hf. rewrite list_fmap_insert. apply list_insert_id.
  by rewrite list_lookup_fmap, Hi, Hf.
Qed.

(** Disposal never creates a panel and never changes when one was created. *)
Lemma dispose_shows (p : nat) (s : State) : shows (dispose p s) = shows s.
Proof.
  unfold dispose, shows. destruct (panels s !! p) as [pn|] eqn:Hp; [|done].
  destruct (disposedAt pn).
  - simpl. by apply fmap_insert_same with pn.
  - rewrite run_listeners_eq.
    destruct (onDidDispose pn); simpl; by apply fmap_insert_same with pn.
Qed.

Lemma dispose_length (p : nat) (s : State) :
  length (panels (dispose p s)) = length (panels s).
Proof.
  unfold dispose. destruct (panels s !! p) as [pn|] eqn:Hp; [|done].
  destruct (disposedAt pn).
  - simpl. by rewrite length_insert.
  - rewrite run_listeners_eq.
    destruct (onDidDispose pn); simpl; by rewrite length_insert.
Qed.

Lemma close_existing_clock (s : State) : clock (close_existing s) = clock s.
Proof. unfold close_existing. destruct (currentPanel s); [apply dispose_clock | done]. Qed.

Lemma close_existing_shows (s : State) : shows (close_existing s) = shows s.
Proof. unfold close_existing. destruct (currentPanel s); [apply dispose_shows | done]. Qed.

(** [showYouPushedMessage], with the new panel and its timer written out. *)
Lemma showYouPushedMessage_eq (s : State) :
  let s1 := close_existing s in
  showYouPushedMessage s =
  set_panels (panels s1 ++ [fresh_panel (now s1)])
    (set_nextTimer (S (nextTimer s1))
       (set_timers (timers s1 ++ [mkTimer (nextTimer s1) (now s1 + autoCloseDelay) CbAutoClose])
          (set_currentPanel (Some (length (panels s1))) s1))).
Proof.
  unfold showYouPushedMessage. fold (close_existing s).
  generalize (close_existing s) as s1. intros s1. simpl.
  rewrite list_lookup_middle by done. simpl.
  rewrite insert_app_r_alt by done.
  by rewrite Nat.sub_diag.
Qed.

Lemma showYouPushedMessage_clock (s : State) :
  clock (showYouPushedMessage s) =
  (now s, S (nextTimer s),
   timers s ++ [mkTimer (nextTimer s) (now s + autoCloseDelay) CbAutoClose],
   debounceTimer s).
Proof.
  rewrite showYouPushedMessage_eq. cbv zeta.
  pose proof (close_existing_clock s) as H. clock_of H.
  unfold clock. simpl. congruence.
Qed.

Lemma showYouPushedMessage_shows (s : State) :
  shows (showYouPushedMessage s) = shows s ++ [now s].
Proof.
  rewrite showYouPushedMessage_eq. cbv zeta. unfold shows. simpl.
  rewrite fmap_app. simpl.
  pose proof (close_existing_clock s) as H. clock_of H.
  pose proof (close_existing_shows s) as Hs. unfold shows in Hs.
  congruence.
Qed.

Lemma autoClose_clock (s : State) : clock (autoClose s) = clock s.
Proof.
  unfold autoClose. destruct (currentPanel s); [|done].
  by rewrite <- (dispose_clock n s).
Qed.

Lemma autoClose_shows (s : State) : shows (autoClose s) = shows s.
Proof.
  unfold autoClose. destruct (currentPanel s); [|done].
  by rewrite <- (dispose_shows n s).
Qed.

(** * The timer queue is well formed *)

Lemma timers_ok_clock (s s' : State) : clock s' = clock s → timers_ok s → timers_ok s'.
Proof.
  intros H [H1 H2 H3 H4]. clock_of H.
  split; rewrite ?Hnow, ?Hnext, ?Htimers, ?Hdebounce; auto.
Qed.

Lemma timers_ok_init : timers_ok init.
Proof. split; simpl; intros; try done; by apply not_elem_of_nil in H. Qed.

Lemma filter_ext_elem {A : Type} (P Q : A → Prop)
    `{!∀ x, Decision (P x), !∀ x, Decision (Q x)} (l : list A) :
  (∀ x, x ∈ l → P x ↔ Q x) → filter P l = filter Q l.
Proof.
  induction l as [|a l IH]; intros Hl; [done|].
  rewrite !filter_cons, IH by (intros; apply Hl; by right).
  apply decide_ext, Hl. by left.
Qed.

Lemma filter_none {A : Type} (P : A → Prop) `{!∀ x, Decision (P x)} (l : list A) :
  (∀ x, x ∈ l → ¬ P x) → filter P l = [].
Proof.
  induction l as [|a l IH]; intros Hl; [done|].
  rewrite filter_cons_False by (apply Hl; by left).
  apply IH. intros; apply Hl; by right.
Qed.

Lemma filter_all {A : Type} (P : A → Prop) `{!∀ x, Decision (P x)} (l : list A) :
  (∀ x, x ∈ l → P x) → filter P l = l.
Proof.
  induction l as [|a l IH]; intros Hl; [done|].
  rewrite filter_cons_True by (apply Hl; by left).
  f_equal. apply IH. intros; apply Hl; by right.
Qed.

Lemma callback_cases (t : Timer) : callback t ≠ CbShow ↔ callback t = CbAutoClose.
Proof. destruct (callback t); naive_solver. Qed.

(** In a well-formed queue, clearing the debounce handle takes out every
    pending show and nothing else. *)
Lemma clear_debounce (s : State) :
  timers_ok s →
  timers (match debounceTimer s with
          | Some d => clearTimeout d s
          | None => s
          end) = pending CbAutoClose s.
Proof.
  intros [_ _ H3 _]. unfold pending. destruct (debounceTimer s) as [d|] eqn:Hd; simpl.
  - apply filter_ext_elem. intros t Ht. rewrite <- callback_cases, (H3 t Ht).
    split; intros Hne ?; apply Hne; congruence.
  - symmetry. apply filter_all. intros t Ht. apply callback_cases.
    intros Hcb. apply (H3 t Ht) in Hcb. congruence.
Qed.

Lemma triggerYouPushed_clock (s : State) :
  timers_ok s →
  clock (triggerYouPushed s) =
  (now s, S (nextTimer s),
   pending CbAutoClose s ++ [mkTimer (nextTimer s) (now s + debounceDelay) CbShow],
   Some (nextTimer s)).
Proof.
  intros Hok. pose proof (clear_debounce s Hok) as Hc.
  unfold triggerYouPushed, clock. simpl.
  destruct (debounceTimer s); simpl in *; by rewrite Hc.
Qed.

Lemma triggerYouPushed_shows (s : State) : shows (triggerYouPushed s) = shows s.
Proof. unfold triggerYouPushed. simpl. by destruct (debounceTimer s). Qed.

Lemma triggerYouPushed_panels (s : State) :
  panels (triggerYouPushed s) = panels s
  ∧ currentPanel (triggerYouPushed s) = currentPanel s.
Proof. unfold triggerYouPushed. simpl. by destruct (debounceTimer s). Qed.

Lemma triggerYouPushed_detections (s : State) :
  detections (triggerYouPushed s) = S (detections s).
Proof. unfold triggerYouPushed. simpl. by destruct (debounceTimer s). Qed.

Lemma pending_elem (cb : Callback) (s : State) (t : Timer) :
  t ∈ pending cb s ↔ callback t = cb ∧ t ∈ timers s.
Proof. unfold pending. by rewrite list_elem_of_filter. Qed.

Lemma triggerYouPushed_ok (s : State) : timers_ok s → timers_ok (triggerYouPushed s).
Proof.
  intros Hok. pose proof (triggerYouPushed_clock s Hok) as H. clock_of H.
  destruct Hok as [H1 H2 H3 H4].
  split; rewrite ?Hnow, ?Hnext, ?Htimers, ?Hdebounce.
  - intros t [[_ Ht]%pending_elem | ->%list_elem_of_singleton]%elem_of_app; simpl;
      [specialize (H1 t Ht)|]; dlia.
  - intros d [= <-]. dlia.
  - intros t.
    intros [[Hcb Ht]%pending_elem | ->%list_elem_of_singleton]%elem_of_app; simpl; [|done].
    rewrite Hcb. split; [done|]. intros [= Heq]. specialize (H1 t Ht). dlia.
  - intros t [[_ Ht]%pending_elem | ->%list_elem_of_singleton]%elem_of_app; simpl;
      [specialize (H4 t Ht)|]; dlia.
Qed.


Lemma filter_one {A : Type} (P : A → Prop) `{!∀ x, Decision (P x)} (x : A) :
  filter P [x] = if decide (P x) then [x] else [].
Proof. done. Qed.

(** After the trigger exactly one show is pending, due in 500ms, and the
    pending auto-closes are the ones that were pending before. *)
Lemma triggerYouPushed_pending (s : State) :
  timers_ok s →
  pending CbShow (triggerYouPushed s) = [mkTimer (nextTimer s) (now s + debounceDelay) CbShow]
  ∧ pending CbAutoClose (triggerYouPushed s) = pending CbAutoClose s.
Proof.
  intros Hok. pose proof (triggerYouPushed_clock s Hok) as H. clock_of H.
  unfold pending. rewrite Htimers, !filter_app. unfold pending. split.
  - rewrite list_filter_filter.
    rewrite filter_none by (intros ? ? [? ?]; congruence). done.
  - rewrite list_filter_filter_l by auto.
    rewrite filter_one, decide_False by (simpl; congruence). by rewrite app_nil_r.
Qed.

(** * One millisecond *)

Lemma showYouPushedMessage_ok (s : State) : timers_ok s → timers_ok (showYouPushedMessage s).
Proof.
  intros [H1 H2 H3 H4]. pose proof (showYouPushedMessage_clock s) as H. clock_of H.
  split; rewrite ?Hnow, ?Hnext, ?Htimers, ?Hdebounce.
  - intros t [Ht | ->%list_elem_of_singleton]%elem_of_app; simpl;
      [specialize (H1 t Ht)|]; dlia.
  - intros d Hd. specialize (H2 d Hd). dlia.
  - intros t [Ht | ->%list_elem_of_singleton]%elem_of_app; simpl; [by apply H3|].
    split; [done|]. intros Hd. specialize (H2 _ Hd). dlia.
  - intros t [Ht | ->%list_elem_of_singleton]%elem_of_app; simpl;
      [specialize (H4 t Ht)|]; dlia.
Qed.

Lemma showYouPushedMessage_pending (s : State) :
  pending CbShow (showYouPushedMessage s) = pending CbShow s
  ∧ pending CbAutoClose (showYouPushedMessage s) =
    pending CbAutoClose s ++ [mkTimer (nextTimer s) (now s + autoCloseDelay) CbAutoClose].
Proof.
  pose proof (showYouPushedMessage_clock s) as H. clock_of H.
  unfold pending. rewrite Htimers, !filter_app.
  rewrite !filter_one, decide_False, decide_True by (simpl; congruence).
  by rewrite app_nil_r.
Qed.

Lemma run_callback_ok (cb : Callback) (s : State) :
  timers_ok s → timers_ok (run_callback cb s).
Proof.
  destruct cb; simpl.
  - apply showYouPushedMessage_ok.
  - apply timers_ok_clock, autoClose_clock.
Qed.

(** Running due callbacks: the clock does not move, no show is scheduled or
    cancelled, and every show callback opens one panel. *)
Lemma fire_all_spec (fired : list Timer) (s : State) :
  now (fire_all fired s) = now s
  ∧ debounceTimer (fire_all fired s) = debounceTimer s
  ∧ pending CbShow (fire_all fired s) = pending CbShow s
  ∧ shows (fire_all fired s) =
    shows s ++ replicate (length (filter (λ t, callback t = CbShow) fired)) (now s).
Proof.
  revert s. induction fired as [|t fired IH]; intros s.
  { simpl. by rewrite app_nil_r. }
  unfold fire_all in *. simpl foldl.
  destruct (IH (run_callback (callback t) s)) as (IH1 & IH2 & IH3 & IH4).
  rewrite IH1, IH2, IH3, IH4, filter_cons. clear IH IH1 IH2 IH3 IH4.
  destruct (callback t) eqn:Hcb; simpl run_callback.
  - pose proof (showYouPushedMessage_clock s) as H. clock_of H.
    rewrite Hnow, Hdebounce, showYouPushedMessage_shows.
    rewrite (proj1 (showYouPushedMessage_pending s)).
    rewrite decide_True by done. simpl. by rewrite <- app_assoc.
  - pose proof (autoClose_clock s) as H. clock_of H.
    rewrite Hnow, Hdebounce, autoClose_shows.
    rewrite decide_False by done. unfold pending. by rewrite Htimers.
Qed.

Lemma fire_all_ok (fired : list Timer) (s : State) :
  timers_ok s → timers_ok (fire_all fired s).
Proof.
  revert s. induction fired as [|t fired IH]; intros s Hok; [done|].
  apply IH. by apply run_callback_ok.
Qed.

Lemma tick_eq (s : State) :
  tick s =
  fire_all (filter (λ t, due t <=? S (now s)) (timers s))
    (set_timers (filter (λ t, S (now s) <? due t) (timers s)) (set_now (S (now s)) s)).
Proof. done. Qed.

Lemma tick_ok (s : State) : timers_ok s → timers_ok (tick s).
Proof.
  intros [H1 H2 H3 H4]. rewrite tick_eq. apply fire_all_ok.
  split; simpl.
  - intros t [_ Ht]%list_elem_of_filter. auto.
  - auto.
  - intros t [_ Ht]%list_elem_of_filter. auto.
  - intros t [Hd%Is_true_true%Nat.ltb_lt _]%list_elem_of_filter. done.
Qed.

Lemma tick_now (s : State) : now (tick s) = S (now s).
Proof. rewrite tick_eq. by rewrite (proj1 (fire_all_spec _ _)). Qed.

Lemma tick_debounceTimer (s : State) : debounceTimer (tick s) = debounceTimer s.
Proof. rewrite tick_eq. by rewrite (proj1 (proj2 (fire_all_spec _ _))). Qed.

Lemma ltb_lt_true (a b : nat) : Is_true (a <? b) ↔ a < b.
Proof. by rewrite Is_true_true, Nat.ltb_lt. Qed.

Lemma leb_le_true (a b : nat) : Is_true (a <=? b) ↔ a ≤ b.
Proof. by rewrite Is_true_true, Nat.leb_le. Qed.

Lemma filter_comm {A : Type} (P Q : A → Prop)
    `{!∀ x, Decision (P x), !∀ x, Decision (Q x)} (l : list A) :
  filter P (filter Q l) = filter Q (filter P l).
Proof. rewrite !list_filter_filter. apply list_filter_iff. intros x. tauto. Qed.

(** What one millisecond does to the pending shows and to the panels opened
    so far: the shows that are due leave the queue and open a panel each. *)
Lemma tick_spec (s : State) :
  pending CbShow (tick s) = filter (λ t, S (now s) <? due t) (pending CbShow s)
  ∧ shows (tick s) =
    shows s ++
    replicate (length (filter (λ t, due t <=? S (now s)) (pending CbShow s))) (S (now s)).
Proof.
  rewrite tick_eq.
  destruct (fire_all_spec
    (filter (λ t, due t <=? S (now s)) (timers s))
    (set_timers (filter (λ t, S (now s) <? due t) (timers s)) (set_now (S (now s)) s)))
    as (_ & _ & -> & ->).
  unfold pending, shows. simpl. split; [apply filter_comm|].
  by rewrite filter_comm.
Qed.

(** A tick in which no show is due. *)
Lemma tick_quiet (s : State) :
  (∀ t, t ∈ pending CbShow s → S (now s) < due t) →
  pending CbShow (tick s) = pending CbShow s ∧ shows (tick s) = shows s.
Proof.
  intros Hq. destruct (tick_spec s) as [-> ->].
  rewrite filter_all by (intros; by apply ltb_lt_true, Hq).
  rewrite filter_none.
  - by rewrite app_nil_r.
  - intros t Ht Hd%leb_le_true. specialize (Hq t Ht). dlia.
Qed.

(** The tick in which the pending show is due. *)
Lemma tick_fire (s : State) (t : Timer) :
  pending CbShow s = [t] → due t ≤ S (now s) →
  pending CbShow (tick s) = [] ∧ shows (tick s) = shows s ++ [S (now s)].
Proof.
  intros Hp Hd. destruct (tick_spec s) as [-> ->]. rewrite Hp, !filter_one.
  rewrite decide_False, decide_True; [done | by apply leb_le_true |].
  rewrite ltb_lt_true. dlia.
Qed.

(** * Letting time pass *)

Lemma advance_S (n : nat) (s : State) : advance (S n) s = tick (advance n s).
Proof. done. Qed.

Lemma advance_add (n m : nat) (s : State) : advance (n + m) s = advance n (advance m s).
Proof. apply Nat.iter_add. Qed.

Lemma advance_now (n : nat) (s : State) : now (advance n s) = now s + n.
Proof.
  induction n as [|n IH]; [simpl; dlia|]. rewrite advance_S, tick_now, IH. dlia.
Qed.

Lemma advance_ok (n : nat) (s : State) : timers_ok s → timers_ok (advance n s).
Proof. intros Hok. induction n as [|n IH]; [done|]. rewrite advance_S. by apply tick_ok. Qed.

Lemma advance_debounceTimer (n : nat) (s : State) :
  debounceTimer (advance n s) = debounceTimer s.
Proof.
  induction n as [|n IH]; [done|]. by rewrite advance_S, tick_debounceTimer.
Qed.

(** No show falls due in the next [n] milliseconds: nothing is shown. *)
Lemma advance_quiet (n : nat) (s : State) :
  (∀ t, t ∈ pending CbShow s → now s + n < due t) →
  pending CbShow (advance n s) = pending CbShow s ∧ shows (advance n s) = shows s.
Proof.
  induction n as [|n IH]; intros Hq; [done|].
  destruct IH as [IHp IHs]; [intros t Ht; specialize (Hq t Ht); dlia|].
  rewrite advance_S.
  destruct (tick_quiet (advance n s)) as [-> ->]; [|done].
  intros t Ht. rewrite IHp in Ht. rewrite advance_now. specialize (Hq t Ht). dlia.
Qed.

(** The pending show falls due within the next [n] milliseconds: it opens
    one panel, at the time it was due, and nothing else is shown. *)
Lemma advance_fire (n : nat) (s : State) (t : Timer) :
  pending CbShow s = [t] → now s < due t → due t ≤ now s + n →
  pending CbShow (advance n s) = [] ∧ shows (advance n s) = shows s ++ [due t].
Proof.
  intros Hp Hlt Hle.
  replace n with ((now s + n - due t) + S (due t - now s - 1)) by dlia.
  rewrite advance_add, advance_S.
  set (k := due t - now s - 1).
  destruct (advance_quiet k s) as [Hkp Hks].
  { intros t' Ht'. rewrite Hp in Ht'. apply list_elem_of_singleton in Ht' as ->.
    unfold k. dlia. }
  destruct (tick_fire (advance k s) t) as [Hfp Hfs].
  { by rewrite Hkp. }
  { rewrite advance_now. unfold k. dlia. }
  destruct (advance_quiet (now s + n - due t) (tick (advance k s))) as [-> ->].
  { intros t' Ht'. rewrite Hfp in Ht'. by apply not_elem_of_nil in Ht'. }
  rewrite Hfp, Hfs, Hks, advance_now. split; [done|]. do 2 f_equal. unfold k. dlia.
Qed.

(** * Bursts of detection events *)

Lemma burst_cons (g : nat) (gaps : list nat) (s : State) :
  burst (g :: gaps) s = burst gaps (advance g (triggerYouPushed s)).
Proof. done. Qed.

Lemma triggerYouPushed_now (s : State) : now (triggerYouPushed s) = now s.
Proof. unfold triggerYouPushed. simpl. by destruct (debounceTimer s). Qed.

(** While the events of a burst are less than 500ms apart its state is
    "armed": one show is pending, 500ms after the last event, and nothing
    has been shown yet. *)
Lemma burst_armed (gaps : list nat) (s : State) :
  timers_ok s → Forall (λ g, g < debounceDelay) gaps →
  timers_ok (burst gaps s)
  ∧ now (burst gaps s) = last_event gaps s
  ∧ shows (burst gaps s) = shows s
  ∧ ∃ t, pending CbShow (burst gaps s) = [t] ∧ due t = last_event gaps s + debounceDelay.
Proof.
  unfold last_event. revert s. induction gaps as [|g gaps IH]; intros s Hok Hg.
  - change (burst [] s) with (triggerYouPushed s). change (sum_list []) with 0.
    rewrite Nat.add_0_r, triggerYouPushed_now, triggerYouPushed_shows.
    split; [by apply triggerYouPushed_ok|]. split; [done|]. split; [done|].
    eexists. split; [by apply triggerYouPushed_pending|]. done.
  - apply Forall_cons in Hg as [Hg Hgs]. rewrite burst_cons.
    pose proof (triggerYouPushed_ok s Hok) as Hok1.
    destruct (triggerYouPushed_pending s Hok) as [Hp _].
    destruct (advance_quiet g (triggerYouPushed s)) as [_ Hs].
    { intros t. rewrite Hp. intros ->%list_elem_of_singleton.
      rewrite triggerYouPushed_now. simpl. dlia. }
    destruct (IH (advance g (triggerYouPushed s))) as (H1 & H2 & H3 & t & H4 & H5);
      [by apply advance_ok | done |].
    rewrite advance_now, triggerYouPushed_now in H2, H5.
    rewrite Hs, triggerYouPushed_shows in H3.
    change (sum_list (g :: gaps)) with (g + sum_list gaps).
    split; [done|]. split; [dlia|]. split; [done|]. exists t. split; [done|]. dlia.
Qed.

Lemma event_times_length (t0 : nat) (gaps : list nat) :
  length (event_times t0 gaps) = S (length gaps).
Proof. revert t0. induction gaps as [|g gaps IH]; intros t0; simpl; [done|]. by rewrite IH. Qed.

Lemma triggerYouPushed_fires (d : nat) (s : State) :
  timers_ok s → debounceDelay ≤ d →
  shows (advance d (triggerYouPushed s)) = shows s ++ [now s + debounceDelay].
Proof.
  intros Hok Hd. destruct (triggerYouPushed_pending s Hok) as [Hp _].
  destruct (advance_fire d (triggerYouPushed s) _ Hp) as [_ Hs].
  - rewrite triggerYouPushed_now. simpl. dlia.
  - rewrite triggerYouPushed_now. simpl. dlia.
  - by rewrite Hs, triggerYouPushed_shows.
Qed.

Lemma burst_spaced (gaps : list nat) (d : nat) (s : State) :
  timers_ok s → Forall (λ g, debounceDelay < g) gaps → debounceDelay ≤ d →
  shows (advance d (burst gaps s)) =
  shows s ++ ((λ t, t + debounceDelay) <$> event_times (now s) gaps).
Proof.
  intros Hok Hg Hd. revert s Hok. induction gaps as [|g gaps IH]; intros s Hok.
  - by apply triggerYouPushed_fires.
  - apply Forall_cons in Hg as [Hg Hgs]. rewrite burst_cons, IH; [|done|].
    + rewrite triggerYouPushed_fires, advance_now, triggerYouPushed_now by (done || dlia).
      simpl. by rewrite <- app_assoc.
    + by apply advance_ok, triggerYouPushed_ok.
Qed.

(** * At most one panel is on screen *)

Lemma panels_ok_ext (s s' : State) :
  currentPanel s' = currentPanel s → panels s' = panels s →
  panels_ok s → panels_ok s'.
Proof. intros Hc Hp [H1 H2 H3 H4]. split; rewrite ?Hc, ?Hp; auto. Qed.

Lemma panels_ok_init : panels_ok init.
Proof. split; simpl; intros; done. Qed.

Lemma panels_ok_none (s : State) : panels_ok s → currentPanel s = None → no_live s.
Proof. intros [_ H2 _ _] Hc p pn Hp Hl. specialize (H2 p pn Hp Hl). congruence. Qed.

(** Disposing the panel the module variable points at: its listener clears
    the variable, and it was the only panel on screen. *)
Lemma dispose_current (s : State) (p : nat) :
  panels_ok s → currentPanel s = Some p →
  ∃ pn, panels s !! p = Some pn ∧ live pn
        ∧ dispose p s =
          set_currentPanel None
            (set_panels (<[p := closed_at (now s) (called pn)]> (panels s)) s).
Proof.
  intros Hok Hc. destruct (current_live s Hok p Hc) as (pn & Hp & Hl).
  exists pn. split; [done|]. split; [done|].
  unfold dispose. rewrite Hp, Hl, (listeners_ok s Hok p pn Hp). done.
Qed.

Lemma dispose_current_ok (s : State) (p : nat) :
  panels_ok s → currentPanel s = Some p →
  panels_ok (dispose p s) ∧ currentPanel (dispose p s) = None ∧ no_live (dispose p s).
Proof.
  intros Hok Hc. destruct (dispose_current s p Hok Hc) as (pn & Hp & Hl & ->).
  destruct Hok as [H1 H2 H3 H4].
  assert (Hnl : ∀ q pn', <[p := closed_at (now s) (called pn)]> (panels s) !! q = Some pn' →
                         ¬ live pn').
  { intros q pn' [(<- & <- & _) | (Hne & Hq)]%list_lookup_insert_Some; [done|].
    intros Hl'. specialize (H2 q pn' Hq Hl'). congruence. }
  split; [|split; [done | exact Hnl]].
  split; simpl.
  - done.
  - intros q pn' Hq Hl'. by destruct (Hnl q pn' Hq).
  - intros q pn' [(<- & <- & _) | (Hne & Hq)]%list_lookup_insert_Some; [|by eauto].
    simpl. rewrite (H3 p pn Hp), decide_True by done. done.
  - intros q pn' [(<- & <- & _) | (Hne & Hq)]%list_lookup_insert_Some; [|by eauto].
    simpl. eauto.
Qed.

Lemma close_existing_ok (s : State) :
  panels_ok s →
  panels_ok (close_existing s) ∧ currentPanel (close_existing s) = None
  ∧ no_live (close_existing s).
Proof.
  intros Hok. unfold close_existing. destruct (currentPanel s) as [p|] eqn:Hc.
  - by apply dispose_current_ok.
  - split; [done|]. split; [done|]. by apply panels_ok_none.
Qed.

Lemma showYouPushedMessage_panels (s : State) :
  panels (showYouPushedMessage s) = panels (close_existing s) ++ [fresh_panel (now s)]
  ∧ currentPanel (showYouPushedMessage s) = Some (length (panels s)).
Proof.
  rewrite showYouPushedMessage_eq. cbv zeta. simpl.
  pose proof (close_existing_clock s) as H. clock_of H. rewrite Hnow. split; [done|].
  f_equal. unfold close_existing. destruct (currentPanel s); [apply dispose_length | done].
Qed.

Lemma showYouPushedMessage_panels_ok (s : State) :
  panels_ok s → panels_ok (showYouPushedMessage s).
Proof.
  intros Hok. destruct (close_existing_ok s Hok) as ([H1 H2 H3 H4] & Hc & Hnl).
  destruct (showYouPushedMessage_panels s) as [Hp Hcur].
  assert (Hlen : length (panels (close_existing s)) = length (panels s)).
  { unfold close_existing. destruct (currentPanel s); [apply dispose_length | done]. }
  split; rewrite ?Hp, ?Hcur.
  - intros p [= <-]. exists (fresh_panel (now s)). split; [|done].
    rewrite <- Hlen. by apply list_lookup_middle.
  - intros q pn [Hq | [Hge Hq]]%lookup_app_Some Hl.
    + by destruct (Hnl q pn Hq).
    + rewrite Hlen in *. destruct (q - length (panels s)) as [|k] eqn:Hk; [|done].
      f_equal. apply lookup_lt_Some in Hq. dlia.
  - intros q pn [Hq | [Hge Hq]]%lookup_app_Some; [by eauto|].
    destruct (q - length (panels (close_existing s))); [|done].
    by injection Hq as <-.
  - intros q pn [Hq | [Hge Hq]]%lookup_app_Some; [by eauto|].
    destruct (q - length (panels (close_existing s))); [|done].
    by injection Hq as <-.
Qed.

Lemma autoClose_panels_ok (s : State) : panels_ok s → panels_ok (autoClose s).
Proof.
  intros Hok. unfold autoClose. destruct (currentPanel s) as [p|] eqn:Hc; [|done].
  destruct (dispose_current_ok s p Hok Hc) as (Hok' & Hc' & _).
  by apply (panels_ok_ext (dispose p s)).
Qed.

Lemma userClose_panels_ok (p : nat) (s : State) : panels_ok s → panels_ok (userClose p s).
Proof.
  intros Hok. unfold userClose. destruct (panels s !! p) as [pn|] eqn:Hp; [|done].
  destruct (decide (live pn)) as [Hl|]; [|done].
  apply dispose_current_ok; [done|]. by apply (live_current s Hok p pn).
Qed.

Lemma clearTimeout_ok (d : nat) (s : State) : timers_ok s → timers_ok (clearTimeout d s).
Proof.
  intros [H1 H2 H3 H4]. split; simpl; auto; intros t [_ Ht]%list_elem_of_filter; auto.
Qed.

(** * The invariant of the whole state *)

Lemma core_inv (s s' : State) :
  core s' = core s →
  clock s' = clock s ∧ currentPanel s' = currentPanel s ∧ panels s' = panels s.
Proof.
  unfold core. intros H. split; [exact (f_equal (λ x, fst (fst x)) H)|].
  split; [exact (f_equal (λ x, snd (fst x)) H) | exact (f_equal snd H)].
Qed.

Lemma wf_core (s s' : State) : core s' = core s → wf s → wf s'.
Proof.
  intros (Hc & Hcur & Hp)%core_inv [Ht Hpn]. split.
  - by apply (timers_ok_clock s).
  - by apply (panels_ok_ext s).
Qed.

Lemma wf_init : wf init.
Proof. split; [apply timers_ok_init | apply panels_ok_init]. Qed.

Lemma triggerYouPushed_wf (s : State) : wf s → wf (triggerYouPushed s).
Proof.
  intros [Ht Hp]. split; [by apply triggerYouPushed_ok|].
  destruct (triggerYouPushed_panels s). by apply (panels_ok_ext s).
Qed.

Lemma showYouPushedMessage_wf (s : State) : wf s → wf (showYouPushedMessage s).
Proof.
  intros [Ht Hp]. split;
    [by apply showYouPushedMessage_ok | by apply showYouPushedMessage_panels_ok].
Qed.

Lemma autoClose_wf (s : State) : wf s → wf (autoClose s).
Proof.
  intros [Ht Hp]. split; [|by apply autoClose_panels_ok].
  apply (timers_ok_clock s); [apply autoClose_clock | done].
Qed.

Lemma run_callback_wf (cb : Callback) (s : State) : wf s → wf (run_callback cb s).
Proof. destruct cb; [apply showYouPushedMessage_wf | apply autoClose_wf]. Qed.

Lemma fire_all_wf (fired : list Timer) (s : State) : wf s → wf (fire_all fired s).
Proof.
  revert s. induction fired as [|t fired IH]; intros s Hwf; [done|].
  apply IH. by apply run_callback_wf.
Qed.

Lemma tick_wf (s : State) : wf s → wf (tick s).
Proof.
  intros [Ht Hp]. split; [by apply tick_ok|].
  rewrite tick_eq. apply fire_all_wf. split.
  - destruct Ht as [H1 H2 H3 H4]. split; simpl; auto.
    + intros t [_ Hin]%list_elem_of_filter. auto.
    + intros t [_ Hin]%list_elem_of_filter. auto.
    + intros t [Hd%ltb_lt_true _]%list_elem_of_filter. done.
  - by apply (panels_ok_ext s).
Qed.

Lemma advance_wf (n : nat) (s : State) : wf s → wf (advance n s).
Proof. intros Hwf. induction n as [|n IH]; [done|]. rewrite advance_S. by apply tick_wf. Qed.

Lemma userClose_wf (p : nat) (s : State) : wf s → wf (userClose p s).
Proof.
  intros [Ht Hp]. split; [|by apply userClose_panels_ok].
  apply (timers_ok_clock s); [|done].
  unfold userClose. destruct (panels s !! p) as [pn|]; [|done].
  destruct (decide (live pn)); [apply dispose_clock | done].
Qed.

Lemma deactivate_wf (s : State) : wf s → wf (deactivate s).
Proof.
  intros [Ht Hp]. unfold deactivate. fold (close_existing s).
  assert (Hwf : wf (close_existing s)).
  { split; [|by apply close_existing_ok].
    apply (timers_ok_clock s); [apply close_existing_clock | done]. }
  destruct (debounceTimer (close_existing s)); [|done].
  destruct Hwf as [Ht' Hp']. split; [by apply clearTimeout_ok|].
  by apply (panels_ok_ext (close_existing s)).
Qed.

Lemma foldl_wf {A : Type} (f : State → A → State) (l : list A) (s : State) :
  (∀ s a, wf s → wf (f s a)) → wf s → wf (foldl f s l).
Proof. intros Hf. revert s. induction l as [|a l IH]; intros s Hwf; simpl; auto. Qed.

Lemma watchRepository_core (repo : Repo) (s : State) :
  core (watchRepository repo s) = core s.
Proof.
  unfold watchRepository.
  by destruct (hasOnDidRunOperation repo), (hasOnDidRunGitCommand repo).
Qed.

Lemma on_operation_wf (op : string) (s : State) : wf s → wf (on_operation op s).
Proof.
  intros Hwf. unfold on_operation. case_decide; [|done].
  apply triggerYouPushed_wf. by apply (wf_core s).
Qed.

Lemma on_git_command_wf (command : option (list string)) (s : State) :
  wf s → wf (on_git_command command s).
Proof.
  intros Hwf. unfold on_git_command. case_decide; [|done].
  apply triggerYouPushed_wf. by apply (wf_core s).
Qed.

Lemma run_handler_wf exec (h : Handler) (args : list Value) (s : State) :
  wf s → wf (fst (run_handler exec h args s)).
Proof.
  intros Hwf. destruct h as [|commandId]; simpl.
  - by apply showYouPushedMessage_wf.
  - destruct (exec commandId args); simpl; [by apply triggerYouPushed_wf|].
    by apply (wf_core s).
Qed.

Lemma step_wf (e : Event) (s : State) : wf s → wf (step e s).
Proof.
  intros Hwf. destruct e; simpl; try done.
  - by apply tick_wf.
  - destruct (lookup_command id s); [by apply run_handler_wf | done].
  - apply foldl_wf; [|done]. intros; by apply triggerYouPushed_wf.
  - apply foldl_wf; [|done]. intros; by apply triggerYouPushed_wf.
  - apply foldl_wf; [|done]. intros; by apply on_operation_wf.
  - apply foldl_wf; [|done]. intros; by apply on_git_command_wf.
  - induction (openRepositoryListeners s) as [|k IH]; [done|].
    simpl. apply (wf_core (Nat.iter k (watchRepository repo) s)); [|done].
    apply watchRepository_core.
  - by apply userClose_wf.
  - by apply deactivate_wf.
Qed.

Lemma run_wf (evs : list Event) (s : State) : wf s → wf (run evs s).
Proof. apply foldl_wf. intros; by apply step_wf. Qed.

Lemma foldl_core {A : Type} (f : State → A → State) (l : list A) (s : State) :
  (∀ s a, core (f s a) = core s) → core (foldl f s l) = core s.
Proof.
  intros Hf. revert s. induction l as [|a l IH]; intros s; simpl; [done|].
  by rewrite IH, Hf.
Qed.

Lemma setupGitPushWatcher_core (env : Env) (s : State) :
  core (setupGitPushWatcher env s) = core s.
Proof.
  unfold setupGitPushWatcher. destruct (workspaceFolders env); [|done].
  apply foldl_core. intros s' folder. by destruct (existsSync env _).
Qed.

Lemma setupGitExtensionListener_core (env : Env) (s : State) :
  core (fst (setupGitExtensionListener env s)) = core s.
Proof.
  unfold setupGitExtensionListener.
  destruct (getExtension env "vscode.git") as [ext|]; [|done].
  destruct (if isActive ext then _ else _) as [git|]; [|done].
  destruct (getAPI git 1) as [[api|]|e]; [|done|done].
  simpl. change (core (addOpenRepositoryListener ?x)) with (core x).
  apply foldl_core. intros. apply watchRepository_core.
Qed.

Lemma setupGitCommandHooks_core (env : Env) (s : State) :
  core (setupGitCommandHooks env s) = core s.
Proof.
  unfold setupGitCommandHooks.
  pose proof (setupGitExtensionListener_core env
    (foldl (λ acc commandId, registerCommand (wrapper_id commandId) (HWrap commandId) acc)
       s pushCommands)) as H.
  destruct (setupGitExtensionListener env _) as [s2 [u|e]]; simpl in H.
  - by rewrite H.
  - change (core (unhandledRejection e s2)) with (core s2). by rewrite H.
Qed.

Lemma activate_core (env : Env) (s : State) : core (activate env s) = core s.
Proof.
  unfold activate. by rewrite setupGitCommandHooks_core, setupGitPushWatcher_core.
Qed.

(** Every state the extension can reach is well formed. *)
Lemma reachable_wf (s : State) : reachable s → wf s.
Proof.
  intros (env & evs & ->). apply run_wf.
  apply (wf_core init); [apply activate_core | apply wf_init].
Qed.

(** * Counting detection events *)

Lemma close_existing_detections (s : State) :
  detections (close_existing s) = detections s.
Proof.
  unfold close_existing. destruct (currentPanel s); [|done]. apply dispose_registry.
Qed.

Lemma run_callback_detections (cb : Callback) (s : State) :
  detections (run_callback cb s) = detections s.
Proof.
  destruct cb; simpl.
  - rewrite showYouPushedMessage_eq. apply close_existing_detections.
  - unfold autoClose. destruct (currentPanel s); [|done]. apply dispose_registry.
Qed.

Lemma fire_all_detections (fired : list Timer) (s : State) :
  detections (fire_all fired s) = detections s.
Proof.
  revert s. induction fired as [|t fired IH]; intros s; [done|].
  unfold fire_all in *. simpl. by rewrite IH, run_callback_detections.
Qed.

Lemma advance_detections (n : nat) (s : State) : detections (advance n s) = detections s.
Proof.
  induction n as [|n IH]; [done|].
  by rewrite advance_S, tick_eq, fire_all_detections.
Qed.

Lemma burst_detections (gaps : list nat) (s : State) :
  detections (burst gaps s) = detections s + S (length gaps).
Proof.
  revert s. induction gaps as [|g gaps IH]; intros s.
  - change (burst [] s) with (triggerYouPushed s).
    rewrite triggerYouPushed_detections. simpl. dlia.
  - rewrite burst_cons, IH, advance_detections, triggerYouPushed_detections. simpl. dlia.
Qed.

(** * The debounce *)

(** C1. A burst of N detection events, each less than 500ms after the one
    before, shows exactly one notification, 500ms after the last event of
    the burst, and none earlier: every call of the trigger cancels the
    pending show and schedules a new one 500ms later. *)
Theorem burst_shows_once (s : State) (gaps : list nat) :
  reachable s → Forall (λ g, g < debounceDelay) gaps →
  detections (burst gaps s) = detections s + S (length gaps)
  ∧ pending CbShow (triggerYouPushed s) =
    [mkTimer (nextTimer s) (now s + debounceDelay) CbShow]
  ∧ (∀ d, d < debounceDelay → shows (advance d (burst gaps s)) = shows s)
  ∧ (∀ d, debounceDelay ≤ d →
          shows (advance d (burst gaps s)) =
          shows s ++ [last_event gaps s + debounceDelay]).
Proof.
  intros [Hok _]%reachable_wf Hgaps. split; [apply burst_detections|].
  split; [by apply triggerYouPushed_pending|].
  destruct (burst_armed gaps s Hok Hgaps) as (Hok' & Hnow & Hshows & t & Hp & Hdue).
  split; intros d Hd.
  - destruct (advance_quiet d (burst gaps s)) as [_ ->]; [|done].
    intros t'. rewrite Hp. intros ->%list_elem_of_singleton. dlia.
  - destruct (advance_fire d (burst gaps s) t Hp) as [_ ->]; [dlia | dlia |].
    by rewrite Hshows, Hdue.
Qed.

Lemma burst_shows_once_witness :
  shows (advance 500 (burst [100; 0; 499] (activate env0 init))) = [1099].
Proof.
  assert (Hr : reachable (activate env0 init)) by (by exists env0, []).
  assert (Hg : Forall (λ g, g < debounceDelay) [100; 0; 499])
    by (repeat constructor; unfold debounceDelay; lia).
  assert (Hd : debounceDelay ≤ 500) by (unfold debounceDelay; lia).
  exact (proj2 (proj2 (proj2
    (burst_shows_once (activate env0 init) [100; 0; 499] Hr Hg))) 500 Hd).
Defined.

(** C2. N detection events, each more than 500ms after the one before, show
    exactly N notifications, one per event, each 500ms after its event. *)
Theorem spaced_events_show_each (s : State) (gaps : list nat) (d : nat) :
  reachable s → Forall (λ g, debounceDelay < g) gaps → debounceDelay ≤ d →
  detections (burst gaps s) = detections s + S (length gaps)
  ∧ shows (advance d (burst gaps s)) =
    shows s ++ ((λ t, t + debounceDelay) <$> event_times (now s) gaps)
  ∧ length (shows (advance d (burst gaps s))) = length (shows s) + S (length gaps).
Proof.
  intros [Hok _]%reachable_wf Hgaps Hd. split; [apply burst_detections|].
  rewrite (burst_spaced gaps d s Hok Hgaps Hd). split; [done|].
  by rewrite length_app, length_fmap, event_times_length.
Qed.

Lemma spaced_events_show_each_witness :
  shows (advance 500 (burst [501; 700] (activate env0 init))) = [500; 1001; 1701].
Proof.
  assert (Hr : reachable (activate env0 init)) by (by exists env0, []).
  assert (Hg : Forall (λ g, 500 < g) [501; 700]) by (repeat constructor; dlia).
  assert (Hd : 500 ≤ 500) by dlia.
  exact (proj1 (proj2
    (spaced_events_show_each (activate env0 init) [501; 700] 500 Hr Hg Hd))).
Defined.

(** * Panels on screen *)

Lemma filter_le_one {A : Type} (P : A → Prop) `{!∀ x, Decision (P x)} (l : list A) :
  (∀ i j x y, l !! i = Some x → l !! j = Some y → P x → P y → i = j) →
  length (filter P l) ≤ 1.
Proof.
  induction l as [|a l IH]; intros Hl; [simpl; dlia|].
  rewrite filter_cons. destruct (decide (P a)) as [Ha|Ha].
  - rewrite filter_none; [simpl; dlia|].
    intros x [j Hj]%list_elem_of_lookup Hx.
    specialize (Hl 0 (S j) a x eq_refl Hj Ha Hx). dlia.
  - apply IH. intros i j x y Hi Hj Hx Hy.
    specialize (Hl (S i) (S j) x y Hi Hj Hx Hy). dlia.
Qed.

Lemma live_panels_le_one (s : State) : panels_ok s → length (live_panels s) ≤ 1.
Proof.
  intros [_ H2 _ _]. apply filter_le_one. intros i j x y Hi Hj Hx Hy.
  pose proof (H2 i x Hi Hx). pose proof (H2 j y Hj Hy). congruence.
Qed.

Lemma no_live_nil (s : State) : no_live s → live_panels s = [].
Proof.
  intros Hnl. apply filter_none. intros pn [p Hp]%list_elem_of_lookup. by apply (Hnl p).
Qed.

Lemma showYouPushedMessage_live (s : State) :
  panels_ok s → live_panels (showYouPushedMessage s) = [fresh_panel (now s)].
Proof.
  intros Hok. destruct (close_existing_ok s Hok) as (_ & _ & Hnl).
  unfold live_panels. rewrite (proj1 (showYouPushedMessage_panels s)), filter_app.
  fold (live_panels (close_existing s)). by rewrite no_live_nil.
Qed.

Lemma showYouPushedMessage_after_dispose (s : State) (p : nat) :
  panels_ok s → currentPanel s = Some p →
  showYouPushedMessage s = showYouPushedMessage (dispose p s).
Proof.
  intros Hok Hc. destruct (dispose_current_ok s p Hok Hc) as (_ & Hc' & _).
  rewrite (showYouPushedMessage_eq s), (showYouPushedMessage_eq (dispose p s)).
  unfold close_existing. by rewrite Hc, Hc'.
Qed.

(** C3. At most one surface is ever live.  In every state the extension can
    reach, whatever was shown, timed out, closed by the user or shut down
    before, at most one panel is on screen; [show] leaves exactly one, the
    new one; and when a panel is on screen [show] first disposes it (no
    panel is left on screen at that point) and then goes on as it does from
    the state without it. *)
Theorem at_most_one_surface (s : State) :
  reachable s →
  length (live_panels s) ≤ 1
  ∧ live_panels (showYouPushedMessage s) = [fresh_panel (now s)]
  ∧ ∀ p, currentPanel s = Some p →
         live_panels (dispose p s) = []
         ∧ showYouPushedMessage s = showYouPushedMessage (dispose p s)
         ∧ ∃ pn, panels s !! p = Some pn ∧ live pn
                 ∧ panels (showYouPushedMessage s) !! p =
                   Some (closed_at (now s) (called pn)).
Proof.
  intros [_ Hok]%reachable_wf. split; [by apply live_panels_le_one|].
  split; [by apply showYouPushedMessage_live|]. intros p Hc.
  destruct (dispose_current_ok s p Hok Hc) as (_ & _ & Hnl).
  split; [by apply no_live_nil|].
  split; [by apply showYouPushedMessage_after_dispose|].
  destruct (dispose_current s p Hok Hc) as (pn & Hp & Hl & Hd).
  exists pn. split; [done|]. split; [done|].
  rewrite (proj1 (showYouPushedMessage_panels s)). unfold close_existing.
  rewrite Hc, Hd. simpl.
  rewrite lookup_app_l by (rewrite length_insert; by apply lookup_lt_Some in Hp).
  apply list_lookup_insert_eq. by apply lookup_lt_Some in Hp.
Qed.

Lemma at_most_one_surface_witness :
  length (live_panels shown0) ≤ 1
  ∧ live_panels (showYouPushedMessage shown0) = [fresh_panel 0]
  ∧ live_panels (dispose 0 shown0) = []
  ∧ showYouPushedMessage shown0 = showYouPushedMessage (dispose 0 shown0).
Proof.
  assert (Hr : reachable shown0) by (by eexists env0, [_]).
  split; [exact (proj1 (at_most_one_surface shown0 Hr))|].
  split; [exact (proj1 (proj2 (at_most_one_surface shown0 Hr)))|].
  split.
  - exact (proj1 (proj2 (proj2 (at_most_one_surface shown0 Hr)) 0 eq_refl)).
  - exact (proj1 (proj2 (proj2 (proj2 (at_most_one_surface shown0 Hr)) 0 eq_refl))).
Defined.

(** * Time without due timers *)

Lemma set_now_same (s : State) : set_now (now s) s = s.
Proof. by destruct s. Qed.

Lemma tick_idle (s : State) :
  (∀ t, t ∈ timers s → S (now s) < due t) → tick s = set_now (S (now s)) s.
Proof.
  intros Hq. rewrite tick_eq, filter_none, filter_all; [done | |].
  - intros t Ht. by apply ltb_lt_true, Hq.
  - intros t Ht Hd%leb_le_true. specialize (Hq t Ht). dlia.
Qed.

Lemma advance_idle (n : nat) (s : State) :
  (∀ t, t ∈ timers s → now s + n < due t) → advance n s = set_now (now s + n) s.
Proof.
  induction n as [|n IH]; intros Hq.
  - by rewrite Nat.add_0_r, set_now_same.
  - rewrite advance_S, IH by (intros t Ht; specialize (Hq t Ht); dlia).
    rewrite tick_idle; simpl.
    + by rewrite Nat.add_succ_r.
    + intros t Ht. specialize (Hq t Ht). dlia.
Qed.

Lemma advance_no_timers (n : nat) (s : State) :
  timers s = [] → advance n s = set_now (now s + n) s.
Proof. intros Ht. apply advance_idle. rewrite Ht. by intros t ?%not_elem_of_nil. Qed.

(** The tick in which a lone auto-close timer is due. *)
Lemma tick_autoClose (s : State) (T : Timer) :
  timers s = [T] → callback T = CbAutoClose → due T = S (now s) →
  tick s = autoClose (set_timers [] (set_now (S (now s)) s)).
Proof.
  intros Ht Hcb Hd. rewrite tick_eq, Ht, !filter_one.
  rewrite decide_True, decide_False; rewrite ?leb_le_true, ?ltb_lt_true; try dlia.
  unfold fire_all. simpl. by rewrite Hcb.
Qed.

(** A lone auto-close timer, [k+1] milliseconds away: when it fires it runs
    the closure of line 199 on the state of that moment. *)
Lemma advance_autoClose (s : State) (T : Timer) (k m : nat) :
  timers s = [T] → callback T = CbAutoClose → due T = now s + S k →
  advance (m + S k) s =
  advance m (autoClose (set_timers [] (set_now (now s + S k) s))).
Proof.
  intros Ht Hcb Hd. rewrite advance_add, advance_S. f_equal.
  rewrite advance_idle.
  - rewrite (tick_autoClose _ T); simpl; [|done|done|dlia].
    by rewrite Nat.add_succ_r.
  - intros t. rewrite Ht. intros ->%list_elem_of_singleton. dlia.
Qed.

(** * The life of one surface *)

Lemma close_existing_length (s : State) :
  length (panels (close_existing s)) = length (panels s).
Proof. unfold close_existing. destruct (currentPanel s); [apply dispose_length | done]. Qed.

Lemma showYouPushedMessage_new (s : State) :
  panels (showYouPushedMessage s) !! length (panels s) = Some (fresh_panel (now s)).
Proof.
  rewrite (proj1 (showYouPushedMessage_panels s)).
  apply list_lookup_middle. by rewrite close_existing_length.
Qed.

Lemma showYouPushedMessage_alone (s : State) :
  timers s = [] →
  timers (showYouPushedMessage s) = [mkTimer (nextTimer s) (now s + autoCloseDelay) CbAutoClose].
Proof.
  intros Ht. pose proof (showYouPushedMessage_clock s) as H. clock_of H.
  by rewrite Htimers, Ht.
Qed.




(** Runs, piece by piece. *)
Lemma run_app (evs1 evs2 : list Event) (s : State) :
  run (evs1 ++ evs2) s = run evs2 (run evs1 s).
Proof. apply foldl_app. Qed.

Lemma run_ticks (n : nat) (s : State) : run (replicate n Tick) s = advance n s.
Proof.
  revert s. induction n as [|n IH]; intros s; [done|].
  unfold advance. rewrite Nat.iter_succ_r. simpl. apply IH.
Qed.

(** * Closing a surface by hand *)

Lemma no_double_dispose (s : State) :
  wf s → ∀ q pn, panels s !! q = Some pn → disposeCalls pn ≤ 1.
Proof.
  intros [_ Hok] q pn Hq. rewrite (calls_once s Hok q pn Hq). case_decide; lia.
Qed.

Lemma autoClose_none (s : State) : currentPanel s = None → autoClose s = s.
Proof. intros Hc. unfold autoClose. by rewrite Hc. Qed.

(** A lone auto-close timer that fires when no panel is current: the timer
    leaves the queue, the clock moves, and that is all. *)
Lemma advance_autoClose_none (s : State) (T : Timer) (k m : nat) :
  timers s = [T] → callback T = CbAutoClose → due T = now s + S k →
  currentPanel s = None →
  advance (m + S k) s = set_timers [] (set_now (now s + S k + m) s).
Proof.
  intros Ht Hcb Hd Hc. rewrite (advance_autoClose s T k m Ht Hcb Hd).
  rewrite autoClose_none by done. by rewrite advance_no_timers.
Qed.

Lemma userClose_live (s : State) (p : nat) (pn : Panel) :
  wf s → panels s !! p = Some pn → live pn →
  userClose p s =
  set_currentPanel None
    (set_panels (<[p := closed_at (now s) (called pn)]> (panels s)) s).
Proof.
  intros [_ Hok] Hp Hl. unfold userClose. rewrite Hp, decide_True by done.
  destruct (dispose_current s p Hok (live_current s Hok p pn Hp Hl)) as (pn' & Hp' & _ & ->).
  rewrite Hp in Hp'. by injection Hp' as <-.
Qed.

(** The surface shown from a state with an empty queue and closed by hand
    [t] milliseconds later, [t < 5000]: its timer is still in the queue, and
    when it fires nothing changes but the queue and the clock. *)
Lemma close_then_timeout (s : State) (t m : nat) :
  wf s → timers s = [] → t < autoCloseDelay →
  let s1 := userClose (length (panels s)) (advance t (showYouPushedMessage s)) in
  panels s1 !! length (panels s) =
    Some (closed_at (now s + t) (called (fresh_panel (now s))))
  ∧ timers s1 = [mkTimer (nextTimer s) (now s + autoCloseDelay) CbAutoClose]
  ∧ advance (autoCloseDelay - t + m) s1 =
    set_timers [] (set_now (now s + autoCloseDelay + m) s1).
Proof.
  intros Hwf Ht Hlt. cbv zeta.
  set (p := length (panels s)). set (s0 := showYouPushedMessage s).
  assert (Ht0 : timers s0 = [mkTimer (nextTimer s) (now s + autoCloseDelay) CbAutoClose])
    by (by apply showYouPushedMessage_alone).
  assert (Hnew : panels s0 !! p = Some (fresh_panel (now s)))
    by apply showYouPushedMessage_new.
  assert (Hnow : now s0 = now s).
  { pose proof (showYouPushedMessage_clock s) as Hclk. by clock_of Hclk. }
  assert (Hwf0 : wf s0) by (by apply showYouPushedMessage_wf).
  assert (Hadv : advance t s0 = set_now (now s + t) s0).
  { rewrite advance_idle, Hnow; [done|].
    intros T. rewrite Ht0. intros ->%list_elem_of_singleton. cbn [due]. dlia. }
  set (s1 := userClose p (advance t s0)).
  assert (Hs1 : s1 =
    set_currentPanel None
      (set_panels (<[p := closed_at (now s + t) (called (fresh_panel (now s)))]> (panels s0))
         (set_now (now s + t) s0))).
  { assert (Hwft : wf (set_now (now s + t) s0))
      by (rewrite <- Hadv; by apply advance_wf).
    unfold s1. rewrite Hadv.
    by rewrite (userClose_live _ p (fresh_panel (now s)) Hwft Hnew). }
  assert (Ht1 : timers s1 = [mkTimer (nextTimer s) (now s + autoCloseDelay) CbAutoClose])
    by (by rewrite Hs1).
  split.
  { rewrite Hs1. cbn [panels set_currentPanel set_panels].
    apply list_lookup_insert_eq. by apply lookup_lt_Some in Hnew. }
  assert (Hc1 : currentPanel s1 = None) by (by rewrite Hs1).
  assert (Hn1 : now s1 = now s + t) by (by rewrite Hs1).
  split; [done|].
  replace (autoCloseDelay - t + m) with (m + S (autoCloseDelay - t - 1)) by dlia.
  rewrite (advance_autoClose_none s1 _ (autoCloseDelay - t - 1) m Ht1);
    [|done|cbn [due]; dlia|done].
  do 2 f_equal. dlia.
Qed.

(** What does hold of a surface that is closed by hand before its 5000ms
    are over.  In every state the extension can reach: closing a panel that is on screen
    clears [currentPanel] and disposes that panel once, so that the
    auto-close closure, whenever it runs next with nothing shown in between,
    changes nothing; and no panel has ever been disposed twice.  For a
    surface shown from an empty queue and closed [t] milliseconds later,
    [t < 5000], the timer is still in the queue after the close and fires
    5000ms after the show without any effect but on the queue and the
    clock. *)
Theorem close_before_timeout (s : State) :
  reachable s →
  (∀ q pn, panels s !! q = Some pn → disposeCalls pn ≤ 1)
  ∧ (∀ p pn, panels s !! p = Some pn → live pn →
       currentPanel (userClose p s) = None
       ∧ panels (userClose p s) !! p = Some (closed_at (now s) (called pn))
       ∧ autoClose (userClose p s) = userClose p s)
  ∧ (timers s = [] → ∀ t m, t < autoCloseDelay →
       let s1 := userClose (length (panels s)) (advance t (showYouPushedMessage s)) in
       panels s1 !! length (panels s) =
         Some (closed_at (now s + t) (called (fresh_panel (now s))))
       ∧ timers s1 = [mkTimer (nextTimer s) (now s + autoCloseDelay) CbAutoClose]
       ∧ advance (autoCloseDelay - t + m) s1 =
         set_timers [] (set_now (now s + autoCloseDelay + m) s1)).
Proof.
  intros Hwf%reachable_wf. split; [by apply no_double_dispose|]. split.
  - intros p pn Hp Hl. rewrite (userClose_live s p pn Hwf Hp Hl).
    split; [done|]. split; [|by apply autoClose_none].
    apply list_lookup_insert_eq. by apply lookup_lt_Some in Hp.
  - intros Ht t m Hlt. by apply close_then_timeout.
Qed.

Lemma close_before_timeout_witness :
  currentPanel (userClose 0 shown0) = None
  ∧ advance (5000 - 1200 + 0)
      (userClose 0 (advance 1200 (showYouPushedMessage (activate env0 init))))
    = set_timers [] (set_now 5000
        (userClose 0 (advance 1200 (showYouPushedMessage (activate env0 init))))).
Proof.
  assert (Hr : reachable (activate env0 init)) by (by exists env0, []).
  assert (Hr' : reachable shown0) by (by eexists env0, [_]).
  assert (Hlt : 1200 < autoCloseDelay) by (unfold autoCloseDelay; lia).
  split.
  - exact (proj1 (proj1 (proj2 (close_before_timeout shown0 Hr'))
             0 (fresh_panel 0) eq_refl eq_refl)).
  - exact (proj2 (proj2 (proj2 (proj2
      (close_before_timeout (activate env0 init) Hr)) eq_refl 1200 0 Hlt))).
Defined.

(** * Shutdown *)

Lemma fire_all_none (fired : list Timer) (s : State) :
  currentPanel s = None → (∀ t, t ∈ fired → callback t = CbAutoClose) →
  fire_all fired s = s.
Proof.
  intros Hc. induction fired as [|t fired IH]; intros Hf; [done|].
  unfold fire_all in *. simpl. rewrite (Hf t) by (by left). simpl.
  rewrite autoClose_none by done. apply IH. intros; apply Hf; by right.
Qed.

Lemma pending_none (s : State) (t : Timer) :
  pending CbShow s = [] → t ∈ timers s → callback t = CbAutoClose.
Proof.
  intros Hp Ht. apply callback_cases. intros Hcb.
  assert (t ∈ pending CbShow s) as Hin by (by apply pending_elem).
  rewrite Hp in Hin. by apply not_elem_of_nil in Hin.
Qed.

(** With no panel current and no show pending, time changes no panel. *)
Lemma advance_nothing (n : nat) (s : State) :
  currentPanel s = None → pending CbShow s = [] →
  panels (advance n s) = panels s ∧ currentPanel (advance n s) = None
  ∧ pending CbShow (advance n s) = [].
Proof.
  intros Hc Hp. induction n as [|n (IH1 & IH2 & IH3)]; [done|].
  rewrite advance_S. destruct (tick_spec (advance n s)) as [Hps _].
  rewrite IH3 in Hps. rewrite tick_eq in *. rewrite fire_all_none in *; try done.
  all: intros t [_ Ht]%list_elem_of_filter; by apply (pending_none (advance n s)).
Qed.

Lemma deactivate_spec (s : State) :
  wf s →
  currentPanel (deactivate s) = None
  ∧ panels (deactivate s) = panels (close_existing s)
  ∧ timers (deactivate s) = pending CbAutoClose s.
Proof.
  intros [Ht Hp]. destruct (close_existing_ok s Hp) as (_ & Hc & _).
  pose proof (close_existing_clock s) as Hclk.
  assert (Ht' : timers_ok (close_existing s)) by (by apply (timers_ok_clock s)).
  pose proof (clear_debounce (close_existing s) Ht') as Hcd.
  clock_of Hclk.
  assert (Hpe : pending CbAutoClose (close_existing s) = pending CbAutoClose s)
    by (unfold pending; by rewrite Htimers).
  unfold deactivate. fold (close_existing s). rewrite <- Hpe, <- Hcd.
  by destruct (debounceTimer (close_existing s)).
Qed.

(** C8, as the code has it.  [deactivate] disposes the surface that is on
    screen, if any, and cancels the pending debounce timer, if any; the
    auto-close timers stay in the queue and fire when they are due, but
    they find no current panel: as time passes no panel changes and none is
    shown. *)
Theorem shutdown_disposal (s : State) :
  reachable s →
  live_panels (deactivate s) = []
  ∧ currentPanel (deactivate s) = None
  ∧ (∀ p, currentPanel s = Some p →
          ∃ pn, panels s !! p = Some pn ∧ live pn
                ∧ panels (deactivate s) !! p = Some (closed_at (now s) (called pn)))
  ∧ pending CbShow (deactivate s) = []
  ∧ pending CbAutoClose (deactivate s) = pending CbAutoClose s
  ∧ ∀ n, panels (advance n (deactivate s)) = panels (deactivate s)
         ∧ currentPanel (advance n (deactivate s)) = None
         ∧ ∀ T, T ∈ timers (advance n (deactivate s)) → now s + n < due T.
Proof.
  intros Hwf%reachable_wf. destruct (deactivate_spec s Hwf) as (Hc & Hp & Ht).
  destruct Hwf as [Hto Hpo]. destruct (close_existing_ok s Hpo) as (_ & _ & Hnl).
  assert (Hps : pending CbShow (deactivate s) = []).
  { unfold pending. rewrite Ht. unfold pending. rewrite list_filter_filter.
    apply filter_none. intros t _ [? ?]. congruence. }
  split. { apply no_live_nil. intros p pn. rewrite Hp. apply Hnl. }
  split; [done|]. split.
  { intros p Hcur. destruct (dispose_current s p Hpo Hcur) as (pn & Hl & Hlive & Hd).
    exists pn. split; [done|]. split; [done|].
    rewrite Hp. unfold close_existing. rewrite Hcur, Hd.
    apply list_lookup_insert_eq. by apply lookup_lt_Some in Hl. }
  split; [done|]. split.
  { unfold pending at 1. rewrite Ht. unfold pending. by rewrite list_filter_filter_l by auto. }
  intros n. destruct (advance_nothing n (deactivate s) Hc Hps) as (? & ? & _).
  split; [done|]. split; [done|]. intros T HT.
  assert (Hwf' : wf (advance n (deactivate s)))
    by (by apply advance_wf, deactivate_wf).
  destruct Hwf' as [Hto' _]. pose proof (due_future _ Hto' T HT) as Hdue.
  rewrite advance_now in Hdue.
  assert (Hnow : now (deactivate s) = now s); [|by rewrite <- Hnow].
  unfold deactivate. fold (close_existing s).
  pose proof (close_existing_clock s) as Hclk. clock_of Hclk.
  by destruct (debounceTimer (close_existing s)).
Qed.

Lemma shutdown_disposal_witness :
  live_panels (deactivate shown0) = []
  ∧ pending CbAutoClose (deactivate shown0) = pending CbAutoClose shown0.
Proof.
  assert (Hr : reachable shown0) by (by eexists env0, [_]).
  split.
  - exact (proj1 (shutdown_disposal shown0 Hr)).
  - exact (proj1 (proj2 (proj2 (proj2 (proj2 (shutdown_disposal shown0 Hr)))))).
Defined.

(** As the specification words it: after shutdown no auto-close
    timer is pending.  It fails right after the first show. *)
Lemma shutdown_disposal_counterexample :
  ¬ (∀ s, reachable s → pending CbAutoClose (deactivate s) = []).
Proof.
  intros H. assert (Hr : reachable shown0) by (by eexists env0, [_]).
  specialize (H shown0 Hr). vm_compute in H. discriminate.
Qed.

(** * The wrapped commands *)

Section Wrapper.

(** What the host answers when the wrapper runs the wrapped command. *)
Variable exec : string → list Value → Outcome Value.
Variables (commandId : string) (args : list Value) (s : State).

(** C6. A wrapper command, whatever the command and its arguments: when the
    wrapped command resolves, the wrapper calls the trigger exactly once,
    after it, and does nothing else; when it rejects, the wrapper calls
    nothing, only logs, and rejects with the very same error. *)
Theorem wrapper_outcome :
  match exec commandId args with
  | Resolved _ =>
      run_handler exec (HWrap commandId) args s = (triggerYouPushed s, Resolved undefined)
      ∧ detections (fst (run_handler exec (HWrap commandId) args s)) = S (detections s)
  | Rejected e =>
      snd (run_handler exec (HWrap commandId) args s) = Rejected e
      ∧ detections (fst (run_handler exec (HWrap commandId) args s)) = detections s
      ∧ core (fst (run_handler exec (HWrap commandId) args s)) = core s
      ∧ registry (fst (run_handler exec (HWrap commandId) args s)) = registry s
  end.
Proof.
  simpl. destruct (exec commandId args) as [v|e]; simpl.
  - split; [done | apply triggerYouPushed_detections].
  - done.
Qed.

End Wrapper.

(** * What activation registers *)

Lemma foldl_frame {A B : Type} (proj : State → B) (f : State → A → State)
    (l : list A) (s : State) :
  (∀ s a, proj (f s a) = proj s) → proj (foldl f s l) = proj s.
Proof.
  intros Hf. revert s. induction l as [|a l IH]; intros s; simpl; [done|].
  by rewrite IH, Hf.
Qed.

Lemma watchRepository_commands (repo : Repo) (s : State) :
  commands (watchRepository repo s) = commands s
  ∧ watchers (watchRepository repo s) = watchers s.
Proof.
  unfold watchRepository.
  by destruct (hasOnDidRunOperation repo), (hasOnDidRunGitCommand repo).
Qed.

Section Activation.

Variable env : Env.

Lemma setupGitPushWatcher_commands (s : State) :
  commands (setupGitPushWatcher env s) = commands s.
Proof.
  unfold setupGitPushWatcher. destruct (workspaceFolders env); [|done].
  apply (foldl_frame commands). intros s' folder. by destruct (existsSync env _).
Qed.

Lemma setupGitExtensionListener_commands (s : State) :
  commands (fst (setupGitExtensionListener env s)) = commands s
  ∧ watchers (fst (setupGitExtensionListener env s)) = watchers s.
Proof.
  unfold setupGitExtensionListener.
  destruct (getExtension env "vscode.git") as [ext|]; [|done].
  destruct (if isActive ext then _ else _) as [git|]; [|done].
  destruct (getAPI git 1) as [[api|]|e]; [|done|done].
  simpl. split.
  - change (commands (addOpenRepositoryListener ?x)) with (commands x).
    apply (foldl_frame commands). intros. apply watchRepository_commands.
  - change (watchers (addOpenRepositoryListener ?x)) with (watchers x).
    apply (foldl_frame watchers). intros. apply watchRepository_commands.
Qed.

Lemma setupGitCommandHooks_commands (s : State) :
  commands (setupGitCommandHooks env s) =
  commands s ++ ((λ c, (wrapper_id c, HWrap c)) <$> pushCommands)
  ∧ watchers (setupGitCommandHooks env s) = watchers s.
Proof.
  unfold setupGitCommandHooks.
  destruct (setupGitExtensionListener_commands
    (foldl (λ acc commandId, registerCommand (wrapper_id commandId) (HWrap commandId) acc)
       s pushCommands)) as [Hc Hw].
  destruct (setupGitExtensionListener env _) as [s2 [u|e]]; simpl in Hc, Hw.
  - rewrite Hc, Hw. simpl. by rewrite <- !app_assoc.
  - change (commands (unhandledRejection e s2)) with (commands s2).
    change (watchers (unhandledRejection e s2)) with (watchers s2).
    rewrite Hc, Hw. simpl. by rewrite <- !app_assoc.
Qed.

Lemma activate_commands :
  commands (activate env init) =
  ("you-pushed.test", HTest) :: ((λ c, (wrapper_id c, HWrap c)) <$> pushCommands).
Proof.
  unfold activate.
  by rewrite (proj1 (setupGitCommandHooks_commands _)), setupGitPushWatcher_commands.
Qed.

(** C7, as the code has it.  Activation registers the test command and one
    wrapper for each of seven commands, plain push included, and nothing
    else; the wrapper of a command runs that command on the arguments it
    was given. *)
Theorem registered_wrappers :
  commands (activate env init) =
    ("you-pushed.test", HTest) ::
    ((λ c, (wrapper_id c, HWrap c)) <$>
       [ "git.push"; "git.pushForce"; "git.pushTo"; "git.pushWithTags";
         "git.sync"; "git.syncRebase"; "git.publish" ])
  ∧ wrappers (activate env init) =
    [ "you-pushed.wrap.git.push"; "you-pushed.wrap.git.pushForce";
      "you-pushed.wrap.git.pushTo"; "you-pushed.wrap.git.pushWithTags";
      "you-pushed.wrap.git.sync"; "you-pushed.wrap.git.syncRebase";
      "you-pushed.wrap.git.publish" ]
  ∧ ∀ exec c args s,
      run_handler exec (HWrap c) args s =
      match exec c args with
      | Resolved _ => (triggerYouPushed s, Resolved undefined)
      | Rejected e => (log ("Git command " +:+ c +:+ " failed: " +:+ e) s, Rejected e)
      end.
Proof.
  split; [apply activate_commands|]. split; [|done].
  unfold wrappers. by rewrite activate_commands.
Qed.

End Activation.

(** As the specification words it: the wrappers are those of the six
    listed commands and no others.  The wrapper of plain [git.push] is
    registered too. *)
Lemma registered_wrappers_counterexample :
  ¬ (∀ env id, id ∈ wrappers (activate env init)
               ↔ id ∈ wrapper_id <$> listed_push_commands).
Proof.
  intros H. specialize (H env0 "you-pushed.wrap.git.push").
  destruct H as [H _].
  assert (Hin : "you-pushed.wrap.git.push" ∈ wrappers (activate env0 init)).
  { unfold wrappers. rewrite activate_commands. by left. }
  specialize (H Hin). clear Hin. vm_compute in H.
  repeat (apply elem_of_cons in H as [H|H]; [discriminate H|]).
  by apply not_elem_of_nil in H.
Qed.

(** * The two detection paths *)

Lemma bridge_log (msg : string) (s : State) : bridge (log msg s) = bridge s.
Proof. done. Qed.

Lemma setupGitPushWatcher_bridge (env : Env) (s : State) :
  bridge (setupGitPushWatcher env s) = bridge s.
Proof.
  unfold setupGitPushWatcher. destruct (workspaceFolders env); [|done].
  apply (foldl_frame bridge). intros s' folder. by destruct (existsSync env _).
Qed.

Lemma setupGitPushWatcher_watchers (env : Env) (folders : list string) (s : State) :
  workspaceFolders env = Some folders →
  watchers (setupGitPushWatcher env s) =
  watchers s ++ filter (λ folder, existsSync env (gitRemotesPath env folder)) folders.
Proof.
  intros Hf. unfold setupGitPushWatcher. rewrite Hf. clear Hf. revert s.
  induction folders as [|folder folders IH]; intros s; simpl.
  { by rewrite app_nil_r. }
  rewrite IH, filter_cons. destruct (existsSync env (gitRemotesPath env folder)); simpl.
  - by rewrite <- app_assoc.
  - done.
Qed.


Lemma activate_watchers (env : Env) :
  watchers (activate env init) =
  match workspaceFolders env with
  | Some folders => filter (λ folder, existsSync env (gitRemotesPath env folder)) folders
  | None => []
  end.
Proof.
  unfold activate. rewrite (proj2 (setupGitCommandHooks_commands _ _)).
  destruct (workspaceFolders env) as [folders|] eqn:Hf.
  - by rewrite (setupGitPushWatcher_watchers env folders).
  - unfold setupGitPushWatcher. by rewrite Hf.
Qed.

(** Several detection events at the same instant are one burst. *)
Lemma simultaneous_triggers {A : Type} (l : list A) (s : State) :
  foldl (λ acc _, triggerYouPushed acc) (triggerYouPushed s) l =
  burst (replicate (length l) 0) s.
Proof.
  unfold burst. generalize (triggerYouPushed s) as acc.
  induction l as [|a l IH]; intros acc; simpl; [done|]. apply IH.
Qed.

Lemma triggers_then_show {A : Type} (l : list A) (s : State) (d : nat) :
  timers_ok s → l ≠ [] → debounceDelay ≤ d →
  shows (advance d (foldl (λ acc _, triggerYouPushed acc) s l)) =
  shows s ++ [now s + debounceDelay].
Proof.
  intros Hok Hl Hd. destruct l as [|a l]; [done|]. simpl foldl.
  rewrite simultaneous_triggers.
  destruct (burst_armed (replicate (length l) 0) s Hok)
    as (_ & Hnow & Hshows & t & Hp & Hdue).
  { apply Forall_replicate. dlia. }
  unfold last_event in *. rewrite sum_list_replicate, Nat.mul_0_r, Nat.add_0_r in *.
  destruct (advance_fire d _ t Hp) as [_ ->]; [dlia | dlia |].
  by rewrite Hshows, Hdue.
Qed.

Lemma activate_fresh (env : Env) :
  wf (activate env init) ∧ now (activate env init) = 0 ∧ shows (activate env init) = [].
Proof.
  pose proof (activate_core env init) as Hcore.
  split; [by apply (wf_core init), wf_init|].
  apply core_inv in Hcore as (Hclk & _ & Hp). clock_of Hclk.
  split; [done|]. unfold shows. by rewrite Hp.
Qed.

Lemma bridge_inv (s : State) (a : list (nat * RepoListener)) (b : nat) (c : list Error) :
  bridge s = (a, b, c) →
  repoListeners s = a ∧ openRepositoryListeners s = b ∧ rejections s = c.
Proof. unfold bridge. by intros [= -> -> ->]. Qed.

Lemma watchRepository_bridge (repo : Repo) (s : State) :
  bridge (watchRepository repo s) =
  (repoListeners s ++ attached repo, openRepositoryListeners s, rejections s).
Proof.
  unfold watchRepository, attached, bridge.
  destruct (hasOnDidRunOperation repo), (hasOnDidRunGitCommand repo); simpl;
    by rewrite <- ?app_assoc.
Qed.

Lemma watch_all_bridge (repos : list Repo) (s : State) :
  bridge (foldl (λ acc repo, watchRepository repo acc) s repos) =
  (repoListeners s ++ (repos ≫= attached), openRepositoryListeners s, rejections s).
Proof.
  revert s. induction repos as [|repo repos IH]; intros s; simpl.
  - by rewrite app_nil_r.
  - rewrite IH. destruct (bridge_inv _ _ _ _ (watchRepository_bridge repo s))
      as (-> & -> & ->).
    by rewrite <- app_assoc.
Qed.

Lemma activate_bridge (env : Env) : bridge (activate env init) = bridge_of env.
Proof.
  unfold activate, setupGitCommandHooks, setupGitExtensionListener, bridge_of.
  cbv zeta.
  set (s1 := foldl _ _ pushCommands).
  assert (Hb : bridge s1 = ([], 0, [])).
  { unfold s1. rewrite (foldl_frame bridge) by done.
    by rewrite setupGitPushWatcher_bridge. }
  clearbody s1. apply bridge_inv in Hb as (Hl & Ho & Hrej).
  destruct (getExtension env "vscode.git") as [ext|].
  - destruct (if isActive ext then Resolved (exports ext) else ext_activate ext)
      as [git|e].
    + destruct (getAPI git 1) as [[api|]|e].
      * destruct (bridge_inv _ _ _ _ (watch_all_bridge (repositories api) s1))
          as (Hl' & Ho' & Hrej').
        unfold bridge. cbn [addOpenRepositoryListener repoListeners
                            openRepositoryListeners rejections].
        by rewrite Hl', Ho', Hrej', Hl, Ho, Hrej.
      * rewrite bridge_log. unfold bridge. by rewrite Hl, Ho, Hrej.
      * unfold bridge. cbn [unhandledRejection repoListeners openRepositoryListeners
                            rejections]. by rewrite Hl, Ho, Hrej.
    + unfold bridge. cbn [unhandledRejection repoListeners openRepositoryListeners
                          rejections]. by rewrite Hl, Ho, Hrej.
  - rewrite bridge_log. unfold bridge. by rewrite Hl, Ho, Hrej.
Qed.







(** C10. With no workspace folder open the watcher setup hands the state
    back as it got it: no watcher, no log line.  Activation goes on: the
    test command and the seven wrappers are registered, under the
    identifiers spelled out below, and nothing is scheduled or shown. *)
Theorem no_workspace_folder (env : Env) :
  workspaceFolders env = None →
  (∀ s, setupGitPushWatcher env s = s)
  ∧ watchers (activate env init) = []
  ∧ commands (activate env init) =
    [ ("you-pushed.test", HTest);
      ("you-pushed.wrap.git.push", HWrap "git.push");
      ("you-pushed.wrap.git.pushForce", HWrap "git.pushForce");
      ("you-pushed.wrap.git.pushTo", HWrap "git.pushTo");
      ("you-pushed.wrap.git.pushWithTags", HWrap "git.pushWithTags");
      ("you-pushed.wrap.git.sync", HWrap "git.sync");
      ("you-pushed.wrap.git.syncRebase", HWrap "git.syncRebase");
      ("you-pushed.wrap.git.publish", HWrap "git.publish") ]
  ∧ core (activate env init) = core init
  ∧ ∀ folder, step (FileChanged folder) (activate env init) = activate env init.
Proof.
  intros Hf.
  assert (Hw : watchers (activate env init) = []) by (by rewrite activate_watchers, Hf).
  split. { intros s. unfold setupGitPushWatcher. by rewrite Hf. }
  split; [done|]. split; [by rewrite activate_commands|]. split; [apply activate_core|].
  intros folder. unfold step. by rewrite Hw.
Qed.

Lemma no_workspace_folder_witness :
  watchers (activate env_no_folder init) = []
  ∧ commands (activate env_no_folder init) =
    [ ("you-pushed.test", HTest);
      ("you-pushed.wrap.git.push", HWrap "git.push");
      ("you-pushed.wrap.git.pushForce", HWrap "git.pushForce");
      ("you-pushed.wrap.git.pushTo", HWrap "git.pushTo");
      ("you-pushed.wrap.git.pushWithTags", HWrap "git.pushWithTags");
      ("you-pushed.wrap.git.sync", HWrap "git.sync");
      ("you-pushed.wrap.git.syncRebase", HWrap "git.syncRebase");
      ("you-pushed.wrap.git.publish", HWrap "git.publish") ].
Proof.
  split.
  - exact (proj1 (proj2 (no_workspace_folder env_no_folder eq_refl))).
  - exact (proj1 (proj2 (proj2 (no_workspace_folder env_no_folder eq_refl)))).
Defined.

(** * The registered commands stay registered *)

Lemma dispose_commands (p : nat) (s : State) : commands (dispose p s) = commands s.
Proof.
  destruct (dispose_registry p s) as [H _]. unfold registry in H. by injection H.
Qed.

Lemma close_existing_commands (s : State) : commands (close_existing s) = commands s.
Proof. unfold close_existing. destruct (currentPanel s); [apply dispose_commands | done]. Qed.

Lemma showYouPushedMessage_commands (s : State) :
  commands (showYouPushedMessage s) = commands s.
Proof. rewrite showYouPushedMessage_eq. apply close_existing_commands. Qed.

Lemma run_callback_commands (cb : Callback) (s : State) :
  commands (run_callback cb s) = commands s.
Proof.
  destruct cb; simpl.
  - apply showYouPushedMessage_commands.
  - unfold autoClose. destruct (currentPanel s); [apply dispose_commands | done].
Qed.

Lemma advance_commands (n : nat) (s : State) : commands (advance n s) = commands s.
Proof.
  induction n as [|n IH]; [done|]. rewrite advance_S, tick_eq. unfold fire_all.
  rewrite (foldl_frame commands); [done|]. intros. apply run_callback_commands.
Qed.

Lemma lookup_test_command (env : Env) (s : State) :
  commands s = commands (activate env init) →
  step test_command s = showYouPushedMessage s.
Proof.
  intros Hc. unfold step, test_command, lookup_command. by rewrite Hc, activate_commands.
Qed.

Lemma run_single (e : Event) (s : State) : run [e] s = step e s.
Proof. done. Qed.


(** * Reading a field after a write *)

Lemma now_set_now (n : nat) (s : State) : now (set_now n s) = n.
Proof. done. Qed.
Lemma timers_set_now (n : nat) (s : State) : timers (set_now n s) = timers s.
Proof. done. Qed.
Lemma panels_set_now (n : nat) (s : State) : panels (set_now n s) = panels s.
Proof. done. Qed.
Lemma currentPanel_set_now (n : nat) (s : State) :
  currentPanel (set_now n s) = currentPanel s.
Proof. done. Qed.
Lemma nextTimer_set_now (n : nat) (s : State) : nextTimer (set_now n s) = nextTimer s.
Proof. done. Qed.
Lemma set_now_set_now (n m : nat) (s : State) : set_now n (set_now m s) = set_now n s.
Proof. done. Qed.
Lemma now_set_timers (ts : list Timer) (s : State) : now (set_timers ts s) = now s.
Proof. done. Qed.
Lemma timers_set_timers (ts : list Timer) (s : State) : timers (set_timers ts s) = ts.
Proof. done. Qed.
Lemma panels_set_timers (ts : list Timer) (s : State) :
  panels (set_timers ts s) = panels s.
Proof. done. Qed.
Lemma currentPanel_set_timers (ts : list Timer) (s : State) :
  currentPanel (set_timers ts s) = currentPanel s.
Proof. done. Qed.
Lemma now_set_panels (ps : list Panel) (s : State) : now (set_panels ps s) = now s.
Proof. done. Qed.
Lemma panels_set_panels (ps : list Panel) (s : State) : panels (set_panels ps s) = ps.
Proof. done. Qed.
Lemma now_set_currentPanel (c : option nat) (s : State) :
  now (set_currentPanel c s) = now s.
Proof. done. Qed.
Lemma panels_set_currentPanel (c : option nat) (s : State) :
  panels (set_currentPanel c s) = panels s.
Proof. done. Qed.

Create Rewrite HintDb state.
#[global] Hint Rewrite now_set_now timers_set_now panels_set_now currentPanel_set_now
  nextTimer_set_now now_set_timers timers_set_timers panels_set_timers
  currentPanel_set_timers now_set_panels panels_set_panels now_set_currentPanel
  panels_set_currentPanel : state.

(** * A second show within the 5000ms of the first *)

(** The tick in which the older of two timers is due and the other is not. *)
Lemma tick_first_of_two (s : State) (T0 T1 : Timer) :
  timers s = [T0; T1] → due T0 = S (now s) → S (now s) < due T1 →
  tick s = run_callback (callback T0) (set_timers [T1] (set_now (S (now s)) s)).
Proof.
  intros Ht H0 H1. rewrite tick_eq, Ht, !filter_cons, !filter_nil.
  repeat case_decide; rewrite ?leb_le_true, ?ltb_lt_true in *; try lia. done.
Qed.

Lemma advance_first_of_two (s : State) (T0 T1 : Timer) (k m : nat) :
  timers s = [T0; T1] → callback T0 = CbAutoClose →
  due T0 = now s + S k → now s + S k + m < due T1 →
  advance (m + S k) s =
  set_now (now s + S k + m) (autoClose (set_timers [T1] (set_now (now s + S k) s))).
Proof.
  intros Ht Hcb H0 H1. rewrite advance_add, advance_S.
  rewrite (advance_idle k s).
  2: { intros T. rewrite Ht.
       intros [-> | ->%list_elem_of_singleton]%elem_of_cons; lia. }
  rewrite (tick_first_of_two _ T0 T1); autorewrite with state; [|done|lia|lia].
  rewrite Hcb, set_now_set_now. cbn [run_callback].
  replace (S (now s + k)) with (now s + S k) by lia.
  pose proof (autoClose_clock (set_timers [T1] (set_now (now s + S k) s))) as Hclk.
  clock_of Hclk. autorewrite with state in Hnow, Htimers.
  rewrite advance_idle; [by rewrite Hnow|].
  intros T. rewrite Htimers, Hnow. intros ->%list_elem_of_singleton. lia.
Qed.

Lemma showYouPushedMessage_facts (s : State) :
  now (showYouPushedMessage s) = now s
  ∧ nextTimer (showYouPushedMessage s) = S (nextTimer s)
  ∧ timers (showYouPushedMessage s) =
    timers s ++ [mkTimer (nextTimer s) (now s + autoCloseDelay) CbAutoClose]
  ∧ panels (showYouPushedMessage s) = panels (close_existing s) ++ [fresh_panel (now s)]
  ∧ currentPanel (showYouPushedMessage s) = Some (length (panels (close_existing s))).
Proof.
  pose proof (showYouPushedMessage_clock s) as Hclk. clock_of Hclk.
  destruct (showYouPushedMessage_panels s) as [Hp Hc].
  by rewrite close_existing_length.
Qed.

(** Disposing the current panel when it is the last one created. *)
Lemma dispose_last (s : State) (P : list Panel) (f : Panel) :
  panels_ok s → panels s = P ++ [f] → currentPanel s = Some (length P) →
  panels (dispose (length P) s) = P ++ [closed_at (now s) (called f)].
Proof.
  intros Hok Hp Hc. destruct (dispose_current s (length P) Hok Hc) as (pn & Hpn & _ & ->).
  rewrite Hp in Hpn. rewrite list_lookup_middle in Hpn by done. injection Hpn as <-.
  autorewrite with state. rewrite Hp, insert_app_r_alt by done. by rewrite Nat.sub_diag.
Qed.

Lemma close_existing_last (s : State) (P : list Panel) (f : Panel) :
  panels_ok s → panels s = P ++ [f] → currentPanel s = Some (length P) →
  panels (close_existing s) = P ++ [closed_at (now s) (called f)].
Proof. intros Hok Hp Hc. unfold close_existing. rewrite Hc. by apply dispose_last. Qed.

Lemma autoClose_last (s : State) (P : list Panel) (f : Panel) :
  panels_ok s → panels s = P ++ [f] → currentPanel s = Some (length P) →
  panels (autoClose s) = P ++ [closed_at (now s) (called f)].
Proof.
  intros Hok Hp Hc. unfold autoClose. rewrite Hc. autorewrite with state.
  by apply dispose_last.
Qed.

(** Two shows, [a] milliseconds apart with [0 < a < 5000], from an empty
    queue, and nothing else.  The first panel is disposed by the second
    show.  The timer of the first show then fires 5000ms after the first
    show and disposes whatever is current at that time: the second panel,
    [5000 - a] milliseconds after it was created. *)
Lemma second_show_within_delay (s : State) (a b : nat) :
  wf s → timers s = [] →
  a < autoCloseDelay → autoCloseDelay ≤ a + b → b < autoCloseDelay →
  let s3 := advance b (showYouPushedMessage (advance a (showYouPushedMessage s))) in
  now s3 = now s + a + b
  ∧ panels s3 =
    panels (close_existing s) ++
    [ closed_at (now s + a) (called (fresh_panel (now s)));
      closed_at (now s + autoCloseDelay) (called (fresh_panel (now s + a))) ]
  ∧ timers s3 = [mkTimer (S (nextTimer s)) (now s + a + autoCloseDelay) CbAutoClose].
Proof.
  intros Hwf Ht Ha Hab Hb. cbv zeta.
  destruct (showYouPushedMessage_facts s) as (Hn0 & Hnt0 & Ht0 & Hp0 & Hc0).
  pose proof (showYouPushedMessage_wf s Hwf) as Hwf0.
  rewrite Ht in Ht0. cbn [app] in Ht0.
  remember (showYouPushedMessage s) as s0 eqn:Es0. clear Es0.
  remember (panels (close_existing s)) as P eqn:EP. clear EP.
  assert (Hadv : advance a s0 = set_now (now s + a) s0).
  { rewrite advance_idle, Hn0; [done|].
    intros T. rewrite Ht0. intros ->%list_elem_of_singleton. cbn [due]. lia. }
  pose proof (advance_wf a s0 Hwf0) as Hwf1. rewrite Hadv in *. clear Hadv.
  destruct (showYouPushedMessage_facts (set_now (now s + a) s0))
    as (Hn2 & Hnt2 & Ht2 & Hp2 & Hc2).
  pose proof (showYouPushedMessage_wf _ Hwf1) as Hwf2.
  assert (Hce : panels (close_existing (set_now (now s + a) s0)) =
                P ++ [closed_at (now s + a) (called (fresh_panel (now s)))]).
  { rewrite (close_existing_last _ P (fresh_panel (now s)));
      autorewrite with state; [done | apply Hwf1 | done | done]. }
  rewrite Hce in Hp2, Hc2. clear Hce.
  autorewrite with state in Hn2, Hnt2, Ht2, Hp2.
  rewrite Ht0 in Ht2. rewrite Hnt0 in Ht2. cbn [app] in Ht2.
  remember (showYouPushedMessage (set_now (now s + a) s0)) as s2 eqn:Es2. clear Es2.
  assert (Hadv : advance b s2 =
    set_now (now s + a + b)
      (autoClose
         (set_timers [mkTimer (S (nextTimer s)) (now s + a + autoCloseDelay) CbAutoClose]
            (set_now (now s + autoCloseDelay) s2)))).
  { replace b with ((a + b - autoCloseDelay) + S (autoCloseDelay - a - 1)) at 1 by lia.
    rewrite (advance_first_of_two s2 _ _ (autoCloseDelay - a - 1) (a + b - autoCloseDelay)
               Ht2); [|done|cbn [due]; lia|cbn [due]; lia].
    rewrite Hn2. f_equal; [lia|]. do 3 f_equal. lia. }
  rewrite Hadv. clear Hadv. autorewrite with state. split; [done|].
  pose proof (autoClose_clock
    (set_timers [mkTimer (S (nextTimer s)) (now s + a + autoCloseDelay) CbAutoClose]
       (set_now (now s + autoCloseDelay) s2))) as Hclk.
  clock_of Hclk. autorewrite with state in Htimers. split; [|done].
  rewrite (autoClose_last _
             (P ++ [closed_at (now s + a) (called (fresh_panel (now s)))])
             (fresh_panel (now s + a)));
    autorewrite with state; [|by apply (panels_ok_ext s2), Hwf2|done|done].
  by rewrite <- app_assoc.
Qed.

Lemma activate_quiet (env : Env) :
  now (activate env init) = 0 ∧ timers (activate env init) = []
  ∧ panels (close_existing (activate env init)) = [].
Proof.
  destruct (core_inv _ _ (activate_core env init)) as (Hclk & Hc & Hp).
  clock_of Hclk. split; [done|]. split; [done|].
  unfold close_existing. rewrite Hc. cbn [init currentPanel]. by rewrite Hp.
Qed.



(** After a show and a shutdown the timer of the show is still in the queue,
    until it is due. *)
Example shutdown_timer_left :
  timers (deactivate shown0) = [mkTimer 0 5000 CbAutoClose]
  ∧ timers (advance 4999 (deactivate shown0)) = [mkTimer 0 5000 CbAutoClose]
  ∧ timers (advance 5000 (deactivate shown0)) = [].
Proof.
  assert (Ht : timers (deactivate shown0) = [mkTimer 0 5000 CbAutoClose])
    by (vm_compute; reflexivity).
  assert (Hn : now (deactivate shown0) = 0) by (vm_compute; reflexivity).
  assert (Hc : currentPanel (deactivate shown0) = None) by (vm_compute; reflexivity).
  split; [exact Ht|]. split.
  - rewrite advance_idle; [by rewrite timers_set_now|].
    intros T. rewrite Ht, Hn. intros ->%list_elem_of_singleton. cbn [due]. lia.
  - assert (Hdue : due (mkTimer 0 5000 CbAutoClose) = now (deactivate shown0) + S 4999)
      by (by rewrite Hn).
    pose proof (advance_autoClose_none (deactivate shown0) _ 4999 0 Ht eq_refl Hdue Hc)
      as Hadv.
    change (0 + S 4999) with 5000 in Hadv. rewrite Hadv. apply timers_set_timers.
Qed.

(** * The registrations are made once *)

Lemma registry_registered (s s' : State) :
  registry s' = registry s → registered s' = registered s.
Proof. unfold registry, registered. by intros [= -> -> _ -> _]. Qed.

Lemma close_existing_registry (s : State) : registry (close_existing s) = registry s.
Proof. unfold close_existing. destruct (currentPanel s); [apply dispose_registry | done]. Qed.

Lemma showYouPushedMessage_registry (s : State) :
  registry (showYouPushedMessage s) = registry s.
Proof. rewrite showYouPushedMessage_eq. apply close_existing_registry. Qed.

Lemma autoClose_registry (s : State) : registry (autoClose s) = registry s.
Proof. unfold autoClose. destruct (currentPanel s); [apply dispose_registry | done]. Qed.

Lemma triggerYouPushed_registry (s : State) : registry (triggerYouPushed s) = registry s.
Proof. unfold triggerYouPushed. simpl. by destruct (debounceTimer s). Qed.

Lemma run_callback_registry (cb : Callback) (s : State) :
  registry (run_callback cb s) = registry s.
Proof. destruct cb; [apply showYouPushedMessage_registry | apply autoClose_registry]. Qed.

Lemma tick_registry (s : State) : registry (tick s) = registry s.
Proof.
  rewrite tick_eq. unfold fire_all.
  rewrite (foldl_frame registry); [done|]. intros. apply run_callback_registry.
Qed.

Lemma advance_registry (n : nat) (s : State) : registry (advance n s) = registry s.
Proof. induction n as [|n IH]; [done|]. by rewrite advance_S, tick_registry. Qed.

Lemma userClose_registry (p : nat) (s : State) : registry (userClose p s) = registry s.
Proof.
  unfold userClose. destruct (panels s !! p) as [pn|]; [|done].
  destruct (decide (live pn)); [apply dispose_registry | done].
Qed.

Lemma deactivate_registry (s : State) : registry (deactivate s) = registry s.
Proof.
  unfold deactivate. fold (close_existing s).
  destruct (debounceTimer (close_existing s)); apply close_existing_registry.
Qed.

Lemma on_operation_registry (op : string) (s : State) :
  registry (on_operation op s) = registry s.
Proof.
  unfold on_operation. case_decide; [|done]. by rewrite triggerYouPushed_registry.
Qed.

Lemma on_git_command_registry (command : option (list string)) (s : State) :
  registry (on_git_command command s) = registry s.
Proof.
  unfold on_git_command. case_decide; [|done]. by rewrite triggerYouPushed_registry.
Qed.

Lemma run_handler_registry exec (h : Handler) (args : list Value) (s : State) :
  registry (fst (run_handler exec h args s)) = registry s.
Proof.
  destruct h as [|c]; simpl; [apply showYouPushedMessage_registry|].
  destruct (exec c args); simpl; [apply triggerYouPushed_registry | done].
Qed.

Lemma watchRepository_registered (repo : Repo) (s : State) :
  registered (watchRepository repo s) = registered s.
Proof.
  unfold watchRepository.
  by destruct (hasOnDidRunOperation repo), (hasOnDidRunGitCommand repo).
Qed.

Lemma step_registered (e : Event) (s : State) : registered (step e s) = registered s.
Proof.
  destruct e; simpl; try done.
  - apply registry_registered, tick_registry.
  - destruct (lookup_command id s); [|done].
    apply registry_registered, run_handler_registry.
  - apply (foldl_frame registered). intros. apply registry_registered, triggerYouPushed_registry.
  - apply (foldl_frame registered). intros. apply registry_registered, triggerYouPushed_registry.
  - apply (foldl_frame registered). intros. apply registry_registered, on_operation_registry.
  - apply (foldl_frame registered). intros. apply registry_registered, on_git_command_registry.
  - induction (openRepositoryListeners s) as [|k IH]; [done|].
    simpl. by rewrite watchRepository_registered.
  - apply registry_registered, userClose_registry.
  - apply registry_registered, deactivate_registry.
Qed.

Lemma run_registered (evs : list Event) (s : State) : registered (run evs s) = registered s.
Proof. apply (foldl_frame registered). intros. apply step_registered. Qed.

Lemma registered_inv (s s' : State) :
  registered s' = registered s →
  commands s' = commands s ∧ watchers s' = watchers s
  ∧ openRepositoryListeners s' = openRepositoryListeners s.
Proof. unfold registered. by intros [= -> -> ->]. Qed.

Lemma wrapper_id_inj (a c : string) : wrapper_id a = wrapper_id c → a = c.
Proof. unfold wrapper_id. apply (inj _). Qed.

Lemma lookup_wrapper (c : string) (l : list string) (cs : list (string * Handler)) :
  c ∈ l →
  (∀ x, x ∈ cs → fst x ≠ wrapper_id c) →
  snd <$> head (filter (λ x, fst x = wrapper_id c)
                  (cs ++ ((λ c, (wrapper_id c, HWrap c)) <$> l))) = Some (HWrap c).
Proof.
  intros Hc Hcs. rewrite filter_app, (filter_none _ cs); [|done].
  rewrite app_nil_l.
  induction l as [|a l IH]; [by apply not_elem_of_nil in Hc|].
  rewrite fmap_cons, filter_cons. cbn [fst].
  destruct (decide (wrapper_id a = wrapper_id c)) as [Ha|Ha].
  - apply wrapper_id_inj in Ha. by rewrite Ha.
  - apply IH. apply elem_of_cons in Hc as [->|Hc]; [done|done].
Qed.

Lemma reachable_commands (s : State) :
  reachable s →
  commands s =
  ("you-pushed.test", HTest) :: ((λ c, (wrapper_id c, HWrap c)) <$> pushCommands).
Proof.
  intros (env & evs & ->).
  destruct (registered_inv _ _ (run_registered evs (activate env init))) as (-> & _).
  apply activate_commands.
Qed.

(** X1. From activation until the extension is shut down, whatever
    happens, nothing is registered or unregistered: the command table is
    the test command and the seven wrappers under the identifiers spelled
    out below, each of them finds its own handler, and the watchers and the
    open-repository listener are those of activation.  (At shutdown the
    host disposes [context.subscriptions]; the statement stops there.) *)
Theorem registrations_fixed (env : Env) (evs : list Event) :
  Deactivate ∉ evs →
  let s := run evs (activate env init) in
  commands s =
    [ ("you-pushed.test", HTest);
      ("you-pushed.wrap.git.push", HWrap "git.push");
      ("you-pushed.wrap.git.pushForce", HWrap "git.pushForce");
      ("you-pushed.wrap.git.pushTo", HWrap "git.pushTo");
      ("you-pushed.wrap.git.pushWithTags", HWrap "git.pushWithTags");
      ("you-pushed.wrap.git.sync", HWrap "git.sync");
      ("you-pushed.wrap.git.syncRebase", HWrap "git.syncRebase");
      ("you-pushed.wrap.git.publish", HWrap "git.publish") ]
  ∧ (∀ id h, (id, h) ∈ commands s → lookup_command id s = Some h)
  ∧ watchers s = watchers (activate env init)
  ∧ openRepositoryListeners s = openRepositoryListeners (activate env init).
Proof.
  intros _ s.
  destruct (registered_inv _ _ (run_registered evs (activate env init)))
    as (Hc & Hw & Ho).
  fold s in Hc, Hw, Ho. rewrite activate_commands in Hc.
  split; [by rewrite Hc|]. split; [|done].
  intros id h. unfold lookup_command. rewrite Hc. intros Hin.
  repeat (apply elem_of_cons in Hin as [[= -> ->]|Hin]; [by vm_compute|]).
  by apply not_elem_of_nil in Hin.
Qed.

Lemma registrations_fixed_witness :
  commands (run [test_command; Tick; UserClose 0; FileChanged "/repo"]
              (activate env0 init)) =
    [ ("you-pushed.test", HTest);
      ("you-pushed.wrap.git.push", HWrap "git.push");
      ("you-pushed.wrap.git.pushForce", HWrap "git.pushForce");
      ("you-pushed.wrap.git.pushTo", HWrap "git.pushTo");
      ("you-pushed.wrap.git.pushWithTags", HWrap "git.pushWithTags");
      ("you-pushed.wrap.git.sync", HWrap "git.sync");
      ("you-pushed.wrap.git.syncRebase", HWrap "git.syncRebase");
      ("you-pushed.wrap.git.publish", HWrap "git.publish") ]
  ∧ watchers (run [test_command; Tick; UserClose 0; FileChanged "/repo"]
                (activate env0 init)) = watchers (activate env0 init).
Proof.
  assert (Hno : Deactivate ∉ [test_command; Tick; UserClose 0; FileChanged "/repo"]).
  { unfold test_command. intros H.
    repeat (apply elem_of_cons in H as [H|H]; [discriminate H|]).
    by apply not_elem_of_nil in H. }
  split.
  - exact (proj1 (registrations_fixed env0 _ Hno)).
  - exact (proj1 (proj2 (proj2 (registrations_fixed env0 _ Hno)))).
Defined.

Lemma triggerYouPushed_commands (s : State) : commands (triggerYouPushed s) = commands s.
Proof. unfold triggerYouPushed. simpl. by destruct (debounceTimer s). Qed.

Lemma lookup_test (s : State) :
  commands s =
  ("you-pushed.test", HTest) :: ((λ c, (wrapper_id c, HWrap c)) <$> pushCommands) →
  lookup_command "you-pushed.test" s = Some HTest.
Proof. intros Hc. unfold lookup_command. by rewrite Hc. Qed.

(** X2. The test command, in any state the extension can be in: the
    notification is on screen at once (no debounce), alone, and no detection
    is counted.  It neither uses nor cancels the debounce timer: a
    notification that was scheduled just before is still shown 500ms
    later. *)
Theorem test_command_shows_at_once (s : State) (args : list Value)
    (exec : string → list Value → Outcome Value) :
  reachable s →
  let test := ExecuteCommand "you-pushed.test" args exec in
  step test s = showYouPushedMessage s
  ∧ shows (step test s) = shows s ++ [now s]
  ∧ live_panels (step test s) = [fresh_panel (now s)]
  ∧ detections (step test s) = detections s
  ∧ pending CbShow (step test s) = pending CbShow s
  ∧ ∀ d, debounceDelay ≤ d →
      shows (advance d (step test (triggerYouPushed s))) =
      shows s ++ [now s; now s + debounceDelay]
      ∧ live_panels (step test (triggerYouPushed s)) = [fresh_panel (now s)].
Proof.
  intros Hr test. pose proof (reachable_wf s Hr) as [Ht Hp].
  pose proof (reachable_commands s Hr) as Hc.
  assert (Hstep : ∀ s', commands s' = commands s →
                        step test s' = showYouPushedMessage s').
  { intros s' Hs'. unfold step, test. rewrite lookup_test; [done|]. by rewrite Hs'. }
  rewrite (Hstep s eq_refl).
  split; [done|]. split; [apply showYouPushedMessage_shows|].
  split; [by apply showYouPushedMessage_live|].
  split; [apply (run_callback_detections CbShow)|].
  split; [apply showYouPushedMessage_pending|].
  intros d Hd. rewrite (Hstep _ (triggerYouPushed_commands s)).
  destruct (triggerYouPushed_pending s Ht) as [Hpend _].
  destruct (triggerYouPushed_panels s) as [Hpanels Hcur].
  split.
  - pose proof (showYouPushedMessage_ok _ (triggerYouPushed_ok s Ht)) as Hok.
    destruct (showYouPushedMessage_pending (triggerYouPushed s)) as [Hp1 _].
    rewrite Hpend in Hp1.
    destruct (showYouPushedMessage_facts (triggerYouPushed s)) as (Hn1 & _).
    rewrite triggerYouPushed_now in Hn1.
    destruct (advance_fire d (showYouPushedMessage (triggerYouPushed s)) _ Hp1)
      as [_ ->]; [simpl; dlia | simpl; dlia |].
    rewrite showYouPushedMessage_shows, triggerYouPushed_shows, triggerYouPushed_now.
    by rewrite <- app_assoc.
  - rewrite showYouPushedMessage_live, triggerYouPushed_now; [done|].
    by apply (panels_ok_ext s).
Qed.

Lemma test_command_shows_at_once_witness :
  shows (step test_command (activate env0 init)) = [0]
  ∧ shows (advance 500 (step test_command (triggerYouPushed (activate env0 init))))
    = [0; 500].
Proof.
  assert (Hr : reachable (activate env0 init)) by (by exists env0, []).
  assert (Hd : debounceDelay ≤ 500) by (unfold debounceDelay; lia).
  split.
  - exact (proj1 (proj2
      (test_command_shows_at_once (activate env0 init) [] (λ _ _, Resolved undefined) Hr))).
  - exact (proj1 (proj2 (proj2 (proj2 (proj2 (proj2
      (test_command_shows_at_once (activate env0 init) [] (λ _ _, Resolved undefined) Hr)))))
      500 Hd)).
Defined.

(** X3. A wrapper command executed in any state the extension can be in.
    If the wrapped git command succeeds the whole effect is one call of the
    trigger: nothing is shown at once, one notification follows 500ms later.
    If it fails the state differs from the one before by one console line
    only: nothing is scheduled, shown, cancelled or counted. *)
Theorem wrapped_command_event (s : State) (c : string) (args : list Value)
    (exec : string → list Value → Outcome Value) :
  reachable s → c ∈ pushCommands →
  let s' := step (ExecuteCommand (wrapper_id c) args exec) s in
  match exec c args with
  | Resolved _ =>
      s' = triggerYouPushed s
      ∧ shows s' = shows s
      ∧ ∀ d, debounceDelay ≤ d → shows (advance d s') = shows s ++ [now s + debounceDelay]
  | Rejected e => s' = log ("Git command " +:+ c +:+ " failed: " +:+ e) s
  end.
Proof.
  intros Hr Hin s'. pose proof (reachable_wf s Hr) as [Ht Hp].
  pose proof (reachable_commands s Hr) as Hc.
  assert (Hl : lookup_command (wrapper_id c) s = Some (HWrap c)).
  { unfold lookup_command. rewrite Hc.
    apply (lookup_wrapper c pushCommands [("you-pushed.test", HTest)]); [done|].
    intros x Hx%list_elem_of_singleton Heq. subst x.
    unfold wrapper_id in Heq. vm_compute in Heq. discriminate Heq. }
  unfold s', step. rewrite Hl. unfold run_handler.
  destruct (exec c args) as [v|e]; [|done].
  cbn [fst]. split; [done|]. split; [apply triggerYouPushed_shows|].
  intros d Hd. by apply triggerYouPushed_fires.
Qed.

Lemma wrapped_command_event_witness :
  shows (advance 500
    (step (ExecuteCommand (wrapper_id "git.pushTo") ["origin"] (λ _ _, Resolved undefined))
       (activate env0 init))) = [500]
  ∧ step (ExecuteCommand (wrapper_id "git.pushTo") ["origin"] (λ _ _, Rejected "denied"))
      (activate env0 init)
    = log "Git command git.pushTo failed: denied" (activate env0 init).
Proof.
  assert (Hr : reachable (activate env0 init)) by (by exists env0, []).
  assert (Hin : "git.pushTo" ∈ pushCommands) by (by apply (bool_decide_unpack _)).
  assert (Hd : debounceDelay ≤ 500) by (unfold debounceDelay; lia).
  split.
  - exact (proj2 (proj2
      (wrapped_command_event (activate env0 init) "git.pushTo" ["origin"]
         (λ _ _, Resolved undefined) Hr Hin)) 500 Hd).
  - exact (wrapped_command_event (activate env0 init) "git.pushTo" ["origin"]
             (λ _ _, Rejected "denied") Hr Hin).
Defined.

(** * Detection events at one instant *)

Lemma detected_refl (s : State) : timers_ok s → detected_since s s.
Proof. intros Ht. split; try done. lia. Qed.

Lemma detected_trigger (s s' : State) :
  detected_since s s' → detected_since s (triggerYouPushed s').
Proof.
  intros [Hn Hp Hc Ha Hok Hcnt _ _].
  destruct (triggerYouPushed_pending s' Hok) as [Hshow Hauto].
  destruct (triggerYouPushed_panels s') as [Hp' Hc'].
  split.
  - by rewrite triggerYouPushed_now.
  - by rewrite Hp'.
  - by rewrite Hc'.
  - by rewrite Hauto.
  - by apply triggerYouPushed_ok.
  - rewrite triggerYouPushed_detections. lia.
  - rewrite triggerYouPushed_detections. lia.
  - intros _. eexists. split; [exact Hshow|]. simpl. by rewrite Hn.
Qed.

Lemma detected_same (s s' s'' : State) :
  detected_since s s' → core s'' = core s' → detections s'' = detections s' →
  detected_since s s''.
Proof.
  intros [Hn Hp Hc Ha Hok Hcnt Hnone Hsome] Hcore Hd.
  apply core_inv in Hcore as (Hclock & Hcur & Hpan).
  pose proof Hclock as Hclock'. clock_of Hclock'.
  split.
  - congruence.
  - congruence.
  - congruence.
  - unfold pending in *. congruence.
  - by apply (timers_ok_clock s').
  - lia.
  - rewrite Hd, Hclock. exact Hnone.
  - rewrite Hd. intros Hlt. destruct (Hsome Hlt) as (T & HT & Hdue).
    exists T. split; [|done]. unfold pending in *. congruence.
Qed.

Lemma detected_foldl {A : Type} (f : State → A → State) (l : list A) (s s' : State) :
  (∀ acc a, detected_since s acc → detected_since s (f acc a)) →
  detected_since s s' → detected_since s (foldl f s' l).
Proof. intros Hf. revert s'. induction l as [|a l IH]; intros s' Hs'; simpl; auto. Qed.

Lemma detected_on_operation (op : string) (s s' : State) :
  detected_since s s' → detected_since s (on_operation op s').
Proof.
  intros H. unfold on_operation. case_decide; [|done].
  apply detected_trigger. by apply (detected_same s s').
Qed.

Lemma detected_on_git_command (command : option (list string)) (s s' : State) :
  detected_since s s' → detected_since s (on_git_command command s').
Proof.
  intros H. unfold on_git_command. case_decide; [|done].
  apply detected_trigger. by apply (detected_same s s').
Qed.

Lemma watchRepository_detections (repo : Repo) (s : State) :
  detections (watchRepository repo s) = detections s.
Proof.
  unfold watchRepository.
  by destruct (hasOnDidRunOperation repo), (hasOnDidRunGitCommand repo).
Qed.

Lemma detected_step (e : Event) (s s' : State) :
  detection_source e → detected_since s s' → detected_since s (step e s').
Proof.
  intros He H. destruct e; try done; unfold step.
  - apply detected_foldl; [|done]. intros. by apply detected_trigger.
  - apply detected_foldl; [|done]. intros. by apply detected_trigger.
  - apply detected_foldl; [|done]. intros. by apply detected_on_operation.
  - apply detected_foldl; [|done]. intros. by apply detected_on_git_command.
  - induction (openRepositoryListeners s') as [|k IH]; [done|].
    simpl. apply (detected_same s _ _ IH).
    + apply watchRepository_core.
    + apply watchRepository_detections.
Qed.

Lemma detected_run (evs : list Event) (s s' : State) :
  Forall detection_source evs → detected_since s s' → detected_since s (run evs s').
Proof.
  intros Hevs. revert s'. induction Hevs as [|e evs He _ IH]; intros s' H; [done|].
  apply IH. by apply detected_step.
Qed.

Lemma detected_shows (s s' : State) (d : nat) :
  detected_since s s' → detections s < detections s' → debounceDelay ≤ d →
  shows (advance d s') = shows s ++ [now s + debounceDelay].
Proof.
  intros [Hn Hp Hc Ha Hok Hcnt Hnone Hsome] Hlt Hd.
  destruct (Hsome Hlt) as (T & HT & Hdue).
  destruct (advance_fire d s' T HT) as [_ ->]; [dlia | dlia |].
  unfold shows. by rewrite Hp, Hdue.
Qed.

(** X4. Detection events that arrive at the same instant, of any kind and in
    any number (a file event under several watched roots, both listeners of
    one repository firing for the same push, a repository opened in
    between): nothing is shown or closed at that instant and no auto-close
    timer is touched.  If none of them counted as a detection the timer
    queue is unchanged; if at least one did, exactly one notification
    follows, 500ms later. *)
Theorem detection_events_collapse (s : State) (evs : list Event) :
  reachable s → Forall detection_source evs →
  let s' := run evs s in
  now s' = now s ∧ panels s' = panels s ∧ currentPanel s' = currentPanel s
  ∧ pending CbAutoClose s' = pending CbAutoClose s
  ∧ detections s ≤ detections s'
  ∧ (detections s' = detections s → timers s' = timers s)
  ∧ (detections s < detections s' →
       ∀ d, debounceDelay ≤ d →
            shows (advance d s') = shows s ++ [now s + debounceDelay]).
Proof.
  intros Hr Hevs s'. pose proof (reachable_wf s Hr) as [Ht _].
  pose proof (detected_run evs s s Hevs (detected_refl s Ht)) as H.
  fold s' in H. pose proof H as [Hn Hp Hc Ha Hok Hcnt Hnone Hsome].
  repeat (split; [done|]). split.
  - intros Heq. specialize (Hnone Heq). by clock_of Hnone.
  - intros Hlt d Hd. by apply (detected_shows s s').
Qed.

Lemma detection_events_collapse_witness :
  shows (advance 500
    (run [FileChanged "/repo"; FileDeleted "/repo"; FileCreated "/repo";
          RepoOperation 0 "Push"] (activate env0 init))) = [500].
Proof.
  assert (Hr : reachable (activate env0 init)) by (by exists env0, []).
  assert (Hevs : Forall detection_source
            [FileChanged "/repo"; FileDeleted "/repo"; FileCreated "/repo";
             RepoOperation 0 "Push"]) by (by repeat constructor).
  assert (Hlt : detections (activate env0 init) <
                detections (run [FileChanged "/repo"; FileDeleted "/repo";
                                 FileCreated "/repo"; RepoOperation 0 "Push"]
                              (activate env0 init))) by (vm_compute; lia).
  assert (Hd : debounceDelay ≤ 500) by (unfold debounceDelay; lia).
  exact (proj2 (proj2 (proj2 (proj2 (proj2 (proj2
    (detection_events_collapse (activate env0 init) _ Hr Hevs))))))
    Hlt 500 Hd).
Defined.

(** * The listeners of the git extension *)

Lemma foldl_id {A : Type} (f : State → A → State) (l : list A) (s : State) :
  (∀ acc a, f acc a = acc) → foldl f s l = s.
Proof. intros Hf. induction l as [|a l IH]; simpl; [done|]. by rewrite Hf. Qed.

Lemma foldl_detections {A : Type} (f : State → State) (l : list A) (s : State) :
  (∀ acc, detections (f acc) = S (detections acc)) →
  detections (foldl (λ acc _, f acc) s l) = detections s + length l.
Proof.
  intros Hf. revert s. induction l as [|a l IH]; intros s; simpl; [lia|].
  rewrite IH, Hf. lia.
Qed.

Lemma on_operation_push (op : string) (s : State) :
  op = "Push" ∨ op = "Sync" →
  on_operation op s = triggerYouPushed (log ("Git operation detected: " +:+ op) s).
Proof. intros Hop. unfold on_operation. by rewrite decide_True. Qed.

Lemma on_operation_other (op : string) (s : State) :
  op ≠ "Push" → op ≠ "Sync" → on_operation op s = s.
Proof. intros H1 H2. unfold on_operation. rewrite decide_False; [done|]. by intros [?|?]. Qed.

Lemma operation_detections (s : State) (r : nat) (op : string) :
  op = "Push" ∨ op = "Sync" →
  detections (step (RepoOperation r op) s) =
  detections s + length (listeners_of r LOperation s).
Proof.
  intros Hop. unfold step. apply (foldl_detections (on_operation op)).
  intros acc. by rewrite on_operation_push, triggerYouPushed_detections.
Qed.

Lemma on_git_command_push (args : list string) (s : State) :
  on_git_command (Some ("push" :: args)) s =
  triggerYouPushed (log "Git push command detected" s).
Proof. unfold on_git_command. by rewrite decide_True. Qed.

Lemma git_command_detections (s : State) (r : nat) (args : list string) :
  detections (step (RepoGitCommand r (Some ("push" :: args))) s) =
  detections s + length (listeners_of r LGitCommand s).
Proof.
  unfold step. apply (foldl_detections (on_git_command (Some ("push" :: args)))).
  intros acc. by rewrite on_git_command_push, triggerYouPushed_detections.
Qed.

Lemma length_pos {A : Type} (l : list A) : l ≠ [] → 0 < length l.
Proof. destruct l; [done|]. simpl. lia. Qed.

Lemma operation_fires (s : State) (r : nat) (op : string) (d : nat) :
  timers_ok s → op = "Push" ∨ op = "Sync" → listeners_of r LOperation s ≠ [] →
  debounceDelay ≤ d →
  shows (advance d (step (RepoOperation r op) s)) = shows s ++ [now s + debounceDelay].
Proof.
  intros Ht Hop Hne Hd. apply detected_shows; [|  |done].
  - apply detected_step; [done|]. by apply detected_refl.
  - rewrite operation_detections by done. apply length_pos in Hne. lia.
Qed.

Lemma git_command_fires (s : State) (r : nat) (args : list string) (d : nat) :
  timers_ok s → listeners_of r LGitCommand s ≠ [] → debounceDelay ≤ d →
  shows (advance d (step (RepoGitCommand r (Some ("push" :: args))) s)) =
  shows s ++ [now s + debounceDelay].
Proof.
  intros Ht Hne Hd. apply detected_shows; [|  |done].
  - apply detected_step; [done|]. by apply detected_refl.
  - rewrite git_command_detections. apply length_pos in Hne. lia.
Qed.

(** X5. The operation listener of a repository (lines 109-116) reacts to the
    operations named exactly [Push] and [Sync], and to no other: any other
    name, in whatever state, changes nothing at all.  A [Push] or [Sync]
    counts one detection per listener attached to that repository, and if
    there is at least one, one notification follows 500ms later. *)
Theorem operation_listener (s : State) (r : nat) (op : string) :
  reachable s →
  let s' := step (RepoOperation r op) s in
  (op ≠ "Push" → op ≠ "Sync" → s' = s)
  ∧ (op = "Push" ∨ op = "Sync" →
       detections s' = detections s + length (listeners_of r LOperation s)
       ∧ (listeners_of r LOperation s = [] → s' = s)
       ∧ (listeners_of r LOperation s ≠ [] →
            shows s' = shows s
            ∧ ∀ d, debounceDelay ≤ d →
                   shows (advance d s') = shows s ++ [now s + debounceDelay])).
Proof.
  intros Hr s'. pose proof (reachable_wf s Hr) as [Ht _]. split.
  - intros H1 H2. unfold s', step. apply foldl_id.
    intros acc _. by apply on_operation_other.
  - intros Hop. split; [by apply operation_detections|]. split.
    + intros Hnil. unfold s', step. by rewrite Hnil.
    + intros Hne. split; [|intros d Hd; by apply operation_fires].
      pose proof (detected_step (RepoOperation r op) s s I (detected_refl s Ht)) as H.
      unfold s', shows. by rewrite (ds_panels _ _ H).
Qed.

Lemma operation_listener_witness :
  step (RepoOperation 7 "push") (activate env_git init) = activate env_git init
  ∧ detections (step (RepoOperation 7 "Sync") (activate env_git init)) = 1
  ∧ shows (advance 500 (step (RepoOperation 7 "Sync") (activate env_git init))) = [500].
Proof.
  assert (Hr : reachable (activate env_git init)) by (by exists env_git, []).
  assert (H1 : "push" ≠ "Push") by discriminate.
  assert (H2 : "push" ≠ "Sync") by discriminate.
  assert (Hop : "Sync" = "Push" ∨ "Sync" = "Sync") by (by right).
  assert (Hne : listeners_of 7 LOperation (activate env_git init) ≠ [])
    by (vm_compute; discriminate).
  assert (Hd : debounceDelay ≤ 500) by (unfold debounceDelay; lia).
  split; [|split].
  - exact (proj1 (operation_listener (activate env_git init) 7 "push" Hr) H1 H2).
  - exact (proj1 (proj2 (operation_listener (activate env_git init) 7 "Sync" Hr) Hop)).
  - exact (proj2 (proj2 (proj2 (proj2 (operation_listener (activate env_git init) 7 "Sync" Hr)
             Hop)) Hne) 500 Hd).
Defined.

(** X6. The git-command listener (lines 121-127) looks at the first token of
    the command only: with no command, an empty one, or a first token other
    than [push] nothing changes at all; with [push] first, whatever follows,
    one detection is counted per listener attached to that repository, and
    if there is at least one, one notification follows 500ms later. *)
Theorem git_command_listener (s : State) (r : nat) (command : option (list string)) :
  reachable s →
  let s' := step (RepoGitCommand r command) s in
  (command = None ∨ command = Some [] → s' = s)
  ∧ (∀ c args, command = Some (c :: args) → c ≠ "push" → s' = s)
  ∧ (∀ args, command = Some ("push" :: args) →
       detections s' = detections s + length (listeners_of r LGitCommand s)
       ∧ (listeners_of r LGitCommand s ≠ [] →
            shows s' = shows s
            ∧ ∀ d, debounceDelay ≤ d →
                   shows (advance d s') = shows s ++ [now s + debounceDelay])).
Proof.
  intros Hr s'. pose proof (reachable_wf s Hr) as [Ht _].
  assert (Hother : first_token command ≠ "push" → s' = s).
  { intros Hne. unfold s', step. apply foldl_id.
    intros acc _. unfold on_git_command. by rewrite decide_False. }
  split; [|split].
  - intros [-> | ->]; by apply Hother.
  - intros c args -> Hc. by apply Hother.
  - intros args Hcmd. unfold s'. rewrite Hcmd.
    split; [apply git_command_detections|].
    intros Hne. split; [|intros d Hd; by apply git_command_fires].
    pose proof (detected_step (RepoGitCommand r (Some ("push" :: args))) s s I
                  (detected_refl s Ht)) as H.
    unfold shows. by rewrite (ds_panels _ _ H).
Qed.

Lemma git_command_listener_witness :
  step (RepoGitCommand 7 None) (activate env_git init) = activate env_git init
  ∧ step (RepoGitCommand 7 (Some ["fetch"; "push"])) (activate env_git init)
    = activate env_git init
  ∧ shows (advance 500
      (step (RepoGitCommand 7 (Some ["push"; "--force"])) (activate env_git init))) = [500].
Proof.
  assert (Hr : reachable (activate env_git init)) by (by exists env_git, []).
  assert (Hc : "fetch" ≠ "push") by discriminate.
  assert (Hne : listeners_of 7 LGitCommand (activate env_git init) ≠ [])
    by (vm_compute; discriminate).
  assert (Hd : debounceDelay ≤ 500) by (unfold debounceDelay; lia).
  split; [|split].
  - exact (proj1 (git_command_listener (activate env_git init) 7 None Hr)
             (or_introl eq_refl)).
  - exact (proj1 (proj2 (git_command_listener (activate env_git init) 7
             (Some ["fetch"; "push"]) Hr)) "fetch" ["push"] eq_refl Hc).
  - exact (proj2 (proj2 (proj2 (proj2 (git_command_listener (activate env_git init) 7
             (Some ["push"; "--force"]) Hr)) ["--force"] eq_refl) Hne) 500 Hd).
Defined.

(** * What activation attaches to the git extension *)

Lemma attached_elem (repo : Repo) (r : nat) (l : RepoListener) :
  (r, l) ∈ attached repo ↔
  repo_id repo = r
  ∧ match l with
    | LStateChange => True
    | LOperation => hasOnDidRunOperation repo = true
    | LGitCommand => hasOnDidRunGitCommand repo = true
    end.
Proof.
  unfold attached. rewrite !elem_of_app.
  destruct (hasOnDidRunOperation repo), (hasOnDidRunGitCommand repo), l;
    rewrite ?list_elem_of_singleton, ?elem_of_nil;
    (split;
     [ intros H; repeat (destruct H as [H|H]); try done; by injection H as <-
     | intros [<- H]; try discriminate H; auto ]).
Qed.

Lemma listeners_of_ne (s : State) (r : nat) (l : RepoListener) :
  (r, l) ∈ repoListeners s → listeners_of r l s ≠ [].
Proof.
  intros Hin Hnil. unfold listeners_of in Hnil.
  by apply (filter_nil_not_elem_of _ _ (r, l)) in Hnil.
Qed.

(** X7. The git extension is there and gives its API: activation attaches
    to every repository of [api.repositories], in order, the state listener
    and whichever of the operation and git-command listeners the repository
    offers, registers one open-repository listener, and nothing is rejected.
    From then on a [Push] operation, or a [push] command, of such a
    repository shows one notification 500ms later; and when both listeners
    fire for the same push, at least two detections are counted and still
    one notification is shown. *)
Theorem bridge_available (env : Env) (ext : GitExtension) (git : GitExports)
    (api : GitAPI) :
  getExtension env "vscode.git" = Some ext →
  (if isActive ext then Resolved (exports ext) else ext_activate ext) = Resolved git →
  getAPI git 1 = Resolved (Some api) →
  let s := activate env init in
  repoListeners s = repositories api ≫= attached
  ∧ openRepositoryListeners s = 1
  ∧ rejections s = []
  ∧ (∀ repo d, repo ∈ repositories api → hasOnDidRunOperation repo = true →
       debounceDelay ≤ d →
       shows (advance d (step (RepoOperation (repo_id repo) "Push") s)) = [debounceDelay])
  ∧ (∀ repo args d, repo ∈ repositories api → hasOnDidRunGitCommand repo = true →
       debounceDelay ≤ d →
       shows (advance d (step (RepoGitCommand (repo_id repo) (Some ("push" :: args))) s))
       = [debounceDelay])
  ∧ (∀ repo args d, repo ∈ repositories api → hasOnDidRunOperation repo = true →
       hasOnDidRunGitCommand repo = true → debounceDelay ≤ d →
       let s' := run [RepoOperation (repo_id repo) "Push";
                      RepoGitCommand (repo_id repo) (Some ("push" :: args))] s in
       2 ≤ detections s' ∧ shows (advance d s') = [debounceDelay]).
Proof.
  intros Hext Hact Hapi s.
  pose proof (activate_bridge env) as Hb. unfold bridge_of in Hb.
  rewrite Hext, Hact, Hapi in Hb. fold s in Hb.
  apply bridge_inv in Hb as (Hl & Ho & Hrej).
  destruct (activate_fresh env) as ([Hok Hpok] & Hnow & Hshows).
  fold s in Hok, Hpok, Hnow, Hshows.
  assert (Hop : ∀ repo, repo ∈ repositories api → hasOnDidRunOperation repo = true →
                        listeners_of (repo_id repo) LOperation s ≠ []).
  { intros repo Hin Hhas. apply listeners_of_ne. rewrite Hl.
    apply list_elem_of_bind. exists repo. split; [|done]. by apply attached_elem. }
  assert (Hcmd : ∀ repo, repo ∈ repositories api → hasOnDidRunGitCommand repo = true →
                         listeners_of (repo_id repo) LGitCommand s ≠ []).
  { intros repo Hin Hhas. apply listeners_of_ne. rewrite Hl.
    apply list_elem_of_bind. exists repo. split; [|done]. by apply attached_elem. }
  split; [done|]. split; [done|]. split; [done|]. split; [|split].
  - intros repo d Hin Hhas Hd.
    rewrite operation_fires; [by rewrite Hshows, Hnow | done | by left | by apply Hop | done].
  - intros repo args d Hin Hhas Hd.
    rewrite git_command_fires; [by rewrite Hshows, Hnow | done | by apply Hcmd | done].
  - intros repo args d Hin Hhas1 Hhas2 Hd s'.
    assert (Hdet : detected_since s s').
    { apply detected_run; [by repeat constructor | by apply detected_refl]. }
    assert (H2 : detections s + 2 ≤ detections s').
    { unfold s', run. cbn [foldl].
      rewrite git_command_detections, operation_detections by (by left).
      pose proof (length_pos _ (Hop repo Hin Hhas1)) as Hpos.
      assert (Hsame : listeners_of (repo_id repo) LGitCommand
                        (step (RepoOperation (repo_id repo) "Push") s) ≠ []).
      { apply listeners_of_ne.
        pose proof (detected_step (RepoOperation (repo_id repo) "Push") s s I
                      (detected_refl s Hok)) as _.
        assert (Hreg : repoListeners (step (RepoOperation (repo_id repo) "Push") s)
                       = repoListeners s).
        { unfold step. apply (foldl_frame repoListeners). intros acc _.
          pose proof (on_operation_registry "Push" acc) as Hr.
          unfold registry in Hr. by injection Hr. }
        rewrite Hreg, Hl. apply list_elem_of_bind. exists repo.
        split; [|done]. by apply attached_elem. }
      apply length_pos in Hsame. lia. }
    split; [lia|].
    rewrite (detected_shows s s' d Hdet); [by rewrite Hshows, Hnow | lia | done].
Qed.

Lemma bridge_available_witness :
  repoListeners (activate env_git init) =
    [(7, LStateChange); (7, LOperation); (7, LGitCommand); (8, LStateChange)]
  ∧ shows (advance 500 (step (RepoOperation 7 "Push") (activate env_git init))) = [500]
  ∧ shows (advance 500
      (run [RepoOperation 7 "Push"; RepoGitCommand 7 (Some ["push"; "origin"])]
         (activate env_git init))) = [500].
Proof.
  assert (Hin : mkRepo 7 true true ∈ [mkRepo 7 true true; mkRepo 8 false false])
    by (by left).
  assert (Hd : debounceDelay ≤ 500) by (unfold debounceDelay; lia).
  pose proof (bridge_available env_git _ _ _ eq_refl eq_refl eq_refl) as H.
  split; [|split].
  - exact (proj1 H).
  - exact (proj1 (proj2 (proj2 (proj2 H))) (mkRepo 7 true true) 500 Hin eq_refl Hd).
  - exact (proj2 (proj2 (proj2 (proj2 (proj2 (proj2 H)))) (mkRepo 7 true true)
             ["origin"] 500 Hin eq_refl eq_refl Hd)).
Defined.

(** X8. The git extension is installed but not active, and its activation
    fails: the failure surfaces as an unhandled promise rejection, because
    [setupGitCommandHooks] drops the promise of the [async] function.  No
    listener is attached, so git events change nothing; the commands are
    registered and the file watchers work as without the git extension. *)
Theorem git_activation_rejected (env : Env) (ext : GitExtension) (e : Error) :
  getExtension env "vscode.git" = Some ext → isActive ext = false →
  ext_activate ext = Rejected e →
  let s := activate env init in
  rejections s = [e]
  ∧ repoListeners s = [] ∧ openRepositoryListeners s = 0
  ∧ commands s =
    ("you-pushed.test", HTest) :: ((λ c, (wrapper_id c, HWrap c)) <$> pushCommands)
  ∧ (∀ r op command repo,
       step (RepoOperation r op) s = s
       ∧ step (RepoGitCommand r command) s = s
       ∧ step (RepositoryOpened repo) s = s)
  ∧ ∀ folder d, folder ∈ watchers s → debounceDelay ≤ d →
      shows (advance d (step (FileChanged folder) s)) = [debounceDelay].
Proof.
  intros Hext Hia Hrej s.
  pose proof (activate_bridge env) as Hb. unfold bridge_of in Hb.
  rewrite Hext, Hia, Hrej in Hb. fold s in Hb.
  apply bridge_inv in Hb as (Hl & Ho & Hr).
  split; [done|]. split; [done|]. split; [done|].
  split; [apply activate_commands|]. split.
  - intros r op command repo. unfold step, listeners_of. by rewrite Hl, Ho.
  - intros folder d Hin Hd.
    destruct (activate_fresh env) as ([Hok _] & Hnow & Hshows).
    fold s in Hok, Hnow, Hshows.
    assert (Hne : filter (λ w, w = folder) (watchers s) ≠ []).
    { intros Hnil. by apply (filter_nil_not_elem_of _ _ folder) in Hnil. }
    unfold step. by rewrite triggers_then_show, Hshows, Hnow.
Qed.

Lemma git_activation_rejected_witness :
  rejections (activate env_rejecting init) = ["no git"]
  ∧ step (RepoOperation 0 "Push") (activate env_rejecting init)
    = activate env_rejecting init
  ∧ shows (advance 500 (step (FileChanged "/repo") (activate env_rejecting init))) = [500].
Proof.
  assert (Hin : "/repo" ∈ watchers (activate env_rejecting init))
    by (vm_compute; by left).
  assert (Hd : debounceDelay ≤ 500) by (unfold debounceDelay; lia).
  pose proof (git_activation_rejected env_rejecting _ "no git" eq_refl eq_refl eq_refl)
    as H.
  split; [|split].
  - exact (proj1 H).
  - exact (proj1 (proj1 (proj2 (proj2 (proj2 (proj2 H)))) 0 "Push" None
             (mkRepo 0 true true))).
  - exact (proj2 (proj2 (proj2 (proj2 (proj2 H)))) "/repo" 500 Hin Hd).
Defined.

Lemma open_listeners_le_one (s : State) : reachable s → openRepositoryListeners s ≤ 1.
Proof.
  intros (env & evs & ->).
  destruct (registered_inv _ _ (run_registered evs (activate env init))) as (_ & _ & ->).
  pose proof (activate_bridge env) as Hb. unfold bridge_of in Hb.
  destruct (getExtension env "vscode.git") as [ext|];
    [|apply bridge_inv in Hb as (_ & -> & _); lia].
  destruct (if isActive ext then Resolved (exports ext) else ext_activate ext)
    as [git|e]; [|apply bridge_inv in Hb as (_ & -> & _); lia].
  destruct (getAPI git 1) as [[api|]|e]; apply bridge_inv in Hb as (_ & -> & _); lia.
Qed.

(** X9. A repository that the git extension opens later.  At most one
    open-repository listener is ever registered.  Without it (the bridge is
    off) the event changes nothing; with it the new repository gets the
    same listeners as those found at activation, and from then on its
    [Sync] operations and [push] commands show the notification. *)
Theorem repository_opened_later (s : State) (repo : Repo) :
  reachable s →
  let s' := step (RepositoryOpened repo) s in
  openRepositoryListeners s ≤ 1
  ∧ (openRepositoryListeners s = 0 → s' = s)
  ∧ (openRepositoryListeners s = 1 →
       s' = watchRepository repo s
       ∧ repoListeners s' = repoListeners s ++ attached repo
       ∧ (hasOnDidRunOperation repo = true → ∀ d, debounceDelay ≤ d →
            shows (advance d (step (RepoOperation (repo_id repo) "Sync") s')) =
            shows s ++ [now s + debounceDelay])
       ∧ (hasOnDidRunGitCommand repo = true → ∀ args d, debounceDelay ≤ d →
            shows (advance d
                     (step (RepoGitCommand (repo_id repo) (Some ("push" :: args))) s')) =
            shows s ++ [now s + debounceDelay])).
Proof.
  intros Hr s'. split; [by apply open_listeners_le_one|]. split.
  - intros H0. unfold s', step. by rewrite H0.
  - intros H1.
    assert (Hs' : s' = watchRepository repo s) by (unfold s', step; by rewrite H1).
    destruct (bridge_inv _ _ _ _ (watchRepository_bridge repo s)) as (Hl & _ & _).
    destruct (core_inv _ _ (watchRepository_core repo s)) as (Hclock & _ & Hpan).
    clock_of Hclock.
    assert (Hok : timers_ok s').
    { rewrite Hs'. apply (wf_core s); [apply watchRepository_core|].
      by apply reachable_wf. }
    assert (Hshows : shows s' = shows s) by (rewrite Hs'; unfold shows; by rewrite Hpan).
    assert (Hn : now s' = now s) by (by rewrite Hs').
    rewrite <- Hs' in Hl.
    split; [done|]. split; [done|]. split.
    + intros Hhas d Hd. rewrite operation_fires; [by rewrite Hshows, Hn|done|by right| |done].
      apply listeners_of_ne. rewrite Hl. apply elem_of_app. right.
      by apply attached_elem.
    + intros Hhas args d Hd. rewrite git_command_fires; [by rewrite Hshows, Hn|done| |done].
      apply listeners_of_ne. rewrite Hl. apply elem_of_app. right.
      by apply attached_elem.
Qed.

Lemma repository_opened_later_witness :
  step (RepositoryOpened (mkRepo 9 true false)) (activate env0 init) = activate env0 init
  ∧ repoListeners (step (RepositoryOpened (mkRepo 9 true false)) (activate env_git init))
    = [(7, LStateChange); (7, LOperation); (7, LGitCommand); (8, LStateChange);
       (9, LStateChange); (9, LOperation)]
  ∧ shows (advance 500
      (step (RepoOperation 9 "Sync")
         (step (RepositoryOpened (mkRepo 9 true false)) (activate env_git init)))) = [500].
Proof.
  assert (Hr0 : reachable (activate env0 init)) by (by exists env0, []).
  assert (Hr : reachable (activate env_git init)) by (by exists env_git, []).
  assert (Hd : debounceDelay ≤ 500) by (unfold debounceDelay; lia).
  split; [|split].
  - exact (proj1 (proj2 (repository_opened_later (activate env0 init)
             (mkRepo 9 true false) Hr0)) eq_refl).
  - exact (proj1 (proj2 (proj2 (proj2 (repository_opened_later (activate env_git init)
             (mkRepo 9 true false) Hr)) eq_refl))).
  - exact (proj1 (proj2 (proj2 (proj2 (proj2 (repository_opened_later
             (activate env_git init) (mkRepo 9 true false) Hr)) eq_refl))) eq_refl 500 Hd).
Defined.

(** * The file watchers *)

(** X10. The reflog watchers, from activation until the extension is shut
    down (when the host disposes them).  There is one watcher per workspace
    folder whose remotes log, at the path [path.join] gives, exists.  A
    deleted file is ignored; a created file does what a changed one does;
    an event under a folder without a watcher changes nothing at all;
    under a watched folder nothing is shown at once and one notification
    follows 500ms later. *)
Theorem reflog_watcher (env : Env) (evs : list Event) (folder : string) :
  Deactivate ∉ evs →
  let s := run evs (activate env init) in
  watchers s =
    match workspaceFolders env with
    | Some folders => filter (λ f, existsSync env (gitRemotesPath env f)) folders
    | None => []
    end
  ∧ step (FileDeleted folder) s = s
  ∧ step (FileCreated folder) s = step (FileChanged folder) s
  ∧ (folder ∉ watchers s → step (FileChanged folder) s = s)
  ∧ (folder ∈ watchers s →
       shows (step (FileChanged folder) s) = shows s
       ∧ ∀ d, debounceDelay ≤ d →
              shows (advance d (step (FileChanged folder) s)) =
              shows s ++ [now s + debounceDelay]).
Proof.
  intros _ s.
  destruct (registered_inv _ _ (run_registered evs (activate env init)))
    as (_ & Hw & _). fold s in Hw.
  assert (Hwf : wf s).
  { apply reachable_wf. by exists env, evs. }
  destruct Hwf as [Hok _].
  split; [by rewrite Hw, activate_watchers|]. split; [done|]. split; [done|]. split.
  - intros Hnot. unfold step. rewrite filter_none; [done|]. by intros w Hin ->.
  - intros Hin.
    assert (Hne : filter (λ w, w = folder) (watchers s) ≠ []).
    { intros Hnil. by apply (filter_nil_not_elem_of _ _ folder) in Hnil. }
    split; [|intros d Hd; unfold step; by apply triggers_then_show].
    pose proof (detected_step (FileChanged folder) s s I (detected_refl s Hok)) as H.
    unfold shows. by rewrite (ds_panels _ _ H).
Qed.

Lemma reflog_watcher_witness :
  step (FileChanged "/notes") (run [Tick; test_command] (activate env_two_folders init))
  = run [Tick; test_command] (activate env_two_folders init)
  ∧ shows (advance 500
      (step (FileChanged "/repo") (run [Tick; test_command] (activate env_two_folders init))))
    = [1; 501].
Proof.
  assert (Hnot : "/notes" ∉ watchers (run [Tick; test_command]
                                        (activate env_two_folders init))).
  { vm_compute. intros H.
    repeat (apply elem_of_cons in H as [H|H]; [discriminate H|]).
    by apply not_elem_of_nil in H. }
  assert (Hin : "/repo" ∈ watchers (run [Tick; test_command]
                                      (activate env_two_folders init)))
    by (vm_compute; by left).
  assert (Hd : debounceDelay ≤ 500) by (unfold debounceDelay; lia).
  assert (Hno : Deactivate ∉ [Tick; test_command]).
  { unfold test_command. intros H.
    repeat (apply elem_of_cons in H as [H|H]; [discriminate H|]).
    by apply not_elem_of_nil in H. }
  split.
  - exact (proj1 (proj2 (proj2 (proj2
      (reflog_watcher env_two_folders [Tick; test_command] "/notes" Hno)))) Hnot).
  - exact (proj2 (proj2 (proj2 (proj2 (proj2
      (reflog_watcher env_two_folders [Tick; test_command] "/repo" Hno)))) Hin) 500 Hd).
Defined.

(** X11. Setting up the watchers writes one console line per workspace
    folder, in the order of the folders: that the folder is watched, or that
    its remotes log was not found, with the path as [path.join] gives it.  Only the folders of the first kind get a
    watcher, and nothing else of the state changes. *)
Theorem watcher_setup (env : Env) (folders : list string) (s : State) :
  workspaceFolders env = Some folders →
  watchers (setupGitPushWatcher env s) =
    watchers s ++ filter (λ f, existsSync env (gitRemotesPath env f)) folders
  ∧ console (setupGitPushWatcher env s) =
    reverse (watcher_log env <$> folders) ++ console s
  ∧ core (setupGitPushWatcher env s) = core s
  ∧ commands (setupGitPushWatcher env s) = commands s
  ∧ bridge (setupGitPushWatcher env s) = bridge s.
Proof.
  intros Hf. split; [by apply setupGitPushWatcher_watchers|].
  split; [|split; [apply setupGitPushWatcher_core|
           split; [apply setupGitPushWatcher_commands | apply setupGitPushWatcher_bridge]]].
  unfold setupGitPushWatcher. rewrite Hf. clear Hf. revert s.
  induction folders as [|a l IH]; intros s; [done|].
  cbn [foldl]. rewrite IH, fmap_cons, reverse_cons, <- app_assoc. f_equal.
  unfold watcher_log. by destruct (existsSync env (gitRemotesPath env a)).
Qed.

Lemma watcher_setup_witness :
  watchers (setupGitPushWatcher env_two_folders init) = ["/repo"]
  ∧ console (setupGitPushWatcher env_two_folders init) =
    [ "No git remotes directory found at: /notes/.git/logs/refs/remotes";
      "Watching for git pushes in: /repo/.git/logs/refs/remotes" ].
Proof.
  split.
  - exact (proj1 (watcher_setup env_two_folders ["/repo"; "/notes"] init eq_refl)).
  - exact (proj1 (proj2 (watcher_setup env_two_folders ["/repo"; "/notes"] init eq_refl))).
Defined.

(** * Activation and shutdown *)

Lemma setupGitPushWatcher_detections (env : Env) (s : State) :
  detections (setupGitPushWatcher env s) = detections s.
Proof.
  unfold setupGitPushWatcher. destruct (workspaceFolders env); [|done].
  apply (foldl_frame detections). intros acc a.
  by destruct (existsSync env (gitRemotesPath env a)).
Qed.

Lemma setupGitExtensionListener_detections (env : Env) (s : State) :
  detections (fst (setupGitExtensionListener env s)) = detections s.
Proof.
  unfold setupGitExtensionListener.
  destruct (getExtension env "vscode.git") as [ext|]; [|done].
  destruct (if isActive ext then _ else _) as [git|]; [|done].
  destruct (getAPI git 1) as [[api|]|e]; [|done|done].
  cbn [fst addOpenRepositoryListener detections].
  apply (foldl_frame detections). intros. apply watchRepository_detections.
Qed.

Lemma setupGitCommandHooks_detections (env : Env) (s : State) :
  detections (setupGitCommandHooks env s) = detections s.
Proof.
  unfold setupGitCommandHooks.
  pose proof (setupGitExtensionListener_detections env
    (foldl (λ acc commandId, registerCommand (wrapper_id commandId) (HWrap commandId) acc)
       s pushCommands)) as H.
  rewrite (foldl_frame detections) in H by done.
  by destruct (setupGitExtensionListener env _) as [s2 [u|e]].
Qed.

Lemma activate_detections (env : Env) : detections (activate env init) = 0.
Proof.
  unfold activate.
  by rewrite setupGitCommandHooks_detections, setupGitPushWatcher_detections.
Qed.

(** X12. Activation by itself is silent, whatever it finds in the
    environment: no detection is counted, no timer is set, no panel exists,
    and as long as no event arrives time passes without anything being
    shown. *)
Theorem activation_is_silent (env : Env) (d : nat) :
  let s := activate env init in
  detections s = 0 ∧ timers s = [] ∧ panels s = []
  ∧ currentPanel s = None ∧ debounceTimer s = None
  ∧ advance d s = set_now d s
  ∧ shows (advance d s) = [].
Proof.
  intros s. destruct (core_inv _ _ (activate_core env init)) as (Hclock & Hcur & Hpan).
  clock_of Hclock. fold s in Hnow, Htimers, Hdebounce, Hcur, Hpan.
  split; [apply activate_detections|].
  repeat (split; [done|]).
  assert (Hadv : advance d s = set_now d s).
  { rewrite advance_no_timers by done. by rewrite Hnow. }
  split; [done|]. rewrite Hadv. unfold shows. by rewrite panels_set_now, Hpan.
Qed.

Lemma clearTimeout_twice (id : nat) (s : State) :
  clearTimeout id (clearTimeout id s) = clearTimeout id s.
Proof.
  unfold clearTimeout. rewrite timers_set_timers.
  rewrite (filter_all _ (filter _ (timers s))); [done|].
  by intros t [Ht _]%list_elem_of_filter.
Qed.

(** X13. Shutting down twice is shutting down once: the second
    [deactivate] finds no current panel and a debounce timer that is
    already cleared, and leaves the state as it is.  In particular no panel
    gets a second [dispose()] call. *)
Theorem deactivate_twice (s : State) :
  reachable s → deactivate (deactivate s) = deactivate s.
Proof.
  intros Hr. pose proof (reachable_wf s Hr) as Hwf.
  destruct (deactivate_spec s Hwf) as (Hcur & _).
  assert (Hd : debounceTimer (deactivate s) = debounceTimer s).
  { unfold deactivate. fold (close_existing s).
    pose proof (close_existing_clock s) as Hc. clock_of Hc.
    rewrite Hdebounce. destruct (debounceTimer s); [done|]. by rewrite Hdebounce. }
  unfold deactivate at 1. rewrite Hcur, Hd.
  destruct (debounceTimer s) as [id|] eqn:Hs; [|done].
  unfold deactivate. fold (close_existing s).
  pose proof (close_existing_clock s) as Hc. clock_of Hc.
  rewrite Hdebounce, Hs. apply clearTimeout_twice.
Qed.

Lemma deactivate_twice_witness :
  deactivate (deactivate (run [test_command; FileChanged "/repo"] (activate env0 init)))
  = deactivate (run [test_command; FileChanged "/repo"] (activate env0 init)).
Proof.
  assert (Hr : reachable (run [test_command; FileChanged "/repo"] (activate env0 init)))
    by (by exists env0, [test_command; FileChanged "/repo"]).
  exact (deactivate_twice _ Hr).
Defined.

(** * Never more notifications than detections *)

Lemma pending_clock (cb : Callback) (s s' : State) :
  clock s' = clock s → pending cb s' = pending cb s.
Proof. intros H. clock_of H. unfold pending. by rewrite Htimers. Qed.

Lemma userClose_clock (p : nat) (s : State) : clock (userClose p s) = clock s.
Proof.
  unfold userClose. destruct (panels s !! p) as [pn|]; [|done].
  destruct (decide (live pn)); [apply dispose_clock | done].
Qed.

Lemma userClose_frame (p : nat) (s : State) :
  detections (userClose p s) = detections s
  ∧ length (panels (userClose p s)) = length (panels s).
Proof.
  unfold userClose. destruct (panels s !! p) as [pn|]; [|done].
  destruct (decide (live pn)); [|done].
  split; [apply dispose_registry | apply dispose_length].
Qed.

Lemma deactivate_frame (s : State) :
  detections (deactivate s) = detections s ∧ now (deactivate s) = now s.
Proof.
  unfold deactivate. fold (close_existing s).
  pose proof (close_existing_clock s) as Hc. clock_of Hc.
  pose proof (close_existing_detections s) as Hd.
  by destruct (debounceTimer (close_existing s)).
Qed.

Lemma deactivate_pending (s : State) : wf s → pending CbShow (deactivate s) = [].
Proof.
  intros Hwf. destruct (deactivate_spec s Hwf) as (_ & _ & Ht).
  unfold pending at 1. rewrite Ht. apply filter_none.
  intros t [Hcb _]%pending_elem. by rewrite Hcb.
Qed.

Lemma filter_split_length (n : nat) (l : list Timer) :
  length (filter (λ t, due t <=? n) l) + length (filter (λ t, n <? due t) l) = length l.
Proof.
  induction l as [|t l IH]; [done|]. rewrite !filter_cons.
  destruct (decide (Is_true (due t <=? n))) as [H1|H1];
    destruct (decide (Is_true (n <? due t))) as [H2|H2]; simpl; try lia.
  - apply leb_le_true in H1. apply ltb_lt_true in H2. lia.
  - rewrite leb_le_true in H1. rewrite ltb_lt_true in H2. lia.
Qed.

Lemma tick_budget (s : State) :
  length (panels (tick s)) + length (pending CbShow (tick s)) =
  length (panels s) + length (pending CbShow s)
  ∧ detections (tick s) = detections s.
Proof.
  destruct (tick_spec s) as [Hp Hs]. split; [|apply (advance_detections 1)].
  rewrite Hp. rewrite <- (length_fmap createdAt (panels (tick s))).
  fold (shows (tick s)). rewrite Hs, length_app, length_replicate.
  unfold shows. rewrite length_fmap.
  pose proof (filter_split_length (S (now s)) (pending CbShow s)). lia.
Qed.

Lemma lookup_HTest (id : string) (s : State) :
  commands s =
  ("you-pushed.test", HTest) :: ((λ c, (wrapper_id c, HWrap c)) <$> pushCommands) →
  lookup_command id s = Some HTest → id = "you-pushed.test".
Proof.
  intros Hc Hl. unfold lookup_command in Hl. rewrite Hc, filter_cons in Hl.
  cbn [fst] in Hl. destruct (decide ("you-pushed.test" = id)) as [<-|Hne]; [done|].
  destruct (head _) as [x|] eqn:Hh; [|done].
  apply head_Some_elem_of, list_elem_of_filter in Hh as [_ Hx].
  apply list_elem_of_fmap in Hx as (c & -> & _). done.
Qed.

Lemma manual_shows_cons (e : Event) (evs : list Event) :
  manual_shows (e :: evs) = (if is_test e then 1 else 0) + manual_shows evs.
Proof.
  unfold manual_shows. rewrite filter_cons.
  destruct (decide (Is_true (is_test e))) as [H|H]; destruct (is_test e); done.
Qed.

Lemma detected_budget (s s' : State) :
  detected_since s s' →
  length (panels s') + length (pending CbShow s') + detections s
  ≤ length (panels s) + length (pending CbShow s) + detections s'.
Proof.
  intros [Hn Hp Hc Ha Hok Hcnt Hnone Hsome]. rewrite Hp.
  destruct (decide (detections s' = detections s)) as [Heq|Hne].
  - rewrite (pending_clock CbShow s s' (Hnone Heq)). lia.
  - destruct Hsome as (T & -> & _); [lia|]. simpl. lia.
Qed.

Lemma step_budget (e : Event) (s : State) :
  wf s →
  commands s =
  ("you-pushed.test", HTest) :: ((λ c, (wrapper_id c, HWrap c)) <$> pushCommands) →
  length (panels (step e s)) + length (pending CbShow (step e s)) + detections s
  ≤ length (panels s) + length (pending CbShow s) + detections (step e s)
    + (if is_test e then 1 else 0).
Proof.
  intros Hwf Hc. pose proof Hwf as [Hok Hpok].
  assert (Hdet : detection_source e →
            length (panels (step e s)) + length (pending CbShow (step e s)) + detections s
            ≤ length (panels s) + length (pending CbShow s) + detections (step e s)).
  { intros He. apply detected_budget, detected_step; [done|]. by apply detected_refl. }
  destruct e as [|id args exec|f|f|f|r|r op|r command|repo|q|];
    try (specialize (Hdet I); cbn [is_test]; lia); clear Hdet.
  - destruct (tick_budget s) as [H1 H2]. simpl. lia.
  - unfold step. destruct (lookup_command id s) as [[|c]|] eqn:Hl; [| |simpl; lia].
    + apply (lookup_HTest id s Hc) in Hl. subst id. cbn [run_handler fst is_test].
      destruct (showYouPushedMessage_pending s) as [-> _].
      destruct (showYouPushedMessage_facts s) as (_ & _ & _ & -> & _).
      pose proof (run_callback_detections CbShow s) as Hd.
      change (run_callback CbShow s) with (showYouPushedMessage s) in Hd.
      rewrite length_app, close_existing_length, Hd. simpl. lia.
    + unfold run_handler. destruct (exec c args) as [v|err]; cbn [fst].
      * pose proof (detected_budget s _ (detected_trigger s s (detected_refl s Hok))).
        lia.
      * change (panels (log ?m s)) with (panels s).
        change (pending CbShow (log ?m s)) with (pending CbShow s).
        change (detections (log ?m s)) with (detections s). lia.
  - destruct (userClose_frame q s) as [Hd Hlen]. simpl.
    rewrite Hlen, Hd, (pending_clock CbShow s _ (userClose_clock q s)). lia.
  - destruct (deactivate_spec s Hwf) as (_ & Hp & _).
    destruct (deactivate_frame s) as [Hd _]. simpl.
    rewrite Hp, close_existing_length, Hd, deactivate_pending by done. simpl. lia.
Qed.

Lemma run_budget (evs : list Event) (s : State) (k : nat) :
  wf s →
  commands s =
  ("you-pushed.test", HTest) :: ((λ c, (wrapper_id c, HWrap c)) <$> pushCommands) →
  length (panels s) + length (pending CbShow s) ≤ detections s + k →
  length (panels (run evs s)) + length (pending CbShow (run evs s))
  ≤ detections (run evs s) + k + manual_shows evs.
Proof.
  revert s k. induction evs as [|e evs IH]; intros s k Hwf Hc Hk.
  - unfold manual_shows. simpl. lia.
  - change (run (e :: evs) s) with (run evs (step e s)).
    rewrite manual_shows_cons.
    pose proof (step_budget e s Hwf Hc) as Hstep.
    destruct (registered_inv _ _ (step_registered e s)) as (Hc' & _).
    specialize (IH (step e s) (k + (if is_test e then 1 else 0))
                  (step_wf e s Hwf) (eq_trans Hc' Hc)).
    lia.
Qed.

(** X14. No notification without a cause.  After any events whatsoever the
    notifications shown so far, together with the one still scheduled, are
    never more than the detections counted plus the runs of the test
    command; in particular, with no detection and no run of the test
    command nothing is ever shown. *)
Theorem no_spurious_notification (env : Env) (evs : list Event) :
  let s := run evs (activate env init) in
  length (shows s) + length (pending CbShow s) ≤ detections s + manual_shows evs
  ∧ (detections s = 0 → manual_shows evs = 0 → shows s = []).
Proof.
  intros s.
  destruct (activate_fresh env) as (Hwf & _ & Hshows).
  destruct (core_inv _ _ (activate_core env init)) as (Hclock & _ & Hpan).
  clock_of Hclock.
  assert (H : length (panels s) + length (pending CbShow s)
              ≤ detections s + 0 + manual_shows evs).
  { apply run_budget; [done | apply activate_commands |].
    unfold pending. rewrite Hpan, Htimers. simpl. lia. }
  unfold shows. rewrite length_fmap. split; [lia|].
  intros Hd Hm. destruct (panels s); [done|]. simpl in H. lia.
Qed.

Lemma no_spurious_notification_witness :
  shows (run [Tick; FileDeleted "/repo"; RepoOperation 0 "Push"; UserClose 0; Deactivate]
           (activate env0 init)) = [].
Proof.
  exact (proj2 (no_spurious_notification env0
    [Tick; FileDeleted "/repo"; RepoOperation 0 "Push"; UserClose 0; Deactivate])
    eq_refl eq_refl).
Defined.

(** * At most one notification is scheduled *)

Lemma scheduled_same (s s' : State) :
  pending CbShow s' = pending CbShow s → now s ≤ now s' →
  scheduled_ok s → scheduled_ok s'.
Proof.
  intros Hp Hn [Hlen Hdue]. unfold scheduled_ok. rewrite Hp. split; [done|].
  intros T HT. specialize (Hdue T HT). lia.
Qed.

Lemma scheduled_one (s : State) (T : Timer) :
  pending CbShow s = [T] → due T ≤ now s + debounceDelay → scheduled_ok s.
Proof.
  intros Hp Hdue. unfold scheduled_ok. rewrite Hp. split; [done|].
  by intros T' ->%list_elem_of_singleton.
Qed.

Lemma scheduled_none (s : State) : pending CbShow s = [] → scheduled_ok s.
Proof.
  intros Hp. unfold scheduled_ok. rewrite Hp. split; [simpl; lia|].
  by intros T HT%elem_of_nil.
Qed.

Lemma detected_scheduled (s s' : State) :
  detected_since s s' → scheduled_ok s → scheduled_ok s'.
Proof.
  intros [Hn Hp Hc Ha Hok Hcnt Hnone Hsome] Hs.
  destruct (decide (detections s' = detections s)) as [Heq|Hne].
  - apply (scheduled_same s); [|lia|done]. by apply pending_clock, Hnone.
  - destruct Hsome as (T & HT & Hdue); [lia|]. apply (scheduled_one s' T HT). lia.
Qed.

Lemma step_scheduled (e : Event) (s : State) :
  wf s → scheduled_ok s → scheduled_ok (step e s).
Proof.
  intros Hwf Hs. pose proof Hwf as [Hok Hpok].
  assert (Hdet : detection_source e → scheduled_ok (step e s)).
  { intros He. apply (detected_scheduled s); [|done].
    apply detected_step; [done|]. by apply detected_refl. }
  destruct e as [|id args exec|f|f|f|r|r op|r command|repo|q|];
    try (by apply Hdet); clear Hdet.
  - destruct (tick_spec s) as [Hp _]. destruct Hs as [Hlen Hdue].
    unfold scheduled_ok, step. rewrite Hp, tick_now. split.
    + by etrans; [apply length_filter|].
    + intros T [_ HT]%list_elem_of_filter. specialize (Hdue T HT). lia.
  - unfold step. destruct (lookup_command id s) as [[|c]|]; [| |done].
    + cbn [run_handler fst]. apply (scheduled_same s); [| |done].
      * apply showYouPushedMessage_pending.
      * by destruct (showYouPushedMessage_facts s) as (-> & _).
    + unfold run_handler. destruct (exec c args) as [v|err]; cbn [fst].
      * apply (detected_scheduled s); [|done].
        by apply detected_trigger, detected_refl.
      * by apply (scheduled_same s).
  - apply (scheduled_same s); [| |done].
    + apply pending_clock, userClose_clock.
    + pose proof (userClose_clock q s) as Hc. clock_of Hc. simpl. lia.
  - apply scheduled_none. by apply deactivate_pending.
Qed.

Lemma run_scheduled (evs : list Event) (s : State) :
  wf s → scheduled_ok s → scheduled_ok (run evs s).
Proof.
  revert s. induction evs as [|e evs IH]; intros s Hwf Hs; [done|].
  apply IH; [by apply step_wf | by apply step_scheduled].
Qed.

(** X15. The debounce timer is one: in every state the extension can be in
    at most one notification is scheduled, the handle kept in
    [debounceTimer] is its handle, and it is due in the future, no more
    than 500ms from now. *)
Theorem one_scheduled_notification (s : State) :
  reachable s →
  length (pending CbShow s) ≤ 1
  ∧ ∀ T, T ∈ pending CbShow s →
         debounceTimer s = Some (timer_id T)
         ∧ now s < due T ∧ due T ≤ now s + debounceDelay.
Proof.
  intros Hr. pose proof (reachable_wf s Hr) as [Hok _].
  destruct Hr as (env & evs & ->).
  assert (Hs : scheduled_ok (run evs (activate env init))).
  { destruct (activate_fresh env) as (Hwf & _ & _).
    apply run_scheduled; [done|]. apply scheduled_none.
    destruct (core_inv _ _ (activate_core env init)) as (Hclock & _).
    clock_of Hclock. unfold pending. by rewrite Htimers. }
  destruct Hs as [Hlen Hdue]. split; [done|].
  intros T HT. pose proof HT as [Hcb Hin]%pending_elem.
  split; [by apply (show_is_debounce _ Hok T Hin)|].
  split; [by apply (due_future _ Hok)|by apply Hdue].
Qed.

Lemma one_scheduled_notification_witness :
  length (pending CbShow
            (run [FileChanged "/repo"; Tick; FileCreated "/repo"] (activate env0 init))) ≤ 1.
Proof.
  assert (Hr : reachable (run [FileChanged "/repo"; Tick; FileCreated "/repo"]
                            (activate env0 init)))
    by (by exists env0, [FileChanged "/repo"; Tick; FileCreated "/repo"]).
  exact (proj1 (one_scheduled_notification _ Hr)).
Defined.

(** * No panel outlives its 5000ms *)

Lemma closing_not_overdue (s : State) : timers_ok s → closing s → not_overdue s.
Proof.
  intros Hok Hc p pn Hp Hl. destruct (Hc p pn Hp Hl) as (T & HT & _ & Hdue).
  pose proof (due_future _ Hok T HT). lia.
Qed.

Lemma no_live_closing (s : State) : no_live s → closing s.
Proof. intros Hnl p pn Hp Hl. by destruct (Hnl p pn Hp). Qed.

Lemma lifetimes_ext (s s' : State) :
  panels s' = panels s → now s ≤ now s' → lifetimes_ok s → lifetimes_ok s'.
Proof.
  intros Hp Hn H p pn Hpn. rewrite Hp in Hpn. destruct (H p pn Hpn) as [H1 H2].
  split; [lia|]. intros t Ht. specialize (H2 t Ht). lia.
Qed.

Lemma closing_ext (s s' : State) :
  panels s' = panels s → pending CbAutoClose s' = pending CbAutoClose s →
  closing s → closing s'.
Proof.
  intros Hp Ha H p pn Hpn Hl. rewrite Hp in Hpn.
  destruct (H p pn Hpn Hl) as (T & HT & Hcb & Hdue). exists T. split; [|done].
  assert (HT' : T ∈ pending CbAutoClose s') by (rewrite Ha; by apply pending_elem).
  by apply pending_elem in HT' as [_ ?].
Qed.

Lemma dispose_lifetimes (s : State) (p : nat) :
  panels_ok s → currentPanel s = Some p → lifetimes_ok s → not_overdue s →
  lifetimes_ok (dispose p s).
Proof.
  intros Hok Hc Hlt Hno. destruct (dispose_current s p Hok Hc) as (pn & Hp & Hl & ->).
  intros q qn. rewrite panels_set_currentPanel, panels_set_panels.
  change (now (set_currentPanel None (set_panels ?ps s))) with (now s).
  intros [(<- & <- & _) | (Hne & Hq)]%list_lookup_insert_Some; [|by apply (Hlt q)].
  destruct (Hlt p pn Hp) as [Hc1 _]. specialize (Hno p pn Hp Hl).
  split; [done|]. intros t [= <-]. simpl. lia.
Qed.

Lemma close_existing_lifetimes (s : State) :
  panels_ok s → lifetimes_ok s → not_overdue s → lifetimes_ok (close_existing s).
Proof.
  intros Hok Hlt Hno. unfold close_existing.
  destruct (currentPanel s) as [p|] eqn:Hc; [by apply dispose_lifetimes | done].
Qed.

Lemma showYouPushedMessage_timed (s : State) :
  panels_ok s → lifetimes_ok s → not_overdue s → timed (showYouPushedMessage s).
Proof.
  intros Hok Hlt Hno.
  destruct (showYouPushedMessage_facts s) as (Hn & _ & Ht & Hp & _).
  destruct (close_existing_ok s Hok) as (_ & _ & Hnl).
  pose proof (close_existing_lifetimes s Hok Hlt Hno) as Hlt'.
  pose proof (close_existing_clock s) as Hclock. clock_of Hclock.
  split.
  - intros q qn. rewrite Hp, Hn.
    intros [Hq | (_ & Hq)]%lookup_app_Some.
    + rewrite <- Hnow. by apply (Hlt' q).
    + apply list_lookup_singleton_Some in Hq as [_ <-]. by split.
  - intros q qn. rewrite Hp, Ht.
    intros [Hq | (_ & Hq)]%lookup_app_Some Hl; [by destruct (Hnl q qn Hq)|].
    apply list_lookup_singleton_Some in Hq as [_ <-].
    eexists. split; [apply elem_of_app; right; by apply list_elem_of_singleton|].
    by split.
Qed.

Lemma autoClose_panels (s : State) : panels (autoClose s) = panels (close_existing s).
Proof. unfold autoClose, close_existing. by destruct (currentPanel s). Qed.

Lemma autoClose_timed (s : State) :
  panels_ok s → lifetimes_ok s → not_overdue s → timed (autoClose s).
Proof.
  intros Hok Hlt Hno. destruct (close_existing_ok s Hok) as (_ & _ & Hnl).
  pose proof (autoClose_clock s) as Hc. clock_of Hc.
  pose proof (close_existing_clock s) as Hc'. clock_of Hc'.
  split.
  - apply (lifetimes_ext (close_existing s)); [apply autoClose_panels | lia |].
    by apply close_existing_lifetimes.
  - apply no_live_closing. intros q qn. rewrite autoClose_panels. apply Hnl.
Qed.

Lemma run_callback_timed (cb : Callback) (s : State) :
  panels_ok s → lifetimes_ok s → not_overdue s → timed (run_callback cb s).
Proof.
  destruct cb; [apply showYouPushedMessage_timed | apply autoClose_timed].
Qed.

Lemma fire_all_timed (fired : list Timer) (s : State) :
  fired ≠ [] → wf s → lifetimes_ok s → not_overdue s → timed (fire_all fired s).
Proof.
  revert s. induction fired as [|t fired IH]; intros s Hne Hwf Hlt Hno; [done|].
  pose proof (run_callback_timed (callback t) s (proj2 Hwf) Hlt Hno) as [Hlt' Hc'].
  destruct fired as [|t' fired]; [by split|].
  pose proof (run_callback_wf (callback t) s Hwf) as Hwf'.
  apply (IH (run_callback (callback t) s)); [done | done | done |].
  by apply closing_not_overdue; [apply Hwf'|].
Qed.

Lemma tick_timed (s : State) : wf s → timed s → timed (tick s).
Proof.
  intros Hwf [Hlt Hc]. pose proof Hwf as [Hok Hpok]. rewrite tick_eq.
  set (s0 := set_timers _ (set_now (S (now s)) s)).
  assert (Hwf0 : wf s0).
  { split.
    - destruct Hok as [H1 H2 H3 H4]. split; simpl; auto.
      + intros t [_ Hin]%list_elem_of_filter. auto.
      + intros t [_ Hin]%list_elem_of_filter. auto.
      + intros t [Hd%ltb_lt_true _]%list_elem_of_filter. done.
    - by apply (panels_ok_ext s). }
  assert (Hlt0 : lifetimes_ok s0).
  { apply (lifetimes_ext s); [done | simpl; lia | done]. }
  assert (Hno0 : not_overdue s0).
  { intros p pn Hp Hl. destruct (Hc p pn Hp Hl) as (T & HT & _ & Hdue).
    pose proof (due_future _ Hok T HT). simpl. lia. }
  destruct (filter (λ t, due t <=? S (now s)) (timers s)) as [|t fired] eqn:Hf.
  - change (timed s0). split; [done|]. intros p pn Hp Hl.
    destruct (Hc p pn Hp Hl) as (T & HT & Hcb & Hdue). exists T. split; [|done].
    unfold s0. rewrite timers_set_timers. apply list_elem_of_filter. split; [|done].
    apply ltb_lt_true. destruct (decide (due T ≤ S (now s))) as [Hle|]; [|lia].
    assert (Hin : T ∈ filter (λ t, due t <=? S (now s)) (timers s)).
    { apply list_elem_of_filter. split; [by apply leb_le_true | done]. }
    rewrite Hf in Hin. by apply elem_of_nil in Hin.
  - by apply fire_all_timed.
Qed.

Lemma detected_timed (s s' : State) : detected_since s s' → timed s → timed s'.
Proof.
  intros [Hn Hp Hc Ha Hok Hcnt Hnone Hsome] [Hlt Hcl]. split.
  - apply (lifetimes_ext s); [done | lia | done].
  - by apply (closing_ext s).
Qed.

Lemma userClose_timed (p : nat) (s : State) : wf s → timed s → timed (userClose p s).
Proof.
  intros [Hok Hpok] [Hlt Hc]. unfold userClose.
  destruct (panels s !! p) as [pn|] eqn:Hp; [|done].
  destruct (decide (live pn)) as [Hl|]; [|done].
  pose proof (live_current _ Hpok p pn Hp Hl) as Hcur.
  destruct (dispose_current_ok s p Hpok Hcur) as (_ & _ & Hnl).
  split; [|by apply no_live_closing].
  apply dispose_lifetimes; [done | done | done | by apply closing_not_overdue].
Qed.

Lemma deactivate_timed (s : State) : wf s → timed s → timed (deactivate s).
Proof.
  intros Hwf [Hlt Hc]. pose proof Hwf as [Hok Hpok].
  destruct (deactivate_spec s Hwf) as (_ & Hp & _).
  destruct (deactivate_frame s) as [_ Hn].
  destruct (close_existing_ok s Hpok) as (_ & _ & Hnl).
  pose proof (close_existing_clock s) as Hclock. clock_of Hclock.
  split.
  - apply (lifetimes_ext (close_existing s)); [done | lia |].
    apply close_existing_lifetimes; [done | done | by apply closing_not_overdue].
  - apply no_live_closing. intros q qn. rewrite Hp. apply Hnl.
Qed.

Lemma step_timed (e : Event) (s : State) : wf s → timed s → timed (step e s).
Proof.
  intros Hwf Ht. pose proof Hwf as [Hok Hpok].
  assert (Hdet : detection_source e → timed (step e s)).
  { intros He. apply (detected_timed s); [|done].
    apply detected_step; [done|]. by apply detected_refl. }
  destruct e as [|id args exec|f|f|f|r|r op|r command|repo|q|];
    try (by apply Hdet); clear Hdet.
  - by apply tick_timed.
  - unfold step. destruct (lookup_command id s) as [[|c]|]; [| |done].
    + cbn [run_handler fst]. destruct Ht as [Hlt Hc].
      apply showYouPushedMessage_timed; [done | done | by apply closing_not_overdue].
    + unfold run_handler. destruct (exec c args) as [v|err]; cbn [fst].
      * apply (detected_timed s); [|done]. by apply detected_trigger, detected_refl.
      * done.
  - by apply userClose_timed.
  - by apply deactivate_timed.
Qed.

Lemma run_timed (evs : list Event) (s : State) : wf s → timed s → timed (run evs s).
Proof.
  revert s. induction evs as [|e evs IH]; intros s Hwf Ht; [done|].
  apply IH; [by apply step_wf | by apply step_timed].
Qed.

Lemma reachable_timed (s : State) : reachable s → timed s.
Proof.
  intros (env & evs & ->). destruct (activate_fresh env) as (Hwf & _ & _).
  apply run_timed; [done|].
  destruct (core_inv _ _ (activate_core env init)) as (_ & _ & Hp).
  split; intros p pn; rewrite Hp; change (panels init) with (@nil Panel); by rewrite lookup_nil.
Qed.

(** X16. No panel outlives its 5000ms, whatever happens.  In every state
    the extension can be in, a panel that is on screen was created less
    than 5000ms ago and its auto-close timer is in the queue, due 5000ms
    after the panel was created; a panel that is closed was closed no
    earlier than it was created and no later than 5000ms after. *)
Theorem surface_never_outlives (s : State) (p : nat) (pn : Panel) :
  reachable s → panels s !! p = Some pn →
  createdAt pn ≤ now s
  ∧ (live pn →
       now s < createdAt pn + autoCloseDelay
       ∧ ∃ T, T ∈ timers s ∧ callback T = CbAutoClose
              ∧ due T = createdAt pn + autoCloseDelay)
  ∧ ∀ t, disposedAt pn = Some t →
         createdAt pn ≤ t ∧ t ≤ createdAt pn + autoCloseDelay ∧ t ≤ now s.
Proof.
  intros Hr Hp. destruct (reachable_timed s Hr) as [Hlt Hc].
  pose proof (reachable_wf s Hr) as [Hok _].
  destruct (Hlt p pn Hp) as [H1 H2]. split; [done|]. split; [|done].
  intros Hl. destruct (Hc p pn Hp Hl) as (T & HT & Hcb & Hdue).
  split; [|by exists T]. pose proof (due_future _ Hok T HT). lia.
Qed.

Lemma surface_never_outlives_witness :
  createdAt (fresh_panel 0) ≤ now shown0
  ∧ now shown0 < createdAt (fresh_panel 0) + autoCloseDelay.
Proof.
  assert (Hr : reachable shown0) by (by exists env0, [test_command]).
  assert (Hp : panels shown0 !! 0 = Some (fresh_panel 0)) by reflexivity.
  split.
  - exact (proj1 (surface_never_outlives shown0 0 (fresh_panel 0) Hr Hp)).
  - exact (proj1 (proj1 (proj2 (surface_never_outlives shown0 0 (fresh_panel 0) Hr Hp))
             eq_refl)).
Defined.

(** * The auto-close timer of a replaced panel *)

(** X17. A notification shown while the auto-close timer of an earlier one
    is still pending, [a] milliseconds after it with [0 < a < 5000].  The
    first panel is closed by the second show, [a] milliseconds old; its timer stays in the queue, and when it fires,
    5000ms after the first show, it closes whatever panel is current: the
    second one, which is then only [5000 - a] milliseconds old.  From then
    on nothing is on screen, and the second panel's own timer is still
    pending. *)
Theorem stale_timer_closes_replacement (s : State) (a b : nat) :
  reachable s → timers s = [] →
  0 < a → a < autoCloseDelay → autoCloseDelay ≤ a + b → b < autoCloseDelay →
  let s3 := advance b (showYouPushedMessage (advance a (showYouPushedMessage s))) in
  timers s3 = [mkTimer (S (nextTimer s)) (now s + a + autoCloseDelay) CbAutoClose]
  ∧ live_panels s3 = []
  ∧ ∃ p1 p2,
      panels s3 !! length (panels s) = Some p1
      ∧ panels s3 !! S (length (panels s)) = Some p2
      ∧ createdAt p1 = now s ∧ disposedAt p1 = Some (now s + a)
      ∧ createdAt p2 = now s + a ∧ disposedAt p2 = Some (now s + autoCloseDelay).
Proof.
  intros Hr Ht _ Ha Hab Hb s3. pose proof (reachable_wf s Hr) as Hwf.
  destruct (second_show_within_delay s a b Hwf Ht Ha Hab Hb) as (_ & Hp & Htimers).
  fold s3 in Hp, Htimers.
  destruct (close_existing_ok s (proj2 Hwf)) as (_ & _ & Hnl).
  pose proof (close_existing_length s) as Hlen.
  split; [done|]. split.
  - unfold live_panels. rewrite Hp, filter_app.
    fold (live_panels (close_existing s)). by rewrite no_live_nil.
  - eexists _, _. rewrite Hp.
    split; [rewrite lookup_app_r by lia; rewrite Hlen, Nat.sub_diag; reflexivity|].
    split; [rewrite lookup_app_r by lia; rewrite Hlen;
            replace (S (length (panels s)) - length (panels s)) with 1 by lia;
            reflexivity|].
    done.
Qed.

Lemma stale_timer_closes_replacement_witness :
  timers (advance 2000 (showYouPushedMessage
            (advance 3000 (showYouPushedMessage (activate env0 init)))))
  = [mkTimer 1 (3000 + 5000) CbAutoClose]
  ∧ live_panels (advance 2000 (showYouPushedMessage
                   (advance 3000 (showYouPushedMessage (activate env0 init))))) = [].
Proof.
  assert (Hr : reachable (activate env0 init)) by (by exists env0, []).
  assert (H0 : 0 < 3000) by lia.
  assert (Ha : 3000 < autoCloseDelay) by (unfold autoCloseDelay; lia).
  assert (Hab : autoCloseDelay ≤ 3000 + 2000) by (unfold autoCloseDelay; lia).
  assert (Hb : 2000 < autoCloseDelay) by (unfold autoCloseDelay; lia).
  split.
  - exact (proj1 (stale_timer_closes_replacement (activate env0 init) 3000 2000
             Hr eq_refl H0 Ha Hab Hb)).
  - exact (proj1 (proj2 (stale_timer_closes_replacement (activate env0 init) 3000 2000
             Hr eq_refl H0 Ha Hab Hb))).
Defined.

(** * A show after a close by hand *)

(** A surface shown from an empty queue and closed by hand [t] milliseconds
    later: the state after the close. *)
Lemma close_after_show (s : State) (t : nat) :
  wf s → timers s = [] → t < autoCloseDelay →
  let s1 := userClose (length (panels s)) (advance t (showYouPushedMessage s)) in
  wf s1 ∧ now s1 = now s + t ∧ nextTimer s1 = S (nextTimer s)
  ∧ timers s1 = [mkTimer (nextTimer s) (now s + autoCloseDelay) CbAutoClose]
  ∧ currentPanel s1 = None
  ∧ panels s1 =
    panels (close_existing s) ++ [closed_at (now s + t) (called (fresh_panel (now s)))].
Proof.
  intros Hwf Ht Hlt. cbv zeta.
  destruct (showYouPushedMessage_facts s) as (Hn0 & Hnt0 & Ht0 & Hp0 & _).
  pose proof (showYouPushedMessage_wf s Hwf) as Hwf0.
  pose proof (close_existing_length s) as Hlen.
  rewrite Ht in Ht0. cbn [app] in Ht0. rewrite <- Hlen.
  remember (showYouPushedMessage s) as s0 eqn:Es0. clear Es0.
  remember (panels (close_existing s)) as P eqn:EP. clear EP Hlen.
  assert (Hadv : advance t s0 = set_now (now s + t) s0).
  { rewrite advance_idle, Hn0; [done|].
    intros T. rewrite Ht0. intros ->%list_elem_of_singleton. cbn [due]. lia. }
  pose proof (advance_wf t s0 Hwf0) as Hwf1. rewrite Hadv in *. clear Hadv.
  assert (Hnew : panels (set_now (now s + t) s0) !! length P = Some (fresh_panel (now s))).
  { rewrite panels_set_now, Hp0. by apply list_lookup_middle. }
  split; [by apply userClose_wf|].
  rewrite (userClose_live _ _ _ Hwf1 Hnew eq_refl). autorewrite with state.
  split; [done|]. split; [done|]. split; [done|]. split; [done|].
  rewrite Hp0, insert_app_r_alt by done. by rewrite Nat.sub_diag.
Qed.

(** A show while one auto-close timer is pending: when that timer fires it
    closes the panel just shown, whatever panel the timer was set for. *)
Lemma show_under_stale_timer (x : State) (T0 : Timer) (b : nat) :
  wf x → timers x = [T0] → callback T0 = CbAutoClose → now x < due T0 →
  due T0 ≤ now x + b → b < autoCloseDelay →
  let x' := advance b (showYouPushedMessage x) in
  now x' = now x + b
  ∧ panels x' =
    panels (close_existing x) ++ [closed_at (due T0) (called (fresh_panel (now x)))]
  ∧ timers x' = [mkTimer (nextTimer x) (now x + autoCloseDelay) CbAutoClose].
Proof.
  intros Hwf Ht Hcb Hdue Hb Hlt. cbv zeta.
  destruct (showYouPushedMessage_facts x) as (Hn2 & _ & Ht2 & Hp2 & Hc2).
  pose proof (showYouPushedMessage_wf x Hwf) as Hwf2.
  rewrite Ht in Ht2. cbn [app] in Ht2.
  remember (showYouPushedMessage x) as s2 eqn:Es2. clear Es2.
  remember (panels (close_existing x)) as P eqn:EP. clear EP.
  assert (Hadv : advance b s2 =
    set_now (now x + b)
      (autoClose
         (set_timers [mkTimer (nextTimer x) (now x + autoCloseDelay) CbAutoClose]
            (set_now (due T0) s2)))).
  { replace b with ((now x + b - due T0) + S (due T0 - now x - 1)) at 1 by lia.
    rewrite (advance_first_of_two s2 _ _ (due T0 - now x - 1) (now x + b - due T0) Ht2);
      [|done|lia|cbn [due]; lia].
    rewrite Hn2. f_equal; [lia|]. do 3 f_equal. lia. }
  rewrite Hadv. clear Hadv. autorewrite with state. split; [done|].
  pose proof (autoClose_clock
    (set_timers [mkTimer (nextTimer x) (now x + autoCloseDelay) CbAutoClose]
       (set_now (due T0) s2))) as Hclk.
  clock_of Hclk. autorewrite with state in Htimers. split; [|done].
  rewrite (autoClose_last _ P (fresh_panel (now x)));
    autorewrite with state; [done|by apply (panels_ok_ext s2), Hwf2|done|done].
Qed.

(** A surface closed by hand at [t], the next one shown [g] milliseconds
    later, still within the 5000ms of the first. *)
Lemma close_show_stale (s : State) (t g b : nat) :
  wf s → timers s = [] →
  t + g < autoCloseDelay → autoCloseDelay ≤ t + g + b → b < autoCloseDelay →
  let s3 := advance b (showYouPushedMessage
              (advance g (userClose (length (panels s))
                            (advance t (showYouPushedMessage s))))) in
  now s3 = now s + t + g + b
  ∧ panels s3 =
    panels (close_existing s) ++
    [ closed_at (now s + t) (called (fresh_panel (now s)));
      closed_at (now s + autoCloseDelay) (called (fresh_panel (now s + t + g))) ]
  ∧ timers s3 = [mkTimer (S (nextTimer s)) (now s + t + g + autoCloseDelay) CbAutoClose].
Proof.
  intros Hwf Ht Htg Hb Hlt. cbv zeta.
  destruct (close_after_show s t Hwf Ht) as (Hwf1 & Hn1 & Hnt1 & Ht1 & Hc1 & Hp1); [lia|].
  remember (userClose (length (panels s)) (advance t (showYouPushedMessage s)))
    as s1 eqn:Es1. clear Es1.
  remember (panels (close_existing s)) as P eqn:EP. clear EP.
  assert (Hadv : advance g s1 = set_now (now s + t + g) s1).
  { rewrite advance_idle, Hn1; [done|].
    intros T. rewrite Ht1, Hn1. intros ->%list_elem_of_singleton. cbn [due]. lia. }
  pose proof (advance_wf g s1 Hwf1) as Hwfx. rewrite Hadv in *. clear Hadv.
  destruct (show_under_stale_timer (set_now (now s + t + g) s1)
              (mkTimer (nextTimer s) (now s + autoCloseDelay) CbAutoClose) b Hwfx)
    as (Hn3 & Hp3 & Ht3);
    autorewrite with state; cbn [due callback]; try done; try lia.
  autorewrite with state in Hn3, Hp3, Ht3. cbn [due] in Hp3.
  rewrite Hn3, Hp3, Ht3, Hnt1. split; [done|]. split; [|done].
  unfold close_existing. rewrite currentPanel_set_now, Hc1, panels_set_now, Hp1.
  by rewrite <- app_assoc.
Qed.

Lemma run_close_then_show (env : Env) (t g b : nat) :
  run ([test_command] ++ replicate t Tick ++ [UserClose 0] ++ replicate g Tick
       ++ [test_command] ++ replicate b Tick) (activate env init) =
  advance b (showYouPushedMessage
    (advance g (userClose 0 (advance t (showYouPushedMessage (activate env init)))))).
Proof.
  rewrite !run_app, !run_ticks, !run_single.
  rewrite (lookup_test_command env (activate env init) eq_refl).
  change (step (UserClose 0) ?x) with (userClose 0 x).
  rewrite (lookup_test_command env); [done|].
  rewrite advance_commands.
  pose proof (userClose_registry 0 (advance t (showYouPushedMessage (activate env init))))
    as Hr.
  unfold registry in Hr. injection Hr as -> _ _ _ _.
  by rewrite advance_commands, showYouPushedMessage_commands.
Qed.

(** C5. The claim on the input where it fails.  The test command at 0ms,
    the panel closed by hand at 1000ms, the test command again at 2000ms,
    then time up to 5000ms.  The close cleared [currentPanel] and no panel
    is disposed twice; but the timer of the first panel is still in the
    queue, and when it fires at 5000ms it is no no-op: [currentPanel] is
    the second panel by then, and the timer disposes it, 3000ms after it
    was shown. *)
Theorem close_then_show_stale_timer :
  now (run close_then_show (activate env0 init)) = 5000
  ∧ panels (run close_then_show (activate env0 init)) =
    [ mkPanel "youPushed" "YOU PUSHED" 0 (Some 1000) 1 [ClearCurrentPanel];
      mkPanel "youPushed" "YOU PUSHED" 2000 (Some 5000) 1 [ClearCurrentPanel] ]
  ∧ timers (run close_then_show (activate env0 init)) =
    [mkTimer 1 (2000 + 5000) CbAutoClose].
Proof.
  unfold close_then_show. rewrite (run_close_then_show env0 1000 1000 3000).
  destruct (activate_fresh env0) as (Hwf & _ & _).
  destruct (activate_quiet env0) as (Hn & Ht & Hp).
  assert (Hlen : length (panels (activate env0 init)) = 0).
  { destruct (core_inv _ _ (activate_core env0 init)) as (_ & _ & ->). done. }
  pose proof (close_show_stale (activate env0 init) 1000 1000 3000 Hwf Ht) as H.
  cbv zeta in H. rewrite Hlen in H.
  destruct H as (-> & -> & ->); try (unfold autoCloseDelay; lia).
  rewrite Hn, Hp. done.
Qed.
